(** * Voice identification front end: audio capture, enrollment, recognition
      and the profile store, embedded from the TypeScript sources.

    The definitions follow the source files:
    - [JS]          the ECMAScript number conversions the code relies on
                    (typed-array stores, the 32-bit bit operators);
    - [Voiceprint]  the two byte conversions of [src/utils/eagle.ts];
    - [Control]     state, exceptions and [try]/[catch];
    - [Types]       [src/types/index.ts];
    - [Recorder]    [src/hooks/useAudioRecorder.ts];
    - [Eagle]       [src/utils/eagle.ts], class [EagleService];
    - [Storage]     [src/utils/storage.ts], class [SpeakerStorage];
    - [Enrollment]  [src/components/SpeakerEnrollment.tsx];
    - [Recognition] [src/components/SpeakerRecognition.tsx];
    - [Async]       computations suspended at an [await];
    - [Overlap]     the frame handler of the enrollment, [await] by
                    [await], and the events of a session;
    - [Page]        [src/app/page.tsx], the notifications and the count;
    - [Scenario]    concrete engines and surroundings.

    The statements follow, one module of facts per module of definitions,
    each with its worked examples: first the facts the specification
    states, then further facts on sequences of calls, on the store, on
    starting and leaving a session and on the page. The speaker-recognition engine
    and the browser are outside the sources: the engine is a parameter
    (any deterministic profiler and recognizer), the object store of
    IndexedDB is a finite map with its unique index, and a handler runs
    to its end before the next one starts, except in [Overlap]. *)

From Stdlib Require Import ZArith QArith Lia Lqa Bool Zify ZifyInst ZifyNat.
From stdpp Require Import gmap strings list fin_maps pretty.

Local Open Scope Z_scope.

(* ===================================================================== *)
(** * ECMAScript numbers                                                   *)
(* ===================================================================== *)

Module JS.

(** [ToUint32], [ToInt32], [ToInt16] and [ToUint8] on a mathematical
    integer: reduction modulo [2^w], re-centred for the signed ones. *)
Definition ToUint32 (z : Z) : Z := z mod 2 ^ 32.

Definition ToInt32 (z : Z) : Z :=
  let u := z mod 2 ^ 32 in if u <? 2 ^ 31 then u else u - 2 ^ 32.

Definition ToInt16 (z : Z) : Z :=
  let u := z mod 2 ^ 16 in if u <? 2 ^ 15 then u else u - 2 ^ 16.

Definition ToUint8 (z : Z) : Z := z mod 2 ^ 8.

(** The shift count of [<<] and [>>>] is taken modulo 32. *)
Definition shl (a n : Z) : Z := ToInt32 (Z.shiftl (ToInt32 a) (n mod 32)).
Definition ushr (a n : Z) : Z := Z.shiftr (ToUint32 a) (n mod 32).
Definition bor (a b : Z) : Z := ToInt32 (Z.lor (ToInt32 a) (ToInt32 b)).
Definition band (a b : Z) : Z := ToInt32 (Z.land (ToInt32 a) (ToInt32 b)).

(** [Math.ceil(n / 4)] and [Math.floor(n / 4)] on a non-negative length. *)
Definition ceil_div4 (n : nat) : nat := ((n + 3) / 4)%nat.
Definition floor_div4 (n : nat) : nat := (n / 4)%nat.

(** Values a typed array can hold. *)
Definition is_uint8 (z : Z) : Prop := 0 <= z < 256.
Definition is_int16 (z : Z) : Prop := -32768 <= z <= 32767.
Definition is_int32 (z : Z) : Prop := - 2 ^ 31 <= z < 2 ^ 31.

(** [new Int32Array(xs)] / [Int32Array.from]: every element goes through
    [ToInt32]; [Array.from(typedArray)] copies the elements unchanged. *)
Definition new_Int32Array (xs : list Z) : list Z := ToInt32 <$> xs.
Definition Array_from (xs : list Z) : list Z := xs.

End JS.

(* ===================================================================== *)
(** * [EagleService]: voiceprint byte packing                              *)
(* ===================================================================== *)

Module Voiceprint.
Import JS.

(** [profileBytes[i] || 0]: an index past the end reads [undefined],
    which [||] replaces by [0]. *)
Definition byte_or_0 (profileBytes : list Z) (i : nat) : Z :=
  default 0 (profileBytes !! i).

(** The right-hand side of the assignment in the loop of [exportProfile]:
    [(bytes[0] << 24) | (bytes[1] << 16) | (bytes[2] << 8) | bytes[3]]. *)
Definition pack_word (b0 b1 b2 b3 : Z) : Z :=
  bor (bor (bor (shl b0 24) (shl b1 16)) (shl b2 8)) b3.

(** [for (let i = 0; i < profileBytes.length; i += 4) { ... }] of
    [exportProfile]. [fuel] bounds the number of iterations; the store
    into the [Int32Array] converts with [ToInt32] and is dropped when
    the index is out of range. *)
Fixpoint exportProfile_loop (fuel : nat) (profileBytes : list Z) (i : nat)
    (int32Array : list Z) : list Z :=
  match fuel with
  | O => int32Array
  | S fuel' =>
      if (i <? length profileBytes)%nat then
        let w := pack_word (byte_or_0 profileBytes i)
                           (byte_or_0 profileBytes (i + 1))
                           (byte_or_0 profileBytes (i + 2))
                           (byte_or_0 profileBytes (i + 3)) in
        exportProfile_loop fuel' profileBytes (i + 4)
          (<[floor_div4 i := ToInt32 w]> int32Array)
      else int32Array
  end.

(** The conversion of [exportProfile] (lines "Convert EagleProfile bytes
    to Int32Array"): a zero-filled [Int32Array] of [ceil(length / 4)]
    words, filled by the loop. One unit of fuel per byte is more than the
    loop uses. *)
Definition bytesToInt32Array (profileBytes : list Z) : list Z :=
  exportProfile_loop (length profileBytes) profileBytes 0
    (replicate (ceil_div4 (length profileBytes)) 0).

(** Body of the loop of [initializeRecognizer]: the four stores into the
    [Uint8Array] for word [i]. *)
Definition unpack_store (int32Array : list Z) (i : nat) (uint8Array : list Z)
    : list Z :=
  let value := default 0 (int32Array !! i) in
  let a0 := <[(i * 4)%nat := ToUint8 (band (ushr value 24) 255)]> uint8Array in
  let a1 := <[(i * 4 + 1)%nat := ToUint8 (band (ushr value 16) 255)]> a0 in
  let a2 := <[(i * 4 + 2)%nat := ToUint8 (band (ushr value 8) 255)]> a1 in
  <[(i * 4 + 3)%nat := ToUint8 (band value 255)]> a2.

(** [for (let i = 0; i < int32Array.length; i++) { ... }], [n] iterations
    left. *)
Fixpoint initializeRecognizer_loop (n : nat) (int32Array : list Z) (i : nat)
    (uint8Array : list Z) : list Z :=
  match n with
  | O => uint8Array
  | S n' =>
      initializeRecognizer_loop n' int32Array (S i)
        (unpack_store int32Array i uint8Array)
  end.

(** The conversion of [initializeRecognizer] ("Convert Int32Array back to
    Uint8Array"). *)
Definition int32ArrayToBytes (int32Array : list Z) : list Z :=
  initializeRecognizer_loop (length int32Array) int32Array 0
    (replicate (length int32Array * 4) 0).

(** What the two loops compute for one word, used to state their results:
    word [k] of the packed array, and the four bytes of a word. *)
Definition word_at (profileBytes : list Z) (k : nat) : Z :=
  ToInt32 (pack_word (byte_or_0 profileBytes (4 * k))
                     (byte_or_0 profileBytes (4 * k + 1))
                     (byte_or_0 profileBytes (4 * k + 2))
                     (byte_or_0 profileBytes (4 * k + 3))).

Definition bytes_of_word (value : Z) : list Z :=
  [ ToUint8 (band (ushr value 24) 255); ToUint8 (band (ushr value 16) 255);
    ToUint8 (band (ushr value 8) 255); ToUint8 (band value 255) ].

(** Number of zero bytes that complete a length to a multiple of four. *)
Definition padding (n : nat) : nat := ((4 - n mod 4) mod 4)%nat.

End Voiceprint.

(* ===================================================================== *)
(** * Control flow: state, exceptions, [try]/[catch]                       *)
(* ===================================================================== *)

Module Control.

(** A thrown [Error], by its [message]. Every value thrown in the sources
    is an [Error] object, and [String(error)] of such an object is
    ["Error: " + message]; what the engine or the browser throws is taken
    to be one too. *)
Definition Error : Type := string.
Definition String_of_error (e : Error) : string := "Error: " +:+ e.

Inductive result (A : Type) : Type :=
| Ok (a : A)
| Throw (e : Error).
Arguments Ok {A} a.
Arguments Throw {A} e.

(** A computation over a mutable state [S] that returns or throws. The
    state changes made before a [throw] stay, as in JavaScript. An
    [await] is the sequencing of this monad: the computation is the
    method or the handler with every call it waits for completing before
    anything else happens. What another handler does while one is
    suspended is in [Async] and [Overlap]. *)
Definition M (S A : Type) : Type := S -> result A * S.

Definition ret {S A} (a : A) : M S A := fun s => (Ok a, s).
Definition throw {S A} (e : Error) : M S A := fun s => (Throw e, s).

Definition bind {S A B} (m : M S A) (k : A -> M S B) : M S B :=
  fun s =>
    match m s with
    | (Ok a, s') => k a s'
    | (Throw e, s') => (Throw e, s')
    end.

Definition try_catch {S A} (m : M S A) (handler : Error -> M S A) : M S A :=
  fun s =>
    match m s with
    | (Ok a, s') => (Ok a, s')
    | (Throw e, s') => handler e s'
    end.

Definition gets {S A} (f : S -> A) : M S A := fun s => (Ok (f s), s).
Definition modify {S} (f : S -> S) : M S unit := fun s => (Ok tt, f s).
Definition when {S} (b : bool) (m : M S unit) : M S unit :=
  if b then m else ret tt.

(** A computation on a component [S] of a larger state [T]. *)
Definition zoom {S T A} (proj : T -> S) (inj : S -> T -> T) (m : M S A)
    : M T A :=
  fun t => let '(r, s') := m (proj t) in (r, inj s' t).

Definition outcome {S A} (x : result A * S) : result A := fst x.
Definition final {S A} (x : result A * S) : S := snd x.

Definition is_Throw {A} (r : result A) : bool :=
  match r with Throw _ => true | Ok _ => false end.

(** How many entries of a log satisfy [f]. *)
Fixpoint count {A} (f : A -> bool) (l : list A) : nat :=
  match l with
  | [] => 0
  | x :: l' => (if f x then 1 else 0) + count f l'
  end.

End Control.

Notation "'let!' x ':=' m 'in' k" := (Control.bind m (fun x => k))
  (at level 10, x name, m at level 100, k at level 200).
Notation "'run!' m 'in' k" := (Control.bind m (fun _ => k))
  (at level 10, m at level 100, k at level 200).

(* ===================================================================== *)
(** * [src/types/index.ts]                                                 *)
(* ===================================================================== *)

Module Types.

(** A valid [Date], by its time value in milliseconds. *)
Definition Date : Type := Z.

Record SpeakerProfile : Type := {
  id : string;
  name : string;
  voiceprint : list Z;          (* Int32Array *)
  createdAt : Date;
  lastUpdated : Date;
}.

End Types.


(* ===================================================================== *)
(** * [useAudioRecorder]: sample conversion                                *)
(* ===================================================================== *)

Module Recorder.
Import JS Control.

(** A sample of the [Float32Array] handed to [onaudioprocess], read as a
    JavaScript number: not-a-number, an infinity, or a finite value, kept
    as the rational it denotes (the sign of zero plays no part below).
    The products of the conversion are exact on such numbers: a 24-bit
    significand times a 15- or 16-bit constant fits the 53 bits of a
    double. *)
Inductive number : Type :=
| NaN
| Infinity (negative : bool)
| Finite (q : Q).

(** [a < b] on numbers; any comparison with [NaN] is false. *)
Definition lt (a b : number) : bool :=
  match a, b with
  | NaN, _ | _, NaN => false
  | Infinity true, Infinity true => false
  | Infinity true, _ => true
  | _, Infinity true => false
  | Infinity false, _ => false
  | _, Infinity false => true
  | Finite x, Finite y => negb (Qle_bool y x)
  end.

(** [Math.min] and [Math.max] of two numbers: [NaN] if either is. *)
Definition Math_min (a b : number) : number :=
  match a, b with
  | NaN, _ | _, NaN => NaN
  | _, _ => if lt b a then b else a
  end.

Definition Math_max (a b : number) : number :=
  match a, b with
  | NaN, _ | _, NaN => NaN
  | _, _ => if lt a b then b else a
  end.

(** [x * k] for a positive integer constant [k]. *)
Definition mul_const (x : number) (k : Z) : number :=
  match x with
  | NaN => NaN
  | Infinity s => Infinity s
  | Finite q => Finite (q * inject_Z k)
  end.

(** Truncation toward zero of a rational. *)
Definition truncate (q : Q) : Z := Z.quot (Qnum q) (Z.pos (Qden q)).

(** A store into an [Int16Array]: [NaN] and the infinities become [0], a
    finite number is truncated and reduced modulo [2^16]. *)
Definition Int16Array_store (x : number) : Z :=
  match x with
  | NaN | Infinity _ => 0
  | Finite q => ToInt16 (truncate q)
  end.

(** [const sample = Math.max(-1, Math.min(1, inputData[i]))]. *)
Definition clamp (input : number) : number :=
  Math_max (Finite (-1)) (Math_min (Finite 1) input).

(** [sample < 0 ? sample * 0x8000 : sample * 0x7FFF]. *)
Definition scale (sample : number) : number :=
  if lt sample (Finite 0) then mul_const sample 32768
  else mul_const sample 32767.

(** One iteration of the loop of [processor.onaudioprocess]: the value
    left in [int16Data[i]]. *)
Definition convert_sample (input : number) : Z :=
  Int16Array_store (scale (clamp input)).

(** The whole loop: [int16Data] for a block [inputData]. *)
Definition convert_block (inputData : list number) : list Z :=
  convert_sample <$> inputData.

(** The state of the hook that the components read and change
    ([audioLevel] and [duration] only feed the display), and whether the
    browser grants the microphone. *)
Record RecorderState : Type := {
  isRecording : bool;
  isInitialized : bool;
  error : option string;
}.

Definition initial : RecorderState :=
  {| isRecording := false; isInitialized := false; error := None |}.

(** [requestPermission]: never throws, reports through the boolean and
    the [error] field. *)
Definition requestPermission (microphone : bool) : M RecorderState bool :=
  if microphone then
    run! modify (fun s => {| isRecording := isRecording s;
                             isInitialized := isInitialized s;
                             error := None |}) in
    ret true
  else
    run! modify (fun s => {| isRecording := isRecording s;
                             isInitialized := isInitialized s;
                             error := Some "Microphone permission denied: Permission denied" |}) in
    ret false.

(** [initializeAudio]. *)
Definition initializeAudio (microphone : bool) : M RecorderState bool :=
  if microphone then
    run! modify (fun s => {| isRecording := isRecording s;
                             isInitialized := true; error := None |}) in
    ret true
  else
    run! modify (fun s => {| isRecording := isRecording s;
                             isInitialized := isInitialized s;
                             error := Some "Audio initialization failed: Permission denied" |}) in
    ret false.

Definition startRecording (microphone : bool) : M RecorderState unit :=
  let! ready := gets isInitialized in
  let! initialized := (if ready then ret true else initializeAudio microphone) in
  if negb initialized then ret tt
  else modify (fun s => {| isRecording := true;
                           isInitialized := isInitialized s;
                           error := None |}).

Definition stopRecording : M RecorderState unit :=
  modify (fun s => {| isRecording := false;
                      isInitialized := isInitialized s;
                      error := error s |}).

(** [processor.onaudioprocess]: the frame delivered to the consumer, if
    any ([isRecordingRef.current] is read at delivery). *)
Definition onaudioprocess (inputData : list number) (s : RecorderState)
    : option (list Z) :=
  if isRecording s then Some (convert_block inputData) else None.

(** [updateLevel] of [monitorAudioLevel]: the sum of the analyser's byte
    frequency data, its average, and the average over 255. The numbers
    are the rationals they denote; the analyser's array is never empty
    ([frequencyBinCount] is 128), so the division by its length is
    never [0 / 0]. *)
Definition level_sum (dataArray : list Z) : Z :=
  foldl (fun sum x => sum + x) 0 dataArray.

Definition normalizedLevel (dataArray : list Z) : Q :=
  let average :=
    (inject_Z (level_sum dataArray)
     / inject_Z (Z.of_nat (length dataArray)))%Q in
  (average / 255)%Q.

End Recorder.

(* ===================================================================== *)
(** * [src/utils/eagle.ts]: class [EagleService]                           *)
(* ===================================================================== *)

Module Eagle.
Import JS Control Types.

(** What [enrollAudio] and [recognizeAudio] resolve to. *)
Record EnrollResult : Type := { percentage : Q; feedback : string }.
Record RecognizeResult : Type := { speakerIndex : Z; confidence : Q }.

(** The engine of [@picovoice/eagle-web], known by its interface only:
    a profiler with native state [P] and a recognizer with native state
    [R]. A call returns or throws and leaves a new native state. A
    [frameLength] or [minEnrollSamples] of [0] stands for a missing
    (falsy) property. Percentages and scores are JavaScript numbers,
    only ever compared here: they are kept as the rationals they
    denote. *)
Record Engine (P R : Type) : Type := {
  EagleProfiler_create : result P;
  enroll : P -> list Z -> result EnrollResult * P;
  export : P -> result (list Z) * P;      (* [profile.bytes], a Uint8Array *)
  reset : P -> P;
  minEnrollSamples : P -> Z;
  Eagle_create : list (list Z) -> result R;
  process : R -> list Z -> result (list Q) * R;
  frameLength : R -> nat;
}.
Arguments EagleProfiler_create {P R} _.
Arguments enroll {P R} _ _ _.
Arguments export {P R} _ _.
Arguments reset {P R} _ _.
Arguments minEnrollSamples {P R} _ _.
Arguments Eagle_create {P R} _ _.
Arguments process {P R} _ _ _.
Arguments frameLength {P R} _ _.

(** The calls made to the engine, in order, with their arguments. *)
Inductive Call : Type :=
| CallCreateProfiler
| CallEnroll (pcm : list Z)
| CallExport
| CallReset
| CallCreateRecognizer (profiles : list (list Z))
| CallProcess (frame : list Z).

Definition is_enroll (c : Call) : bool :=
  match c with CallEnroll _ => true | _ => false end.
Definition is_export (c : Call) : bool :=
  match c with CallExport => true | _ => false end.
Definition is_reset (c : Call) : bool :=
  match c with CallReset => true | _ => false end.
Definition is_process (c : Call) : bool :=
  match c with CallProcess _ => true | _ => false end.

Section Service.
Context {P R : Type}.
Variable engine : Engine P R.

(** The private fields of [EagleService], and the log of engine calls. *)
Record Service : Type := {
  profiler : option P;
  recognizer : option R;
  isInitialized : bool;
  enrolledProfiles : list SpeakerProfile;
  audioBuffer : list Z;         (* Int16Array *)
  minBufferSize : Z;
  calls : list Call;
}.

(** [new EagleService()]. *)
Definition new_EagleService : Service :=
  {| profiler := None; recognizer := None; isInitialized := false;
     enrolledProfiles := []; audioBuffer := []; minBufferSize := 16000;
     calls := [] |}.

Definition set_profiler (p : option P) (s : Service) : Service :=
  {| profiler := p; recognizer := recognizer s;
     isInitialized := isInitialized s; enrolledProfiles := enrolledProfiles s;
     audioBuffer := audioBuffer s; minBufferSize := minBufferSize s;
     calls := calls s |}.
Definition set_recognizer (r : option R) (s : Service) : Service :=
  {| profiler := profiler s; recognizer := r;
     isInitialized := isInitialized s; enrolledProfiles := enrolledProfiles s;
     audioBuffer := audioBuffer s; minBufferSize := minBufferSize s;
     calls := calls s |}.
Definition set_isInitialized (b : bool) (s : Service) : Service :=
  {| profiler := profiler s; recognizer := recognizer s;
     isInitialized := b; enrolledProfiles := enrolledProfiles s;
     audioBuffer := audioBuffer s; minBufferSize := minBufferSize s;
     calls := calls s |}.
Definition set_enrolledProfiles (l : list SpeakerProfile) (s : Service)
    : Service :=
  {| profiler := profiler s; recognizer := recognizer s;
     isInitialized := isInitialized s; enrolledProfiles := l;
     audioBuffer := audioBuffer s; minBufferSize := minBufferSize s;
     calls := calls s |}.
Definition set_audioBuffer (b : list Z) (s : Service) : Service :=
  {| profiler := profiler s; recognizer := recognizer s;
     isInitialized := isInitialized s; enrolledProfiles := enrolledProfiles s;
     audioBuffer := b; minBufferSize := minBufferSize s;
     calls := calls s |}.
Definition set_minBufferSize (n : Z) (s : Service) : Service :=
  {| profiler := profiler s; recognizer := recognizer s;
     isInitialized := isInitialized s; enrolledProfiles := enrolledProfiles s;
     audioBuffer := audioBuffer s; minBufferSize := n;
     calls := calls s |}.
Definition log_call (c : Call) (s : Service) : Service :=
  {| profiler := profiler s; recognizer := recognizer s;
     isInitialized := isInitialized s; enrolledProfiles := enrolledProfiles s;
     audioBuffer := audioBuffer s; minBufferSize := minBufferSize s;
     calls := calls s ++ [c] |}.

(** ** Engine calls on the service's handles *)

Definition call_create_profiler : M Service P :=
  fun s =>
    match EagleProfiler_create engine with
    | Ok p => (Ok p, log_call CallCreateProfiler s)
    | Throw e => (Throw e, log_call CallCreateProfiler s)
    end.

Definition call_enroll (p : P) (pcm : list Z) : M Service EnrollResult :=
  fun s =>
    let '(r, p') := enroll engine p pcm in
    (r, set_profiler (Some p') (log_call (CallEnroll pcm) s)).

Definition call_export (p : P) : M Service (list Z) :=
  fun s =>
    let '(r, p') := export engine p in
    (r, set_profiler (Some p') (log_call CallExport s)).

Definition call_reset (p : P) : M Service unit :=
  fun s => (Ok tt, set_profiler (Some (reset engine p)) (log_call CallReset s)).

Definition call_create_recognizer (profiles : list (list Z)) : M Service R :=
  fun s =>
    match Eagle_create engine profiles with
    | Ok r => (Ok r, log_call (CallCreateRecognizer profiles) s)
    | Throw e => (Throw e, log_call (CallCreateRecognizer profiles) s)
    end.

Definition call_process (r : R) (frame : list Z) : M Service (list Q) :=
  fun s =>
    let '(res, r') := process engine r frame in
    (res, set_recognizer (Some r') (log_call (CallProcess frame) s)).

(** ** [initializeProfiler]
    The access key is a non-empty constant of the file, so its check
    never throws. *)
Definition initializeProfiler : M Service unit :=
  try_catch
    (let! p := call_create_profiler in
     run! modify (set_profiler (Some p)) in
     run! (let! size := gets minBufferSize in
           when (negb (minEnrollSamples engine p =? 0))
             (modify (set_minBufferSize
                        (Z.max size (minEnrollSamples engine p))))) in
     modify (set_isInitialized true))
    (fun error =>
       throw ("Eagle profiler initialization failed: "
              +:+ String_of_error error)).

(** ** [initializeRecognizer] *)
Definition initializeRecognizer (profiles : list SpeakerProfile)
    : M Service unit :=
  try_catch
    (run! modify (set_enrolledProfiles profiles) in
     let eagleProfiles :=
       (fun profile => Voiceprint.int32ArrayToBytes (voiceprint profile))
         <$> profiles in
     let! r := call_create_recognizer eagleProfiles in
     run! modify (set_recognizer (Some r)) in
     modify (set_isInitialized true))
    (fun error =>
       throw ("Eagle recognizer initialization failed: "
              +:+ String_of_error error)).

(** ** [enrollAudio] *)
Definition enrollAudio (pcmData : list Z) : M Service EnrollResult :=
  let! initialized := gets isInitialized in
  if negb initialized then
    throw "Profiler not initialized. Call initializeProfiler() first."
  else
    try_catch
      ((* Accumulate audio data in buffer *)
       run! modify (fun s => set_audioBuffer (audioBuffer s ++ pcmData) s) in
       let! buffer := gets audioBuffer in
       let! size := gets minBufferSize in
       (* Only process when we have enough data *)
       if Z.of_nat (length buffer) <? size then
         ret {| percentage := 0; feedback := "COLLECTING_AUDIO" |}
       else
         let! handle := gets profiler in
         match handle with
         | Some p =>
             let! result := call_enroll p buffer in
             (* Clear buffer after successful processing *)
             run! modify (set_audioBuffer []) in
             ret {| percentage := percentage result;
                    feedback := feedback result |}
         | None => throw "Eagle profiler not initialized"
         end)
      (fun error => throw ("Enrollment failed: " +:+ String_of_error error)).

(** ** [exportProfile] *)
Definition exportProfile : M Service (list Z) :=
  let! initialized := gets isInitialized in
  if negb initialized then
    throw "Profiler not initialized. Call initializeProfiler() first."
  else
    try_catch
      (let! handle := gets profiler in
       match handle with
       | Some p =>
           let! profileBytes := call_export p in
           ret (Voiceprint.bytesToInt32Array profileBytes)
       | None => throw "Eagle profiler not initialized"
       end)
      (fun error => throw ("Profile export failed: " +:+ String_of_error error)).

(** ** [resetProfiler] and [clearAudioBuffer] *)
Definition resetProfiler : M Service unit :=
  run! (let! handle := gets profiler in
        match handle with
        | Some p => call_reset p
        | None => ret tt
        end) in
  modify (set_audioBuffer []).

Definition clearAudioBuffer : M Service unit := modify (set_audioBuffer []).

(** ** [recognizeAudio] *)

(** [this.recognizer.frameLength || 512]. *)
Definition expectedFrameLength (r : R) : nat :=
  if (frameLength engine r =? 0)%nat then 512%nat else frameLength engine r.

(** The frame handed to the engine: [pcmData] itself when the lengths
    agree, [pcmData.slice(0, expected)] when it is longer, and a
    zero-filled [Int16Array(expected)] with [pcmData] copied at its start
    when it is shorter. *)
Definition adjust_frame (expected : nat) (pcmData : list Z) : list Z :=
  if (length pcmData =? expected)%nat then pcmData
  else if (expected <? length pcmData)%nat then take expected pcmData
  else pcmData ++ replicate (expected - length pcmData) 0.

(** [a > b] and [a < b] on scores. *)
Definition Qgtb (a b : Q) : bool := negb (Qle_bool a b).
Definition Qltb (a b : Q) : bool := negb (Qle_bool b a).

(** [for (let i = 0; i < scores.length; i++) if (scores[i] > maxScore) ...]
    over the scores from index [i] on. *)
Fixpoint scores_loop (rest : list Q) (i : Z) (maxScore : Q) (speakerIndex : Z)
    : Q * Z :=
  match rest with
  | [] => (maxScore, speakerIndex)
  | score :: rest' =>
      if Qgtb score maxScore then scores_loop rest' (i + 1) score i
      else scores_loop rest' (i + 1) maxScore speakerIndex
  end.

Definition confidenceThreshold : Q := 1 # 2.

(** The decision taken on the score vector. *)
Definition best_match (scores : list Q) : RecognizeResult :=
  let '(maxScore, speakerIndex) := scores_loop scores 0 (-1) (-1) in
  let speakerIndex :=
    if Qltb maxScore confidenceThreshold then -1 else speakerIndex in
  {| speakerIndex := speakerIndex; confidence := maxScore |}.

Definition recognizeAudio (pcmData : list Z) : M Service RecognizeResult :=
  let! initialized := gets isInitialized in
  if negb initialized then
    throw "Recognizer not initialized. Call initializeRecognizer() first."
  else
    try_catch
      (let! handle := gets recognizer in
       match handle with
       | Some r =>
           let pcmData := adjust_frame (expectedFrameLength r) pcmData in
           let! scores := call_process r pcmData in
           ret (best_match scores)
       | None => throw "Eagle recognizer not initialized"
       end)
      (fun error => throw ("Recognition failed: " +:+ String_of_error error)).

(** A service on which [recognizeAudio] reaches the engine. *)
Definition ready (s : Service) : Prop :=
  isInitialized s = true /\ is_Some (recognizer s).

(** ** [getSpeakerName] *)
Definition getSpeakerName (speakerIndex : Z) (s : Service) : string :=
  if (0 <=? speakerIndex) && (speakerIndex <? Z.of_nat (length (enrolledProfiles s)))
  then match enrolledProfiles s !! Z.to_nat speakerIndex with
       | Some profile => name profile
       | None => "Unknown"
       end
  else "Unknown".

(** ** [cleanup]
    [stopVoiceProcessor] only clears the timer of the simulated frames,
    which no component starts, and [release] frees the native handles
    that the service drops right after: neither shows in the fields. The
    audio buffer and the minimum buffer size are left as they are. *)
Definition cleanup : M Service unit :=
  run! modify (set_profiler None) in
  run! modify (set_recognizer None) in
  run! modify (set_enrolledProfiles []) in
  modify (set_isInitialized false).

(** ** Sequences of calls
    The methods a client can call on the service, and the state a
    sequence of such calls leaves, whatever each call returned or
    threw. *)
Inductive Op : Type :=
| OpInitializeProfiler
| OpInitializeRecognizer (profiles : list SpeakerProfile)
| OpEnrollAudio (pcmData : list Z)
| OpExportProfile
| OpResetProfiler
| OpClearAudioBuffer
| OpRecognizeAudio (pcmData : list Z)
| OpCleanup.

Definition perform (op : Op) (s : Service) : Service :=
  match op with
  | OpInitializeProfiler => final (initializeProfiler s)
  | OpInitializeRecognizer profiles => final (initializeRecognizer profiles s)
  | OpEnrollAudio pcmData => final (enrollAudio pcmData s)
  | OpExportProfile => final (exportProfile s)
  | OpResetProfiler => final (resetProfiler s)
  | OpClearAudioBuffer => final (clearAudioBuffer s)
  | OpRecognizeAudio pcmData => final (recognizeAudio pcmData s)
  | OpCleanup => final (cleanup s)
  end.

Fixpoint perform_all (ops : list Op) (s : Service) : Service :=
  match ops with
  | [] => s
  | op :: ops' => perform_all ops' (perform op s)
  end.

(** The buffers the engine's [enroll] was given, oldest first. *)
Fixpoint enrolled_buffers (cs : list Call) : list (list Z) :=
  match cs with
  | [] => []
  | CallEnroll pcm :: cs' => pcm :: enrolled_buffers cs'
  | _ :: cs' => enrolled_buffers cs'
  end.

End Service.

Arguments Service : clear implicits.
Arguments new_EagleService {P R}.

End Eagle.

(* ===================================================================== *)
(** * [src/utils/storage.ts]: class [SpeakerStorage]                       *)
(* ===================================================================== *)

Module Storage.
Import JS Control Types.

(** The text [Date.prototype.toISOString] gives for a valid date spells
    its time value to the millisecond, and [new Date(text)] reads it
    back; the text is kept as the time value it spells. *)
Inductive ISOString : Type := ISO (time : Z).
Definition toISOString (d : Date) : ISOString := ISO d.
Definition new_Date (text : ISOString) : Date :=
  match text with ISO time => time end.

(** A record of the object store ["speakerProfiles"]: the profile with
    the voiceprint as a plain array and the dates as text. *)
Record StoredProfile : Type := {
  stored_id : string;
  stored_name : string;
  stored_voiceprint : list Z;
  stored_createdAt : ISOString;
  stored_lastUpdated : ISOString;
}.

(** The database: whether it can be opened, and the object store, keyed
    by [id] ([keyPath: 'id']) with a unique index on [name]. *)
Record DB : Type := {
  available : bool;
  records : gmap string StoredProfile;
}.

Definition set_records (m : gmap string StoredProfile) (db : DB) : DB :=
  {| available := available db; records := m |}.

(** ** The object store *)

(** The unique index rejects a [put] when a record under another key
    already has the name. *)
Definition name_taken (key name : string) (m : gmap string StoredProfile)
    : bool :=
  bool_decide (map_Exists (fun k v => k <> key /\ stored_name v = name) m).

(** [store.put(value)]. *)
Definition store_put (value : StoredProfile) (m : gmap string StoredProfile)
    : option (gmap string StoredProfile) :=
  if name_taken (stored_id value) (stored_name value) m then None
  else Some (<[stored_id value := value]> m).

(** [store.index('name').get(name)]. *)
Definition index_get (name : string) (m : gmap string StoredProfile)
    : option StoredProfile :=
  (fun found => snd (snd found))
    <$> list_find (fun kv => stored_name (snd kv) = name) (map_to_list m).

(** ** The conversions of [saveSpeakerProfile] and of the getters *)

Definition profileToStore (profile : SpeakerProfile) : StoredProfile :=
  {| stored_id := id profile;
     stored_name := name profile;
     stored_voiceprint := Array_from (voiceprint profile);
     stored_createdAt := toISOString (createdAt profile);
     stored_lastUpdated := toISOString (lastUpdated profile) |}.

Definition profileFromStore (result : StoredProfile) : SpeakerProfile :=
  {| id := stored_id result;
     name := stored_name result;
     voiceprint := new_Int32Array (stored_voiceprint result);
     createdAt := new_Date (stored_createdAt result);
     lastUpdated := new_Date (stored_lastUpdated result) |}.

(** [if (!this.db) await this.init()]. *)
Definition init : M DB unit :=
  let! ok := gets available in
  if ok then ret tt else throw "Failed to open IndexedDB".

Definition saveSpeakerProfile (profile : SpeakerProfile) : M DB unit :=
  run! init in
  let! store := gets records in
  match store_put (profileToStore profile) store with
  | Some store' => modify (set_records store')
  | None => throw "Failed to save speaker profile"
  end.

Definition getSpeakerProfile (key : string) : M DB (option SpeakerProfile) :=
  run! init in
  let! store := gets records in
  ret (profileFromStore <$> store !! key).

Definition getAllSpeakerProfiles : M DB (list SpeakerProfile) :=
  run! init in
  let! store := gets records in
  ret ((fun kv => profileFromStore (snd kv)) <$> map_to_list store).

Definition deleteSpeakerProfile (key : string) : M DB unit :=
  run! init in
  modify (fun db => set_records (delete key (records db)) db).

Definition getSpeakerByName (name : string) : M DB (option SpeakerProfile) :=
  run! init in
  let! store := gets records in
  ret (profileFromStore <$> index_get name store).

Definition clearAllProfiles : M DB unit :=
  run! init in
  modify (set_records ∅).

(** ** What the key path and the unique index stand for *)

(** Every record is stored under its own [id]. *)
Definition keyed_by_id (m : gmap string StoredProfile) : Prop :=
  forall k r, m !! k = Some r -> stored_id r = k.

(** No two records have the same name. *)
Definition unique_names (m : gmap string StoredProfile) : Prop :=
  forall k1 k2 r1 r2,
    m !! k1 = Some r1 -> m !! k2 = Some r2 ->
    stored_name r1 = stored_name r2 -> k1 = k2.

End Storage.

(* ===================================================================== *)
(** * [src/components/SpeakerEnrollment.tsx]                               *)
(* ===================================================================== *)

Module Enrollment.
Import Control Types.

Record EnrollmentState : Type := {
  isEnrolling : bool;
  isRecording : bool;
  progress : Q;
  error : option string;
  success : bool;
}.

(** Which of the optional callbacks the parent passes. *)
Record Props : Type := {
  onEnrollmentComplete : bool;
  onError : bool;
}.

(** What the component does to its surroundings: calls of the recorder
    hook, of the parent's callbacks, and the timer it arms. *)
Inductive Event : Type :=
| StartRecording
| StopRecording
| OnEnrollmentComplete (profile : SpeakerProfile)
| OnError (message : string)
| SetTimeout_resetForm.

Definition is_stop (e : Event) : bool :=
  match e with StopRecording => true | _ => false end.
Definition is_error (e : Event) : bool :=
  match e with OnError _ => true | _ => false end.
Definition is_complete (e : Event) : bool :=
  match e with OnEnrollmentComplete _ => true | _ => false end.

(** [String.prototype.trim]. A text is held as the bytes of its UTF-8
    form, as the string literals of this file are. The code points that
    [trim] removes from both ends are those of WhiteSpace (TAB, VT, FF,
    SP, NBSP, ZWNBSP and the category Zs) and of LineTerminator (LF, CR,
    LS, PS); none lies beyond the basic multilingual plane. *)
Definition white_space : list N :=
  [9; 11; 12; 32; 160; 65279;
   5760; 8192; 8193; 8194; 8195; 8196; 8197; 8198; 8199; 8200; 8201; 8202;
   8239; 8287; 12288;
   10; 13; 8232; 8233]%N.

(** The UTF-8 bytes of a code point below U+10000. *)
Definition utf8 (codePoint : N) : list Ascii.ascii :=
  if (codePoint <? 128)%N then [Ascii.ascii_of_N codePoint]
  else if (codePoint <? 2048)%N then
    [Ascii.ascii_of_N (192 + codePoint / 64);
     Ascii.ascii_of_N (128 + codePoint mod 64)]
  else
    [Ascii.ascii_of_N (224 + codePoint / 4096);
     Ascii.ascii_of_N (128 + (codePoint / 64) mod 64);
     Ascii.ascii_of_N (128 + codePoint mod 64)].

(** The text after a leading white space, if the text starts with one;
    [encode] gives the bytes of a code point in reading order. *)
Definition strip (encode : N -> list Ascii.ascii) (l : list Ascii.ascii)
    : option (list Ascii.ascii) :=
  (fun found => drop (length (encode (snd found))) l)
    <$> list_find
          (fun codePoint =>
             take (length (encode codePoint)) l = encode codePoint)
          white_space.

Fixpoint trim_go (fuel : nat) (encode : N -> list Ascii.ascii)
    (l : list Ascii.ascii) : list Ascii.ascii :=
  match fuel with
  | O => l
  | S fuel' =>
      match strip encode l with
      | Some rest => trim_go fuel' encode rest
      | None => l
      end
  end.

(** Every white space has at least one byte, so the length of the text
    is fuel enough. *)
Definition trim_start (l : list Ascii.ascii) : list Ascii.ascii :=
  trim_go (length l) utf8 l.

Definition trim_end (l : list Ascii.ascii) : list Ascii.ascii :=
  rev (trim_go (length l) (fun codePoint => rev (utf8 codePoint)) (rev l)).

Definition trim (s : string) : string :=
  String.string_of_list_ascii
    (trim_end (trim_start (String.list_ascii_of_string s))).

Section Component.
Context {P R : Type}.
Variable engine : Eagle.Engine P R.
Variable props : Props.

(** The component with the two singletons it uses, the recorder hook, and
    the surroundings: the clock read by [Date.now()] and [new Date()],
    the text [Math.random().toString(36).substr(2, 9)] gives, and whether
    the microphone is granted. A handler reads the state the previous
    handler left (the component is rendered again in between). *)
Record App : Type := {
  eagleService : Eagle.Service P R;
  speakerStorage : Storage.DB;
  recorder : Recorder.RecorderState;
  speakerName : string;
  enrollmentState : EnrollmentState;
  events : list Event;
  now : Z;
  random : string;
  microphone : bool;
}.

Definition set_eagleService (s : Eagle.Service P R) (a : App) : App :=
  {| eagleService := s; speakerStorage := speakerStorage a;
     recorder := recorder a; speakerName := speakerName a;
     enrollmentState := enrollmentState a; events := events a;
     now := now a; random := random a; microphone := microphone a |}.
Definition set_speakerStorage (d : Storage.DB) (a : App) : App :=
  {| eagleService := eagleService a; speakerStorage := d;
     recorder := recorder a; speakerName := speakerName a;
     enrollmentState := enrollmentState a; events := events a;
     now := now a; random := random a; microphone := microphone a |}.
Definition set_recorder (r : Recorder.RecorderState) (a : App) : App :=
  {| eagleService := eagleService a; speakerStorage := speakerStorage a;
     recorder := r; speakerName := speakerName a;
     enrollmentState := enrollmentState a; events := events a;
     now := now a; random := random a; microphone := microphone a |}.
Definition set_speakerName (n : string) (a : App) : App :=
  {| eagleService := eagleService a; speakerStorage := speakerStorage a;
     recorder := recorder a; speakerName := n;
     enrollmentState := enrollmentState a; events := events a;
     now := now a; random := random a; microphone := microphone a |}.
Definition set_enrollmentState (e : EnrollmentState) (a : App) : App :=
  {| eagleService := eagleService a; speakerStorage := speakerStorage a;
     recorder := recorder a; speakerName := speakerName a;
     enrollmentState := e; events := events a;
     now := now a; random := random a; microphone := microphone a |}.
Definition emit (e : Event) (a : App) : App :=
  {| eagleService := eagleService a; speakerStorage := speakerStorage a;
     recorder := recorder a; speakerName := speakerName a;
     enrollmentState := enrollmentState a; events := events a ++ [e];
     now := now a; random := random a; microphone := microphone a |}.

Definition eagle {A} (m : M (Eagle.Service P R) A) : M App A :=
  zoom eagleService set_eagleService m.
Definition storage {A} (m : M Storage.DB A) : M App A :=
  zoom speakerStorage set_speakerStorage m.
Definition audio {A} (m : M Recorder.RecorderState A) : M App A :=
  zoom recorder set_recorder m.

(** [setEnrollmentState(prev => ...)]. *)
Definition setEnrollmentState (f : EnrollmentState -> EnrollmentState)
    : M App unit :=
  modify (fun a => set_enrollmentState (f (enrollmentState a)) a).

Definition startRecording : M App unit :=
  run! modify (emit StartRecording) in
  let! mic := gets microphone in
  audio (Recorder.startRecording mic).

Definition stopRecording : M App unit :=
  run! modify (emit StopRecording) in
  audio Recorder.stopRecording.

(** The [catch] blocks of [handleAudioData] and [completeEnrollment]. *)
Definition fail_enrollment (errorMessage : string) : M App unit :=
  run! setEnrollmentState (fun prev =>
         {| isEnrolling := false; isRecording := false;
            progress := progress prev; error := Some errorMessage;
            success := success prev |}) in
  run! stopRecording in
  when (onError props) (modify (emit (OnError errorMessage))).

(** The object literal of [completeEnrollment]: the id is
    [`speaker_${Date.now()}_${Math.random().toString(36).substr(2, 9)}`],
    both dates are [new Date()]. *)
Definition make_profile (time : Z) (suffix name : string)
    (voiceprint : list Z) : SpeakerProfile :=
  {| id := "speaker_" +:+ pretty time +:+ "_" +:+ suffix;
     name := name;
     voiceprint := voiceprint;
     createdAt := time;
     lastUpdated := time |}.

(** ** [completeEnrollment] *)
Definition completeEnrollment : M App unit :=
  try_catch
    (let! voiceprint := eagle (Eagle.exportProfile engine) in
     let! time := gets now in
     let! suffix := gets random in
     let! name := gets speakerName in
     let profile := make_profile time suffix name voiceprint in
     run! storage (Storage.saveSpeakerProfile profile) in
     run! setEnrollmentState (fun prev =>
            {| isEnrolling := false; isRecording := false;
               progress := progress prev; error := error prev;
               success := true |}) in
     run! stopRecording in
     run! when (onEnrollmentComplete props)
            (modify (emit (OnEnrollmentComplete profile))) in
     modify (emit SetTimeout_resetForm))
    fail_enrollment.

(** ** [handleAudioData] *)
Definition handleAudioData (audioData : list Z) : M App unit :=
  let! state := gets enrollmentState in
  if negb (isEnrolling state) then ret tt
  else
    try_catch
      (let! result := eagle (Eagle.enrollAudio engine audioData) in
       run! setEnrollmentState (fun prev =>
              {| isEnrolling := isEnrolling prev;
                 isRecording := isRecording prev;
                 progress := Eagle.percentage result; error := None;
                 success := success prev |}) in
       if Qle_bool 100 (Eagle.percentage result) then completeEnrollment
       else ret tt)
      fail_enrollment.

(** ** [startEnrollment] *)
Definition startEnrollment : M App unit :=
  let! name := gets speakerName in
  if String.eqb (trim name) "" then
    setEnrollmentState (fun prev =>
      {| isEnrolling := isEnrolling prev; isRecording := isRecording prev;
         progress := progress prev;
         error := Some "Please enter a speaker name";
         success := success prev |})
  else
    try_catch
      (let! existingProfile := storage (Storage.getSpeakerByName (trim name)) in
       match existingProfile with
       | Some _ =>
           setEnrollmentState (fun prev =>
             {| isEnrolling := isEnrolling prev;
                isRecording := isRecording prev; progress := progress prev;
                error := Some "A speaker with this name already exists";
                success := success prev |})
       | None =>
           let! mic := gets microphone in
           let! hasPermission := audio (Recorder.requestPermission mic) in
           if negb hasPermission then
             setEnrollmentState (fun prev =>
               {| isEnrolling := isEnrolling prev;
                  isRecording := isRecording prev; progress := progress prev;
                  error := Some "Microphone permission is required for enrollment";
                  success := success prev |})
           else
             run! eagle (Eagle.initializeProfiler engine) in
             (* Clear any previous audio buffer *)
             run! eagle Eagle.clearAudioBuffer in
             run! setEnrollmentState (fun prev =>
                    {| isEnrolling := true; isRecording := true;
                       progress := 0; error := None; success := false |}) in
             startRecording
       end)
      (fun errorMessage =>
         run! setEnrollmentState (fun prev =>
                {| isEnrolling := false; isRecording := false;
                   progress := progress prev; error := Some errorMessage;
                   success := success prev |}) in
         when (onError props) (modify (emit (OnError errorMessage)))).

(** ** [stopEnrollment] and [resetForm] *)
Definition stopEnrollment : M App unit :=
  run! setEnrollmentState (fun prev =>
         {| isEnrolling := false; isRecording := false;
            progress := progress prev; error := error prev;
            success := success prev |}) in
  run! stopRecording in
  eagle (Eagle.resetProfiler engine).

Definition initialState : EnrollmentState :=
  {| isEnrolling := false; isRecording := false; progress := 0;
     error := None; success := false |}.

Definition resetForm : M App unit :=
  run! modify (set_speakerName "") in
  run! setEnrollmentState (fun _ => initialState) in
  eagle (Eagle.resetProfiler engine).

(** The component as first rendered, in given surroundings. *)
Definition mount (db : Storage.DB) (clock : Z) (suffix : string)
    (mic : bool) : App :=
  {| eagleService := Eagle.new_EagleService; speakerStorage := db;
     recorder := Recorder.initial; speakerName := "";
     enrollmentState := initialState; events := [];
     now := clock; random := suffix; microphone := mic |}.

(** The state after [setEnrollmentState] in the [try] block. *)
Definition progressed (result : Eagle.EnrollResult) (s1 : Eagle.Service P R)
    (a : App) : App :=
  set_enrollmentState
    {| isEnrolling := isEnrolling (enrollmentState a);
       isRecording := isRecording (enrollmentState a);
       progress := Eagle.percentage result; error := None;
       success := success (enrollmentState a) |}
    (set_eagleService s1 a).

(** The error of the first call that fails in [completeEnrollment], if
    one does: [exportProfile] (the engine's [export]), then
    [saveSpeakerProfile]. *)
Definition completion_failure (a : App) : option Error :=
  match Eagle.exportProfile engine (eagleService a) with
  | (Throw e, _) => Some e
  | (Ok voiceprint, _) =>
      match Storage.saveSpeakerProfile
              (make_profile (now a) (random a) (speakerName a) voiceprint)
              (speakerStorage a) with
      | (Throw e, _) => Some e
      | (Ok _, _) => None
      end
  end.

(** The error of the first call that fails while a frame is handled, if
    one does: [enrollAudio] (the engine's [enroll]), then, at 100 percent,
    the calls of [completeEnrollment]. *)
Definition failure (audioData : list Z) (a : App) : option Error :=
  match Eagle.enrollAudio engine audioData (eagleService a) with
  | (Throw e, _) => Some e
  | (Ok result, s1) =>
      if Qle_bool 100 (Eagle.percentage result)
      then completion_failure (progressed result s1 a)
      else None
  end.

(** The frames of a recording when every handler has ended before the
    next frame arrives ([Overlap.alone] is the same session event by
    event; [Overlap.run] has the sessions in which a frame arrives while
    a handler is suspended). A handler never throws: both of its paths
    end in a [catch]. *)
Fixpoint handleFrames (frames : list (list Z)) (a : App) : App :=
  match frames with
  | [] => a
  | frame :: frames' => handleFrames frames' (final (handleAudioData frame a))
  end.

End Component.

Arguments App : clear implicits.

End Enrollment.

(* ===================================================================== *)
(** * [src/components/SpeakerRecognition.tsx]                              *)
(* ===================================================================== *)

Module Recognition.
Import Control Types.

Record RecognitionState : Type := {
  isRecognizing : bool;
  isListening : bool;
  identifiedSpeaker : option string;
  confidence : Q;
  error : option string;
}.

Record Props : Type := {
  onSpeakerIdentified : bool;
  onError : bool;
}.

Inductive Event : Type :=
| StartRecording
| StopRecording
| OnSpeakerIdentified (speakerName : string) (confidence : Q)
| OnError (message : string).

Definition is_stop (e : Event) : bool :=
  match e with StopRecording => true | _ => false end.

Section Component.
Context {P R : Type}.
Variable engine : Eagle.Engine P R.
Variable props : Props.

Record App : Type := {
  eagleService : Eagle.Service P R;
  speakerStorage : Storage.DB;
  recorder : Recorder.RecorderState;
  enrolledProfiles : list SpeakerProfile;
  recognitionState : RecognitionState;
  events : list Event;
  microphone : bool;
}.

Definition set_eagleService (s : Eagle.Service P R) (a : App) : App :=
  {| eagleService := s; speakerStorage := speakerStorage a;
     recorder := recorder a; enrolledProfiles := enrolledProfiles a;
     recognitionState := recognitionState a; events := events a;
     microphone := microphone a |}.
Definition set_speakerStorage (d : Storage.DB) (a : App) : App :=
  {| eagleService := eagleService a; speakerStorage := d;
     recorder := recorder a; enrolledProfiles := enrolledProfiles a;
     recognitionState := recognitionState a; events := events a;
     microphone := microphone a |}.
Definition set_recorder (r : Recorder.RecorderState) (a : App) : App :=
  {| eagleService := eagleService a; speakerStorage := speakerStorage a;
     recorder := r; enrolledProfiles := enrolledProfiles a;
     recognitionState := recognitionState a; events := events a;
     microphone := microphone a |}.
Definition set_enrolledProfiles (l : list SpeakerProfile) (a : App) : App :=
  {| eagleService := eagleService a; speakerStorage := speakerStorage a;
     recorder := recorder a; enrolledProfiles := l;
     recognitionState := recognitionState a; events := events a;
     microphone := microphone a |}.
Definition set_recognitionState (r : RecognitionState) (a : App) : App :=
  {| eagleService := eagleService a; speakerStorage := speakerStorage a;
     recorder := recorder a; enrolledProfiles := enrolledProfiles a;
     recognitionState := r; events := events a;
     microphone := microphone a |}.
Definition emit (e : Event) (a : App) : App :=
  {| eagleService := eagleService a; speakerStorage := speakerStorage a;
     recorder := recorder a; enrolledProfiles := enrolledProfiles a;
     recognitionState := recognitionState a; events := events a ++ [e];
     microphone := microphone a |}.

Definition eagle {A} (m : M (Eagle.Service P R) A) : M App A :=
  zoom eagleService set_eagleService m.
Definition storage {A} (m : M Storage.DB A) : M App A :=
  zoom speakerStorage set_speakerStorage m.
Definition audio {A} (m : M Recorder.RecorderState A) : M App A :=
  zoom recorder set_recorder m.

Definition setRecognitionState (f : RecognitionState -> RecognitionState)
    : M App unit :=
  modify (fun a => set_recognitionState (f (recognitionState a)) a).

Definition startRecording : M App unit :=
  run! modify (emit StartRecording) in
  let! mic := gets microphone in
  audio (Recorder.startRecording mic).

Definition stopRecording : M App unit :=
  run! modify (emit StopRecording) in
  audio Recorder.stopRecording.

(** ** [handleAudioData] *)
Definition handleAudioData (audioData : list Z) : M App unit :=
  let! state := gets recognitionState in
  if negb (isRecognizing state) then ret tt
  else
    try_catch
      (let! result := eagle (Eagle.recognizeAudio engine audioData) in
       let! speakerName :=
         gets (fun a => Eagle.getSpeakerName (Eagle.speakerIndex result)
                          (eagleService a)) in
       run! setRecognitionState (fun prev =>
              {| isRecognizing := isRecognizing prev;
                 isListening := isListening prev;
                 identifiedSpeaker := Some speakerName;
                 confidence := Eagle.confidence result;
                 error := None |}) in
       when (onSpeakerIdentified props && negb (String.eqb speakerName "Unknown"))
         (modify (emit (OnSpeakerIdentified speakerName
                          (Eagle.confidence result)))))
      (fun errorMessage =>
         run! setRecognitionState (fun prev =>
                {| isRecognizing := isRecognizing prev;
                   isListening := isListening prev;
                   identifiedSpeaker := identifiedSpeaker prev;
                   confidence := confidence prev;
                   error := Some errorMessage |}) in
         when (onError props) (modify (emit (OnError errorMessage)))).

(** ** [loadEnrolledProfiles] *)
Definition loadEnrolledProfiles : M App (list SpeakerProfile) :=
  try_catch
    (let! profiles := storage Storage.getAllSpeakerProfiles in
     run! modify (set_enrolledProfiles profiles) in
     ret profiles)
    (fun errorMessage =>
       run! setRecognitionState (fun prev =>
              {| isRecognizing := isRecognizing prev;
                 isListening := isListening prev;
                 identifiedSpeaker := identifiedSpeaker prev;
                 confidence := confidence prev;
                 error := Some errorMessage |}) in
       run! when (onError props) (modify (emit (OnError errorMessage))) in
       ret []).

(** ** [startRecognition] *)
Definition startRecognition : M App unit :=
  try_catch
    (let! profiles := loadEnrolledProfiles in
     if (length profiles =? 0)%nat then
       setRecognitionState (fun prev =>
         {| isRecognizing := isRecognizing prev;
            isListening := isListening prev;
            identifiedSpeaker := identifiedSpeaker prev;
            confidence := confidence prev;
            error := Some "No enrolled speakers found. Please enroll at least one speaker first." |})
     else
       let! mic := gets microphone in
       let! hasPermission := audio (Recorder.requestPermission mic) in
       if negb hasPermission then
         setRecognitionState (fun prev =>
           {| isRecognizing := isRecognizing prev;
              isListening := isListening prev;
              identifiedSpeaker := identifiedSpeaker prev;
              confidence := confidence prev;
              error := Some "Microphone permission is required for recognition" |})
       else
         run! eagle (Eagle.initializeRecognizer engine profiles) in
         run! setRecognitionState (fun prev =>
                {| isRecognizing := true; isListening := true;
                   identifiedSpeaker := None; confidence := 0;
                   error := None |}) in
         startRecording)
    (fun errorMessage =>
       run! setRecognitionState (fun prev =>
              {| isRecognizing := false; isListening := false;
                 identifiedSpeaker := identifiedSpeaker prev;
                 confidence := confidence prev;
                 error := Some errorMessage |}) in
       when (onError props) (modify (emit (OnError errorMessage)))).

(** ** [deleteSpeaker] *)
Definition deleteSpeaker (speakerId : string) : M App unit :=
  try_catch
    (run! storage (Storage.deleteSpeakerProfile speakerId) in
     run! loadEnrolledProfiles in
     ret tt)
    (fun errorMessage =>
       run! setRecognitionState (fun prev =>
              {| isRecognizing := isRecognizing prev;
                 isListening := isListening prev;
                 identifiedSpeaker := identifiedSpeaker prev;
                 confidence := confidence prev;
                 error := Some errorMessage |}) in
       when (onError props) (modify (emit (OnError errorMessage)))).

(** ** [stopRecognition] *)
Definition stopRecognition : M App unit :=
  run! setRecognitionState (fun prev =>
         {| isRecognizing := false; isListening := false;
            identifiedSpeaker := None; confidence := 0;
            error := error prev |}) in
  stopRecording.

Definition initialState : RecognitionState :=
  {| isRecognizing := false; isListening := false;
     identifiedSpeaker := None; confidence := 0; error := None |}.

Definition mount (db : Storage.DB) (mic : bool) : App :=
  {| eagleService := Eagle.new_EagleService; speakerStorage := db;
     recorder := Recorder.initial; enrolledProfiles := [];
     recognitionState := initialState; events := [];
     microphone := mic |}.

Fixpoint handleFrames (frames : list (list Z)) (a : App) : App :=
  match frames with
  | [] => a
  | frame :: frames' => handleFrames frames' (final (handleAudioData frame a))
  end.

End Component.

Arguments App : clear implicits.

End Recognition.
(* ===================================================================== *)
(** * Handlers that overlap                                                *)
(* ===================================================================== *)

(** [processor.onaudioprocess] calls the frame handler and does not wait
    for the promise it returns, so the handler of the next frame can start
    while this one is suspended at an [await]. The [await]s at which the
    browser can deliver another frame are those on the engine and on
    IndexedDB: [profiler.enroll], [profiler.export] and the [put] of
    [saveSpeakerProfile]. The other [await]s of the handler wait for
    functions of these sources and continue in the same turn, before any
    frame.

    A call to the engine or to the store takes effect when it is made (the
    engine and the store serve their requests in the order they get them)
    and its result reaches the caller when the call completes. The
    database has been opened by [startEnrollment] before any frame is
    handled. As everywhere in this file, the component is rendered again
    before the next event is delivered. *)

Module Async.
Import Control Types.

(** ** Computations that can be suspended *)

(** The run of a computation from a state, up to its end or to the next
    [await]: then the state it left, and what it does with the state it
    finds when it is resumed. *)
Inductive Proc (S A : Type) : Type :=
| Done (r : result A) (s : S)
| Pending (s : S) (k : S -> Proc S A).
Arguments Done {S A} r s.
Arguments Pending {S A} s k.

Definition Task (S A : Type) : Type := S -> Proc S A.

Definition ret {S A} (a : A) : Task S A := fun s => Done (Ok a) s.
Definition throw {S A} (e : Error) : Task S A := fun s => Done (Throw e) s.

Fixpoint bind_proc {S A B} (p : Proc S A) (f : A -> Task S B) : Proc S B :=
  match p with
  | Done (Ok a) s => f a s
  | Done (Throw e) s => Done (Throw e) s
  | Pending s k => Pending s (fun s' => bind_proc (k s') f)
  end.

Definition bind {S A B} (t : Task S A) (f : A -> Task S B) : Task S B :=
  fun s => bind_proc (t s) f.

Fixpoint catch_proc {S A} (p : Proc S A) (handler : Error -> Task S A)
    : Proc S A :=
  match p with
  | Done (Ok a) s => Done (Ok a) s
  | Done (Throw e) s => handler e s
  | Pending s k => Pending s (fun s' => catch_proc (k s') handler)
  end.

Definition try_catch {S A} (t : Task S A) (handler : Error -> Task S A)
    : Task S A :=
  fun s => catch_proc (t s) handler.

(** A part that runs without an [await]. *)
Definition sync {S A} (m : M S A) : Task S A :=
  fun s => let '(r, s') := m s in Done r s'.

(** [await call]: the call is made, and the caller is suspended until
    the result arrives. *)
Definition await {S A} (call : M S A) : Task S A :=
  fun s => let '(r, s') := call s in Pending s' (fun s'' => Done r s'').

Fixpoint zoom_proc {S T A} (proj : T -> S) (inj : S -> T -> T)
    (p : Proc S A) (t : T) : Proc T A :=
  match p with
  | Done r s => Done r (inj s t)
  | Pending s k =>
      Pending (inj s t) (fun t' => zoom_proc proj inj (k (proj t')) t')
  end.

Definition zoom {S T A} (proj : T -> S) (inj : S -> T -> T) (t : Task S A)
    : Task T A :=
  fun x => zoom_proc proj inj (t (proj x)) x.

(** A computation whose every [await] is resumed at once, with nothing
    in between. *)
Fixpoint force {S A} (p : Proc S A) : result A * S :=
  match p with
  | Done r s => (r, s)
  | Pending s k => force (k s)
  end.

(** A run that is suspended at most [n] times before it ends. *)
Inductive within {State A} : nat -> Proc State A -> Prop :=
| within_Done n r s : within n (Done r s)
| within_Pending n s k :
    (forall s', within n (k s')) -> within (S n) (Pending s k).

End Async.

Notation "'let*' x ':=' t 'in' k" := (Async.bind t (fun x => k))
  (at level 10, x name, t at level 100, k at level 200).
Notation "'run*' t 'in' k" := (Async.bind t (fun _ => k))
  (at level 10, t at level 100, k at level 200).

(** ** The frame handler of the enrollment, [await] by [await] *)

Module Overlap.
Import Control Types Enrollment.

Section Component.
Context {P R : Type}.
Variable engine : Eagle.Engine P R.
Variable props : Props.

Local Abbreviation App := (Enrollment.App P R).
Local Abbreviation Service := (Eagle.Service P R).

(** [enrollAudio], suspended at [await this.profiler.enroll(...)]: the
    buffer is emptied when the engine's answer has arrived. *)
Definition enrollAudio (pcmData : list Z) : Async.Task Service Eagle.EnrollResult :=
  let* initialized := Async.sync (gets Eagle.isInitialized) in
  if negb initialized then
    Async.throw "Profiler not initialized. Call initializeProfiler() first."
  else
    Async.try_catch
      (run* Async.sync
              (modify (fun s =>
                 Eagle.set_audioBuffer (Eagle.audioBuffer s ++ pcmData) s)) in
       let* buffer := Async.sync (gets Eagle.audioBuffer) in
       let* size := Async.sync (gets Eagle.minBufferSize) in
       if Z.of_nat (length buffer) <? size then
         Async.ret {| Eagle.percentage := 0;
                      Eagle.feedback := "COLLECTING_AUDIO" |}
       else
         let* handle := Async.sync (gets Eagle.profiler) in
         match handle with
         | Some p =>
             let* result := Async.await (Eagle.call_enroll engine p buffer) in
             run* Async.sync (modify (Eagle.set_audioBuffer [])) in
             Async.ret {| Eagle.percentage := Eagle.percentage result;
                          Eagle.feedback := Eagle.feedback result |}
         | None => Async.throw "Eagle profiler not initialized"
         end)
      (fun error =>
         Async.throw ("Enrollment failed: " +:+ String_of_error error)).

(** [exportProfile], suspended at [await this.profiler.export()]. *)
Definition exportProfile : Async.Task Service (list Z) :=
  let* initialized := Async.sync (gets Eagle.isInitialized) in
  if negb initialized then
    Async.throw "Profiler not initialized. Call initializeProfiler() first."
  else
    Async.try_catch
      (let* handle := Async.sync (gets Eagle.profiler) in
       match handle with
       | Some p =>
           let* profileBytes := Async.await (Eagle.call_export engine p) in
           Async.ret (Voiceprint.bytesToInt32Array profileBytes)
       | None => Async.throw "Eagle profiler not initialized"
       end)
      (fun error =>
         Async.throw ("Profile export failed: " +:+ String_of_error error)).

(** [saveSpeakerProfile], suspended until the [put] request succeeds or
    fails. *)
Definition saveSpeakerProfile (profile : SpeakerProfile)
    : Async.Task Storage.DB unit :=
  Async.await (Storage.saveSpeakerProfile profile).

Definition eagle {A} (t : Async.Task Service A) : Async.Task App A :=
  Async.zoom eagleService set_eagleService t.
Definition storage {A} (t : Async.Task Storage.DB A) : Async.Task App A :=
  Async.zoom speakerStorage set_speakerStorage t.

(** [completeEnrollment]: the clock and the random source are read when
    the export has returned. *)
Definition completeEnrollment : Async.Task App unit :=
  Async.try_catch
    (let* voiceprint := eagle exportProfile in
     let* time := Async.sync (gets now) in
     let* suffix := Async.sync (gets random) in
     let* name := Async.sync (gets speakerName) in
     let profile := make_profile time suffix name voiceprint in
     run* storage (saveSpeakerProfile profile) in
     run* Async.sync
            (setEnrollmentState (fun prev =>
               {| isEnrolling := false; isRecording := false;
                  progress := progress prev; error := error prev;
                  success := true |})) in
     run* Async.sync stopRecording in
     run* Async.sync
            (when (onEnrollmentComplete props)
               (modify (emit (OnEnrollmentComplete profile)))) in
     Async.sync (modify (emit SetTimeout_resetForm)))
    (fun errorMessage => Async.sync (fail_enrollment props errorMessage)).

(** [handleAudioData]. *)
Definition handleAudioData (audioData : list Z) : Async.Task App unit :=
  let* state := Async.sync (gets enrollmentState) in
  if negb (isEnrolling state) then Async.ret tt
  else
    Async.try_catch
      (let* result := eagle (enrollAudio audioData) in
       run* Async.sync
              (setEnrollmentState (fun prev =>
                 {| isEnrolling := isEnrolling prev;
                    isRecording := isRecording prev;
                    progress := Eagle.percentage result; error := None;
                    success := success prev |})) in
       if Qle_bool 100 (Eagle.percentage result) then completeEnrollment
       else Async.ret tt)
      (fun errorMessage => Async.sync (fail_enrollment props errorMessage)).

(** ** The events of a session *)

(** The component and the handlers that are suspended, oldest first. *)
Record World : Type := {
  app : App;
  pending : list (App -> Async.Proc App unit);
}.

Definition idle (a : App) : World := {| app := a; pending := [] |}.

(** What can happen next: the recorder delivers a frame; the call that
    the [i]-th suspended handler waits for completes; the clock advances
    and [Math.random] has another text to give. *)
Inductive Event : Type :=
| Frame (audioData : list Z)
| Completes (i : nat)
| Clock (time : Z) (suffix : string).

Definition is_clock (e : Event) : bool :=
  match e with Clock _ _ => true | _ => false end.

Definition set_clock (time : Z) (suffix : string) (a : App) : App :=
  {| eagleService := eagleService a; speakerStorage := speakerStorage a;
     recorder := recorder a; speakerName := speakerName a;
     enrollmentState := enrollmentState a; events := events a;
     now := time; random := suffix; microphone := microphone a |}.

(** A handler has run up to its end or to its next [await]. *)
Definition settle (p : Async.Proc App unit)
    (others : list (App -> Async.Proc App unit)) : World :=
  match p with
  | Async.Done _ a => {| app := a; pending := others |}
  | Async.Pending a k => {| app := a; pending := others ++ [k] |}
  end.

Definition step (e : Event) (w : World) : World :=
  match e with
  | Frame audioData => settle (handleAudioData audioData (app w)) (pending w)
  | Completes i =>
      match pending w !! i with
      | Some k => settle (k (app w)) (delete i (pending w))
      | None => w
      end
  | Clock time suffix =>
      {| app := set_clock time suffix (app w); pending := pending w |}
  end.

Definition run (events : list Event) (w : World) : World :=
  foldl (fun w e => step e w) w events.

(** The frames of a session in which every handler has ended before the
    next frame arrives: each frame is followed by the completion of the
    at most three calls its handler waits for ([enroll], [export],
    [put]). *)
Definition alone (frames : list (list Z)) : list Event :=
  flat_map (fun frame => [Frame frame; Completes 0; Completes 0; Completes 0])
    frames.

End Component.

Arguments World : clear implicits.

End Overlap.

(* ===================================================================== *)
(** * [src/app/page.tsx]: the notifications of [Home]                      *)
(* ===================================================================== *)

Module Page.
Import Control Types.

Inductive NotificationType : Type := success | error | info.

Record Notification : Type := {
  id : string;
  message : string;
  type : NotificationType;
  timestamp : Date;
}.

(** [addNotification]: the id is [Date.now().toString()], read from the
    clock; [setNotifications(prev => [notification, ...prev.slice(0, 4)])].
    The timer it arms runs [removeNotification] on that id five seconds
    later. *)
Definition addNotification (clock : Z) (message : string)
    (type : NotificationType) (prev : list Notification)
    : list Notification :=
  {| id := pretty clock; message := message; type := type;
     timestamp := clock |} :: take 4 prev.

(** [removeNotification]: [prev.filter(n => n.id !== id)]. *)
Definition removeNotification (key : string) (prev : list Notification)
    : list Notification :=
  filter (fun n => id n <> key) prev.

(** [loadEnrolledCount]: the number of stored profiles, or the count as
    it was when the load fails (the [catch] only logs). *)
Definition loadEnrolledCount (db : Storage.DB) (enrolledCount : nat) : nat :=
  match outcome (Storage.getAllSpeakerProfiles db) with
  | Ok profiles => length profiles
  | Throw _ => enrolledCount
  end.

(** [handleEnrollmentComplete] and [handleError]. *)
Definition handleEnrollmentComplete (clock : Z) (prev : list Notification)
    : list Notification :=
  addNotification clock "Speaker enrolled successfully!" success prev.

Definition handleError (clock : Z) (message : string)
    (prev : list Notification) : list Notification :=
  addNotification clock message error prev.

End Page.

(* ===================================================================== *)
(** * Engines and surroundings for the worked examples                     *)
(* ===================================================================== *)

Module Scenario.
Import Control Types Eagle.

(** An engine whose profiler counts the buffers it was given since it was
    created or last reset, whose recognizer counts the frames it was
    given, and which answers every [enroll], [export] and [process] the
    same way. It asks for no more than the service's own minimum of 16000
    samples and for frames of 512 samples. *)
Definition engine_answering (enrolled : result EnrollResult)
    (exported : result (list Z)) (scored : result (list Q))
    : Engine nat nat :=
  {| EagleProfiler_create := Ok 0%nat;
     enroll := fun n _ => (enrolled, S n);
     export := fun n => (exported, n);
     reset := fun _ => 0%nat;
     minEnrollSamples := fun _ => 0;
     Eagle_create := fun _ => Ok 0%nat;
     process := fun n _ => (scored, S n);
     frameLength := fun _ => 512%nat |}.

Definition percent (p : Q) : EnrollResult :=
  {| percentage := p; feedback := "AUDIO_OK" |}.

(** The engines of the examples: one that reports 40 percent, one that
    reports 100 percent and exports five bytes, and three on which
    [enroll], [export] and [process] throw. All score Alice 0.9 and Bob
    0.3, except the last. *)
Definition progressing : Engine nat nat :=
  engine_answering (Ok (percent 40)) (Ok [1; 2; 3; 4; 200])
    (Ok [9 # 10; 3 # 10]).
Definition completing : Engine nat nat :=
  engine_answering (Ok (percent 100)) (Ok [1; 2; 3; 4; 200])
    (Ok [9 # 10; 3 # 10]).
Definition enroll_throwing : Engine nat nat :=
  engine_answering (Throw "Invalid argument") (Ok [1; 2; 3; 4; 200])
    (Ok [9 # 10; 3 # 10]).
Definition export_throwing : Engine nat nat :=
  engine_answering (Ok (percent 100)) (Throw "Invalid state")
    (Ok [9 # 10; 3 # 10]).
Definition process_throwing : Engine nat nat :=
  engine_answering (Ok (percent 40)) (Ok [1; 2; 3; 4; 200])
    (Throw "Invalid argument").
Definition unsure : Engine nat nat :=
  engine_answering (Ok (percent 40)) (Ok [1; 2; 3; 4; 200])
    (Ok [4 # 10; 2 # 10]).

Definition second_of_audio : list Z := replicate (Z.to_nat 16000) 7.
Definition short_frame : list Z := replicate 512 7.

Definition empty_db : Storage.DB :=
  {| Storage.available := true; Storage.records := ∅ |}.

Definition both_callbacks : Enrollment.Props :=
  {| Enrollment.onEnrollmentComplete := true; Enrollment.onError := true |}.

(** The enrollment form as first rendered, with the name "Alice" typed. *)
Definition form : Enrollment.App nat nat :=
  Enrollment.set_speakerName "Alice"
    (Enrollment.mount empty_db 1700000000000 "k3j9x0q2a" true).

(** The form after "Start Enrollment", against a given engine. *)
Definition enrolling (engine : Engine nat nat) : Enrollment.App nat nat :=
  final (Enrollment.startEnrollment engine both_callbacks form).

Definition alice : SpeakerProfile :=
  {| id := "speaker_1_a"; name := "Alice"; voiceprint := [16909060; -2];
     createdAt := 1; lastUpdated := 1 |}.
Definition bob : SpeakerProfile :=
  {| id := "speaker_2_b"; name := "Bob"; voiceprint := [7];
     createdAt := 2; lastUpdated := 2 |}.

Definition two_profiles_db : Storage.DB :=
  final (Storage.saveSpeakerProfile bob
           (final (Storage.saveSpeakerProfile alice empty_db))).

Definition both_recognition_callbacks : Recognition.Props :=
  {| Recognition.onSpeakerIdentified := true; Recognition.onError := true |}.

(** The recognition panel after "Start Recognition" with Alice and Bob
    enrolled. *)
Definition recognizing (engine : Engine nat nat) : Recognition.App nat nat :=
  final (Recognition.startRecognition engine both_recognition_callbacks
           (Recognition.mount two_profiles_db true)).

(** A database that cannot be opened, a third speaker, a profile that
    takes Alice's name under another id, and the profile the form builds
    from the five exported bytes. *)
Definition closed_db : Storage.DB :=
  {| Storage.available := false; Storage.records := ∅ |}.

Definition carol : SpeakerProfile :=
  {| id := "speaker_3_c"; name := "Carol"; voiceprint := [5];
     createdAt := 3; lastUpdated := 3 |}.

Definition alice_again : SpeakerProfile :=
  {| id := "speaker_4_d"; name := "Alice"; voiceprint := [11];
     createdAt := 4; lastUpdated := 4 |}.

Definition enrolled_alice : SpeakerProfile :=
  Enrollment.make_profile 1700000000000 "k3j9x0q2a" "Alice"
    [16909060; -939524096].

(** A no-break space (U+00A0), the form after an enrollment that failed
    on the engine's [enroll] (the error is shown and the buffer still
    holds the frame), and that form with the name typed again, followed
    by a no-break space. *)
Definition nbsp : string :=
  String.string_of_list_ascii (Enrollment.utf8 160).

Definition after_failure : Enrollment.App nat nat :=
  final (Enrollment.handleAudioData enroll_throwing both_callbacks
           second_of_audio (enrolling enroll_throwing)).

Definition typed_again : Enrollment.App nat nat :=
  Enrollment.set_speakerName ("Alice" +:+ nbsp) after_failure.

(** A second frame arrives while the handler of the first waits for the
    engine's [enroll]; the clock advances between the two exports. *)
Definition overlapping : list Overlap.Event :=
  [Overlap.Frame second_of_audio; Overlap.Frame short_frame;
   Overlap.Completes 0; Overlap.Completes 0; Overlap.Completes 0;
   Overlap.Clock 1700000000040 "zz9plq0aa";
   Overlap.Completes 0; Overlap.Completes 0; Overlap.Completes 0].

(** Alice is enrolled; then Bob is, at the same reading of the clock and
    with the same random text. *)
Definition alice_enrolled : Enrollment.App nat nat :=
  Overlap.app
    (Overlap.run completing both_callbacks (Overlap.alone [second_of_audio])
       (Overlap.idle (enrolling completing))).

Definition bob_enrolled : Enrollment.App nat nat :=
  Overlap.app
    (Overlap.run completing both_callbacks (Overlap.alone [second_of_audio])
       (Overlap.idle
          (final (Enrollment.startEnrollment completing both_callbacks
                    (Enrollment.set_speakerName "Bob" alice_enrolled))))).

(** A store that holds a profile whose name ends in a no-break space. *)
Definition padded_name_db : Storage.DB :=
  final (Storage.saveSpeakerProfile
           {| id := "speaker_5_e"; name := "Alice" +:+ nbsp;
              voiceprint := [3]; createdAt := 5; lastUpdated := 5 |}
           empty_db).

End Scenario.

(* ===================================================================== *)
(** * Facts: number conversions and voiceprint packing                     *)
(* ===================================================================== *)

Module VoiceprintFacts.
Import JS Voiceprint.

Local Ltac Zify.zify_post_hook ::= Z.to_euclidean_division_equations.

Lemma ToInt32_testbit z i :
  0 <= i < 32 -> Z.testbit (ToInt32 z) i = Z.testbit z i.
Proof.
  intros Hi. unfold ToInt32. cbv zeta.
  rewrite <- (Z.mod_pow2_bits_low z 32 i) by lia.
  destruct (z mod 2 ^ 32 <? 2 ^ 31); [reflexivity|].
  rewrite <- (Z.mod_pow2_bits_low (z mod 2 ^ 32 - 2 ^ 32) 32 i) by lia.
  f_equal.
  replace (z mod 2 ^ 32 - 2 ^ 32) with (z mod 2 ^ 32 + (-1) * 2 ^ 32) by lia.
  rewrite Z.mod_add by lia. rewrite Z.mod_mod by lia. reflexivity.
Qed.

Lemma ToInt32_range z : is_int32 (ToInt32 z).
Proof.
  unfold is_int32, ToInt32. cbv zeta.
  pose proof (Z.mod_pos_bound z (2 ^ 32) ltac:(lia)).
  destruct (Z.ltb_spec (z mod 2 ^ 32) (2 ^ 31)); lia.
Qed.

Lemma ToInt32_id z : is_int32 z -> ToInt32 z = z.
Proof.
  unfold is_int32, ToInt32. cbv zeta. intros Hz.
  destruct (Z.ltb_spec (z mod 2 ^ 32) (2 ^ 31)); lia.
Qed.

Lemma ToUint32_testbit z i :
  0 <= i -> Z.testbit (ToUint32 z) i = (i <? 32) && Z.testbit z i.
Proof.
  intros Hi. unfold ToUint32. rewrite Z.testbit_mod_pow2 by lia. reflexivity.
Qed.

Lemma ToUint8_testbit z i :
  0 <= i -> Z.testbit (ToUint8 z) i = (i <? 8) && Z.testbit z i.
Proof.
  intros Hi. unfold ToUint8. rewrite Z.testbit_mod_pow2 by lia. reflexivity.
Qed.

Lemma uint8_testbit b i :
  is_uint8 b -> 0 <= i -> Z.testbit b i = (i <? 8) && Z.testbit b i.
Proof.
  intros Hb Hi. rewrite <- ToUint8_testbit by lia.
  unfold ToUint8. rewrite Z.mod_small; [reflexivity|]. unfold is_uint8 in Hb. lia.
Qed.

Lemma uint8_testbit_high b i : is_uint8 b -> 8 <= i -> Z.testbit b i = false.
Proof.
  intros Hb Hi. rewrite uint8_testbit by (assumption || lia).
  destruct (Z.ltb_spec i 8); [lia | reflexivity].
Qed.

Lemma testbit_255 i : 0 <= i -> Z.testbit 255 i = (i <? 8).
Proof.
  intros Hi. change 255 with (Z.ones 8).
  destruct (Z.ltb_spec i 8).
  - apply Z.ones_spec_low. lia.
  - apply Z.ones_spec_high. lia.
Qed.

(** Bit [j] of a word shifted left by [s] inside the 32-bit window. *)
Lemma shl_testbit b s j :
  0 <= s < 32 -> 0 <= j < 32 ->
  Z.testbit (shl b s) j = Z.testbit b (j - s).
Proof.
  intros Hs Hj. unfold shl.
  rewrite ToInt32_testbit by lia.
  rewrite Z.mod_small by lia.
  rewrite Z.shiftl_spec by lia.
  destruct (Z.lt_ge_cases (j - s) 0).
  - rewrite !Z.testbit_neg_r by lia. reflexivity.
  - apply ToInt32_testbit. lia.
Qed.

Lemma bor_testbit a b j :
  0 <= j < 32 -> Z.testbit (bor a b) j = Z.testbit a j || Z.testbit b j.
Proof.
  intros Hj. unfold bor.
  rewrite ToInt32_testbit, Z.lor_spec, !ToInt32_testbit by lia. reflexivity.
Qed.

Lemma band_testbit a b j :
  0 <= j < 32 -> Z.testbit (band a b) j = Z.testbit a j && Z.testbit b j.
Proof.
  intros Hj. unfold band.
  rewrite ToInt32_testbit, Z.land_spec, !ToInt32_testbit by lia. reflexivity.
Qed.

Lemma ushr_testbit w s i :
  0 <= s < 32 -> 0 <= i ->
  Z.testbit (ushr w s) i = (i + s <? 32) && Z.testbit w (i + s).
Proof.
  intros Hs Hi. unfold ushr.
  rewrite Z.mod_small by lia.
  rewrite Z.shiftr_spec by lia.
  apply ToUint32_testbit. lia.
Qed.

Lemma pack_word_testbit b0 b1 b2 b3 j :
  0 <= j < 32 ->
  Z.testbit (pack_word b0 b1 b2 b3) j =
    Z.testbit b0 (j - 24) || Z.testbit b1 (j - 16)
    || Z.testbit b2 (j - 8) || Z.testbit b3 j.
Proof.
  intros Hj. unfold pack_word.
  rewrite !bor_testbit, !shl_testbit by lia. reflexivity.
Qed.

(** The byte the recognizer loop reads at bit offset [s] of a word. *)
Lemma extract_testbit w s i :
  0 <= s <= 24 -> 0 <= i ->
  Z.testbit (ToUint8 (band (ushr w s) 255)) i =
    (i <? 8) && Z.testbit w (i + s).
Proof.
  intros Hs Hi. rewrite ToUint8_testbit by lia.
  destruct (Z.ltb_spec i 8) as [Hlt|Hge]; [|reflexivity]. cbn [andb].
  rewrite band_testbit, ushr_testbit, testbit_255 by lia.
  destruct (Z.ltb_spec (i + s) 32); [|lia].
  destruct (Z.ltb_spec i 8); [|lia].
  cbn [andb]. apply andb_true_r.
Qed.

Lemma extract0_testbit w i :
  0 <= i ->
  Z.testbit (ToUint8 (band w 255)) i = (i <? 8) && Z.testbit w i.
Proof.
  intros Hi. rewrite ToUint8_testbit by lia.
  destruct (Z.ltb_spec i 8) as [Hlt|Hge]; [|reflexivity]. cbn [andb].
  rewrite band_testbit, testbit_255 by lia.
  destruct (Z.ltb_spec i 8); [|lia]. apply andb_true_r.
Qed.

Local Ltac byte_bits Hb0 Hb1 Hb2 Hb3 :=
  apply Z.bits_inj'; intros i Hi;
  first [rewrite extract_testbit by lia | rewrite extract0_testbit by lia];
  destruct (Z.ltb_spec i 8) as [Hlt|Hge]; cbn [andb];
  [ rewrite ToInt32_testbit, pack_word_testbit by lia;
    repeat match goal with
    | |- context [Z.testbit ?b ?k] =>
        first [ rewrite (Z.testbit_neg_r b k) by lia
              | rewrite (uint8_testbit_high b k) by (assumption || lia) ]
    end;
    cbn [orb]; rewrite ?orb_false_r; f_equal; lia
  | symmetry;
    first [ apply (uint8_testbit_high _ _ Hb0); lia
          | apply (uint8_testbit_high _ _ Hb1); lia
          | apply (uint8_testbit_high _ _ Hb2); lia
          | apply (uint8_testbit_high _ _ Hb3); lia ] ].

Lemma unpack_pack_word b0 b1 b2 b3 :
  is_uint8 b0 -> is_uint8 b1 -> is_uint8 b2 -> is_uint8 b3 ->
  let w := ToInt32 (pack_word b0 b1 b2 b3) in
  ToUint8 (band (ushr w 24) 255) = b0 /\
  ToUint8 (band (ushr w 16) 255) = b1 /\
  ToUint8 (band (ushr w 8) 255) = b2 /\
  ToUint8 (band w 255) = b3.
Proof.
  intros Hb0 Hb1 Hb2 Hb3 w. subst w.
  repeat split; byte_bits Hb0 Hb1 Hb2 Hb3.
Qed.


(** ** The loops, as maps over the word indices *)

Lemma take_S_insert {A} (l : list A) (i : nat) (x : A) :
  (i < length l)%nat -> take (S i) (<[i := x]> l) = take i l ++ [x].
Proof.
  intros Hi.
  rewrite (take_S_r _ _ x) by (apply list_lookup_insert_eq; exact Hi).
  rewrite take_insert_ge by lia. reflexivity.
Qed.

Lemma exportProfile_loop_spec (bs : list Z) (fuel k : nat) (arr : list Z) :
  length arr = ceil_div4 (length bs) ->
  (ceil_div4 (length bs) <= fuel + k)%nat ->
  (k <= ceil_div4 (length bs))%nat ->
  exportProfile_loop fuel bs (4 * k) arr =
    take k arr ++ (word_at bs <$> seq k (ceil_div4 (length bs) - k)).
Proof.
  revert k arr. induction fuel as [|fuel IH]; intros k arr Hlen Hfuel Hk.
  - cbn [exportProfile_loop].
    replace (ceil_div4 (length bs) - k)%nat with 0%nat by lia.
    cbn. rewrite app_nil_r, take_ge by lia. reflexivity.
  - cbn [exportProfile_loop]. unfold ceil_div4 in *.
    destruct (Nat.ltb_spec (4 * k) (length bs)) as [Hlt|Hge].
    + replace (4 * k + 4)%nat with (4 * S k)%nat by lia.
      rewrite IH by (rewrite ?length_insert; lia).
      replace (floor_div4 (4 * k)) with k by (unfold floor_div4; lia).
      rewrite take_S_insert by lia.
      replace ((length bs + 3) / 4 - k)%nat
        with (S ((length bs + 3) / 4 - S k)) by lia.
      cbn [seq fmap list_fmap]. rewrite <- app_assoc.
      cbn [app]. apply (f_equal (app (take k arr))).
      apply (f_equal2 cons); [unfold word_at; reflexivity | reflexivity].
    + replace ((length bs + 3) / 4 - k)%nat with 0%nat by lia.
      cbn. rewrite app_nil_r, take_ge by lia. reflexivity.
Qed.

Lemma bytesToInt32Array_spec (bs : list Z) :
  bytesToInt32Array bs = word_at bs <$> seq 0 (ceil_div4 (length bs)).
Proof.
  unfold bytesToInt32Array.
  rewrite (exportProfile_loop_spec bs (length bs) 0).
  - cbn [take app]. rewrite Nat.sub_0_r. reflexivity.
  - apply length_replicate.
  - unfold ceil_div4. lia.
  - lia.
Qed.

Lemma unpack_store_spec (ws : list Z) (i : nat) (out : list Z) (w : Z) :
  ws !! i = Some w -> (4 * i + 4 <= length out)%nat ->
  take (4 * S i) (unpack_store ws i out) = take (4 * i) out ++ bytes_of_word w.
Proof.
  intros Hw Hlen. unfold unpack_store. rewrite Hw. cbn [default].
  replace (4 * S i)%nat with (S (i * 4 + 3)) by lia.
  rewrite take_S_insert by (rewrite !length_insert; lia).
  replace (i * 4 + 3)%nat with (S (i * 4 + 2)) at 1 by lia.
  rewrite take_S_insert by (rewrite !length_insert; lia).
  replace (i * 4 + 2)%nat with (S (i * 4 + 1)) at 1 by lia.
  rewrite take_S_insert by (rewrite !length_insert; lia).
  replace (i * 4 + 1)%nat with (S (i * 4)) at 1 by lia.
  rewrite take_S_insert by lia.
  replace (i * 4)%nat with (4 * i)%nat by lia.
  rewrite <- !app_assoc. reflexivity.
Qed.

Lemma unpack_store_length ws i out :
  length (unpack_store ws i out) = length out.
Proof. unfold unpack_store. rewrite !length_insert. reflexivity. Qed.

Lemma initializeRecognizer_loop_spec (ws : list Z) (n i : nat) (out : list Z) :
  (i + n = length ws)%nat -> length out = (length ws * 4)%nat ->
  initializeRecognizer_loop n ws i out =
    take (4 * i) out ++ flat_map bytes_of_word (drop i ws).
Proof.
  revert i out. induction n as [|n IH]; intros i out Hin Hlen.
  - cbn [initializeRecognizer_loop].
    rewrite drop_ge by lia. cbn. rewrite app_nil_r, take_ge by lia. reflexivity.
  - cbn [initializeRecognizer_loop].
    destruct (ws !! i) as [w|] eqn:Hw;
      [|apply lookup_ge_None in Hw; lia].
    rewrite IH by (rewrite ?unpack_store_length; lia).
    rewrite (unpack_store_spec ws i out w Hw) by lia.
    rewrite (drop_S ws w i Hw). cbn [flat_map].
    rewrite <- app_assoc. reflexivity.
Qed.

Lemma int32ArrayToBytes_spec (ws : list Z) :
  int32ArrayToBytes ws = flat_map bytes_of_word ws.
Proof.
  unfold int32ArrayToBytes.
  rewrite (initializeRecognizer_loop_spec ws (length ws) 0).
  - reflexivity.
  - lia.
  - apply length_replicate.
Qed.

(** ** Composition of the two conversions *)

Lemma byte_or_0_uint8 (bs : list Z) (i : nat) :
  Forall is_uint8 bs -> is_uint8 (byte_or_0 bs i).
Proof.
  intros Hbs. unfold byte_or_0.
  destruct (bs !! i) as [b|] eqn:Hb; cbn [default].
  - eapply Forall_lookup_1; eassumption.
  - unfold is_uint8. lia.
Qed.

Lemma bytes_of_word_at (bs : list Z) (k : nat) :
  Forall is_uint8 bs ->
  bytes_of_word (word_at bs k) =
    byte_or_0 bs <$> [4 * k; 4 * k + 1; 4 * k + 2; 4 * k + 3]%nat.
Proof.
  intros Hbs. unfold bytes_of_word, word_at.
  destruct (unpack_pack_word (byte_or_0 bs (4 * k)) (byte_or_0 bs (4 * k + 1))
              (byte_or_0 bs (4 * k + 2)) (byte_or_0 bs (4 * k + 3)))
    as (E0 & E1 & E2 & E3); try (apply byte_or_0_uint8; assumption).
  cbv zeta in E0, E1, E2, E3. rewrite E0, E1, E2, E3. reflexivity.
Qed.

Lemma flat_map_quads {A} (g : nat -> A) (a n : nat) :
  flat_map (fun k => g <$> [4 * k; 4 * k + 1; 4 * k + 2; 4 * k + 3]%nat)
           (seq a n)
  = g <$> seq (4 * a) (4 * n).
Proof.
  revert a. induction n as [|n IH]; intros a; [reflexivity|].
  replace (4 * S n)%nat with (S (S (S (S (4 * n))))) by lia.
  cbn [seq flat_map fmap list_fmap app]. rewrite IH.
  replace (4 * a + 1)%nat with (S (4 * a)) by lia.
  replace (4 * a + 2)%nat with (S (S (4 * a))) by lia.
  replace (4 * a + 3)%nat with (S (S (S (4 * a)))) by lia.
  replace (4 * S a)%nat with (S (S (S (S (4 * a))))) by lia.
  reflexivity.
Qed.

Lemma byte_or_0_seq (bs : list Z) (p : nat) :
  byte_or_0 bs <$> seq 0 (length bs + p) = bs ++ replicate p 0.
Proof.
  apply list_eq. intros i.
  rewrite list_lookup_fmap.
  destruct (Nat.lt_ge_cases i (length bs + p)) as [Hlt|Hge].
  - rewrite lookup_seq_lt by lia. cbn. unfold byte_or_0.
    destruct (Nat.lt_ge_cases i (length bs)) as [Hi|Hi].
    + rewrite lookup_app_l by lia.
      destruct (lookup_lt_is_Some_2 bs i Hi) as [b Hb]. rewrite Hb. reflexivity.
    + rewrite lookup_app_r by lia.
      rewrite (lookup_ge_None_2 bs i) by lia. cbn [default].
      rewrite lookup_replicate_2 by lia. reflexivity.
  - rewrite lookup_seq_ge by lia. cbn.
    symmetry. apply lookup_ge_None_2. rewrite length_app, length_replicate. lia.
Qed.

Lemma padding_spec (n : nat) : (4 * ceil_div4 n = n + padding n)%nat.
Proof. unfold ceil_div4, padding. lia. Qed.

Lemma unpack_pack_padded (bs : list Z) :
  Forall is_uint8 bs ->
  int32ArrayToBytes (bytesToInt32Array bs) =
    bs ++ replicate (padding (length bs)) 0.
Proof.
  intros Hbs.
  rewrite int32ArrayToBytes_spec, bytesToInt32Array_spec.
  rewrite <- byte_or_0_seq, <- padding_spec.
  pose proof (flat_map_quads (byte_or_0 bs) 0 (ceil_div4 (length bs))) as Hq.
  rewrite Nat.mul_0_r in Hq. rewrite <- Hq. clear Hq.
  generalize (seq 0 (ceil_div4 (length bs))) as ks.
  induction ks as [|k ks IH]; [reflexivity|].
  cbn [fmap list_fmap flat_map]. fold (fmap (M:=list) (word_at bs) ks).
  rewrite IH, bytes_of_word_at by assumption. reflexivity.
Qed.


(** ** The other composition: unpacking then packing *)

Lemma ToInt32_ext x y :
  (forall i, 0 <= i < 32 -> Z.testbit x i = Z.testbit y i) ->
  ToInt32 x = ToInt32 y.
Proof.
  intros Hbits. unfold ToInt32.
  replace (x mod 2 ^ 32) with (y mod 2 ^ 32); [reflexivity|].
  apply Z.bits_inj'. intros i Hi.
  rewrite !Z.testbit_mod_pow2 by lia.
  destruct (Z.ltb_spec i 32); [|reflexivity].
  cbn [andb]. symmetry. apply Hbits. lia.
Qed.

Lemma pack_unpack_word (w : Z) :
  is_int32 w ->
  ToInt32 (pack_word (ToUint8 (band (ushr w 24) 255))
                     (ToUint8 (band (ushr w 16) 255))
                     (ToUint8 (band (ushr w 8) 255))
                     (ToUint8 (band w 255))) = w.
Proof.
  intros Hw. rewrite <- (ToInt32_id w Hw) at 5.
  apply ToInt32_ext. intros i Hi.
  rewrite pack_word_testbit by lia.
  destruct (Z.lt_ge_cases i 8) as [H8|H8];
    [|destruct (Z.lt_ge_cases i 16) as [H16|H16];
      [|destruct (Z.lt_ge_cases i 24) as [H24|H24]]];
  repeat match goal with
  | |- context [Z.testbit (ToUint8 (band (ushr ?v ?s) 255)) ?k] =>
      first [ rewrite (Z.testbit_neg_r (ToUint8 (band (ushr v s) 255)) k) by lia
            | rewrite (extract_testbit v s k) by lia ]
  | |- context [Z.testbit (ToUint8 (band ?v 255)) ?k] =>
      rewrite (extract0_testbit v k) by lia
  end;
  repeat match goal with
  | |- context [?a <? 8] => destruct (Z.ltb_spec a 8); [|lia]
  | |- context [?a <? 8] => destruct (Z.ltb_spec a 8); [lia|]
  end;
  cbn [andb orb]; rewrite ?orb_false_r; f_equal; lia.
Qed.

Lemma flat_map_bytes_length (ws : list Z) :
  length (flat_map bytes_of_word ws) = (4 * length ws)%nat.
Proof.
  induction ws as [|w ws IH]; [reflexivity|].
  cbn [flat_map]. rewrite length_app, IH. cbn [bytes_of_word length]. lia.
Qed.

Lemma flat_map_bytes_lookup (ws : list Z) (k j : nat) (w : Z) :
  ws !! k = Some w -> (j < 4)%nat ->
  flat_map bytes_of_word ws !! (4 * k + j)%nat = bytes_of_word w !! j.
Proof.
  revert k. induction ws as [|w0 ws IH]; intros k Hk Hj; [discriminate|].
  cbn [flat_map]. destruct k as [|k].
  - injection Hk as ->. rewrite lookup_app_l by (cbn; lia). reflexivity.
  - rewrite lookup_app_r by (cbn; lia).
    replace (4 * S k + j - length (bytes_of_word w0))%nat
      with (4 * k + j)%nat by (cbn; lia).
    apply IH; assumption.
Qed.

Lemma word_at_flat_map (ws : list Z) (k : nat) (w : Z) :
  is_int32 w -> ws !! k = Some w ->
  word_at (flat_map bytes_of_word ws) k = w.
Proof.
  intros Hw Hk. unfold word_at, byte_or_0.
  rewrite <- (Nat.add_0_r (4 * k)) at 1.
  rewrite !(flat_map_bytes_lookup ws k _ w Hk) by lia.
  cbn [bytes_of_word lookup list_lookup default].
  apply pack_unpack_word. exact Hw.
Qed.

Lemma pack_unpack (ws : list Z) :
  Forall is_int32 ws -> bytesToInt32Array (int32ArrayToBytes ws) = ws.
Proof.
  intros Hws.
  rewrite int32ArrayToBytes_spec, bytesToInt32Array_spec, flat_map_bytes_length.
  replace (ceil_div4 (4 * length ws)) with (length ws)
    by (unfold ceil_div4; lia).
  apply list_eq. intros k. rewrite list_lookup_fmap.
  destruct (ws !! k) as [w|] eqn:Hk.
  - rewrite lookup_seq_lt by (apply lookup_lt_Some in Hk; lia).
    cbn. f_equal. apply word_at_flat_map; [|exact Hk].
    eapply Forall_lookup_1; eassumption.
  - rewrite lookup_seq_ge by (apply lookup_ge_None in Hk; lia). reflexivity.
Qed.

(** C10. The byte packing of [exportProfile] and the unpacking of
    [initializeRecognizer] are inverse to each other: unpacking the packed
    form of a byte sequence gives the bytes back, followed by the zero
    bytes that complete the last word (none when the length is a multiple
    of four), and packing the unpacked form of an [Int32Array] gives the
    array back. *)
Theorem voiceprint_pack_unpack_inverse (profileBytes int32Array : list Z) :
  Forall is_uint8 profileBytes -> Forall is_int32 int32Array ->
  int32ArrayToBytes (bytesToInt32Array profileBytes) =
    profileBytes ++ replicate (padding (length profileBytes)) 0
  /\ ((length profileBytes mod 4 = 0)%nat ->
      int32ArrayToBytes (bytesToInt32Array profileBytes) = profileBytes)
  /\ ((length profileBytes mod 4 <> 0)%nat ->
      (1 <= padding (length profileBytes) <= 3)%nat)
  /\ bytesToInt32Array (int32ArrayToBytes int32Array) = int32Array.
Proof.
  intros Hbs Hws. split; [|split; [|split]].
  - apply unpack_pack_padded. exact Hbs.
  - intros Hmod. rewrite unpack_pack_padded by exact Hbs.
    unfold padding. rewrite Hmod. cbn. apply app_nil_r.
  - intros Hmod. unfold padding. lia.
  - apply pack_unpack. exact Hws.
Qed.

Lemma voiceprint_pack_unpack_inverse_witness :
  int32ArrayToBytes (bytesToInt32Array [1; 2; 3; 4; 200]) =
    [1; 2; 3; 4; 200; 0; 0; 0]
  /\ bytesToInt32Array (int32ArrayToBytes [16909060; -939524096]) =
    [16909060; -939524096].
Proof.
  assert (Hb : Forall is_uint8 [1; 2; 3; 4; 200])
    by (repeat first [apply Forall_nil_2
                     | apply Forall_cons_2; [unfold is_uint8; lia|]]).
  assert (Hw : Forall is_int32 [16909060; -939524096])
    by (repeat first [apply Forall_nil_2
                     | apply Forall_cons_2; [unfold is_int32; lia|]]).
  destruct (voiceprint_pack_unpack_inverse _ _ Hb Hw) as (H1 & _ & _ & H4).
  split; [exact H1 | exact H4].
Defined.

Example bytesToInt32Array_5 :
  bytesToInt32Array [1; 2; 3; 4; 200] = [16909060; -939524096].
Proof. vm_compute. reflexivity. Qed.

End VoiceprintFacts.

(* ===================================================================== *)
(** * Facts: sample conversion                                             *)
(* ===================================================================== *)

Module RecorderFacts.
Import JS Recorder.

Local Ltac Zify.zify_post_hook ::= Z.to_euclidean_division_equations.

Lemma ToInt16_id z : is_int16 z -> ToInt16 z = z.
Proof.
  unfold is_int16, ToInt16. cbv zeta. intros Hz.
  destruct (Z.ltb_spec (z mod 2 ^ 16) (2 ^ 15)); lia.
Qed.

Lemma ToInt16_range z : is_int16 (ToInt16 z).
Proof.
  unfold is_int16, ToInt16. cbv zeta.
  destruct (Z.ltb_spec (z mod 2 ^ 16) (2 ^ 15)); lia.
Qed.

Lemma truncate_bounds (q : Q) (lo hi : Z) :
  lo <= 0 <= hi -> (inject_Z lo <= q <= inject_Z hi)%Q ->
  lo <= truncate q <= hi.
Proof.
  intros Hz [Hlo Hhi]. unfold truncate, Qle, inject_Z in *. cbn in Hlo, Hhi.
  destruct q as [n d]. cbn in *. nia.
Qed.

(** The clamped sample is [NaN] or a rational of [[-1, 1]]. *)
Lemma clamp_cases (input : number) :
  (input = NaN /\ clamp input = NaN) \/
  (exists c, clamp input = Finite c /\ (-1 <= c <= 1)%Q).
Proof.
  destruct input as [|[|]|q]; cbn.
  - left. split; reflexivity.
  - right. exists (-1)%Q. split; [reflexivity|]. split; discriminate.
  - right. exists 1%Q. split; [reflexivity|]. split; discriminate.
  - right. unfold clamp, Math_max, Math_min, lt.
    destruct (Qle_bool 1 q) eqn:H1; cbn.
    + exists 1%Q. split; [reflexivity|]. split; discriminate.
    + destruct (Qle_bool q (-1)) eqn:H2; cbn.
      * exists (-1)%Q. split; [reflexivity|]. split; discriminate.
      * exists q. split; [reflexivity|].
        assert (~ (1 <= q)%Q) by (rewrite <- Qle_bool_iff; congruence).
        assert (~ (q <= -1)%Q) by (rewrite <- Qle_bool_iff; congruence).
        split; lra.
Qed.





Example convert_sample_half :
  convert_sample (Finite (1 # 2)) = 16383
  /\ convert_sample (Finite (- (1 # 2))) = -16384
  /\ convert_sample (Finite 7) = 32767
  /\ convert_sample (Finite (-7)) = -32768
  /\ convert_sample (Infinity true) = -32768
  /\ convert_sample NaN = 0.
Proof. repeat split; vm_compute; reflexivity. Qed.

End RecorderFacts.

(* ===================================================================== *)
(** * Facts: [EagleService]                                                *)
(* ===================================================================== *)

Module EagleFacts.
Import JS Control Types Eagle.

Section WithEngine.
Context {P R : Type}.
Variable engine : Engine P R.

Local Ltac run_monad :=
  unfold bind, try_catch, gets, modify, ret, throw, when, outcome, final;
  cbn [fst snd].

(** ** [enrollAudio], path by path *)

Lemma enrollAudio_not_initialized (pcmData : list Z) (s : Service P R) :
  isInitialized s = false ->
  enrollAudio engine pcmData s =
    (Throw "Profiler not initialized. Call initializeProfiler() first.", s).
Proof.
  intros Hinit. unfold enrollAudio. run_monad. rewrite Hinit. reflexivity.
Qed.

Lemma enrollAudio_collecting (pcmData : list Z) (s : Service P R) :
  isInitialized s = true ->
  Z.of_nat (length (audioBuffer s ++ pcmData)) < minBufferSize s ->
  enrollAudio engine pcmData s =
    (Ok {| percentage := 0; feedback := "COLLECTING_AUDIO" |},
     set_audioBuffer (audioBuffer s ++ pcmData) s).
Proof.
  intros Hinit Hlt. unfold enrollAudio. run_monad. rewrite Hinit.
  cbn [negb set_audioBuffer audioBuffer minBufferSize].
  destruct (Z.ltb_spec (Z.of_nat (length (audioBuffer s ++ pcmData)))
              (minBufferSize s)); [reflexivity | lia].
Qed.

Lemma enrollAudio_forwarded (pcmData : list Z) (s : Service P R) (p : P) :
  isInitialized s = true ->
  minBufferSize s <= Z.of_nat (length (audioBuffer s ++ pcmData)) ->
  profiler s = Some p ->
  let buffer := audioBuffer s ++ pcmData in
  let s1 := set_profiler (Some (snd (enroll engine p buffer)))
              (log_call (CallEnroll buffer) (set_audioBuffer buffer s)) in
  enrollAudio engine pcmData s =
    match fst (enroll engine p buffer) with
    | Ok result =>
        (Ok {| percentage := percentage result; feedback := feedback result |},
         set_audioBuffer [] s1)
    | Throw error =>
        (Throw ("Enrollment failed: " +:+ String_of_error error), s1)
    end.
Proof.
  intros Hinit Hge Hp. unfold enrollAudio. run_monad. rewrite Hinit.
  cbn [negb set_audioBuffer audioBuffer minBufferSize profiler].
  destruct (Z.ltb_spec (Z.of_nat (length (audioBuffer s ++ pcmData)))
              (minBufferSize s)); [lia|].
  cbn [profiler set_audioBuffer]. rewrite Hp. unfold call_enroll.
  destruct (enroll engine p (audioBuffer s ++ pcmData)) as [[result|error] p'];
    reflexivity.
Qed.

Lemma enrollAudio_no_profiler (pcmData : list Z) (s : Service P R) :
  isInitialized s = true ->
  minBufferSize s <= Z.of_nat (length (audioBuffer s ++ pcmData)) ->
  profiler s = None ->
  enrollAudio engine pcmData s =
    (Throw "Enrollment failed: Error: Eagle profiler not initialized",
     set_audioBuffer (audioBuffer s ++ pcmData) s).
Proof.
  intros Hinit Hge Hp. unfold enrollAudio. run_monad. rewrite Hinit.
  cbn [negb set_audioBuffer audioBuffer minBufferSize profiler].
  destruct (Z.ltb_spec (Z.of_nat (length (audioBuffer s ++ pcmData)))
              (minBufferSize s)); [lia|].
  cbn [profiler set_audioBuffer]. rewrite Hp. reflexivity.
Qed.

(** A percentage of 100 or more only comes from the engine: the service
    was initialized, held a profiler, and still does. *)
Lemma enrollAudio_Ok_inv (pcmData : list Z) (s s1 : Service P R)
    (result : EnrollResult) :
  enrollAudio engine pcmData s = (Ok result, s1) ->
  isInitialized s1 = true /\ enrolledProfiles s1 = enrolledProfiles s
  /\ ((percentage result = 0%Q /\ calls s1 = calls s)
      \/ (exists p', profiler s1 = Some p' /\ audioBuffer s1 = []
          /\ calls s1 = calls s ++ [CallEnroll (audioBuffer s ++ pcmData)])).
Proof.
  intros Hrun.
  destruct (isInitialized s) eqn:Hinit;
    [|rewrite enrollAudio_not_initialized in Hrun by assumption; discriminate].
  destruct (Z.lt_ge_cases (Z.of_nat (length (audioBuffer s ++ pcmData)))
              (minBufferSize s)) as [Hlt|Hge].
  - rewrite enrollAudio_collecting in Hrun by assumption.
    injection Hrun as <- <-. cbn. auto.
  - destruct (profiler s) as [p|] eqn:Hp.
    + rewrite (enrollAudio_forwarded _ _ p) in Hrun by assumption.
      destruct (fst (enroll engine p (audioBuffer s ++ pcmData)));
        [|discriminate].
      injection Hrun as <- <-. cbn. split; [assumption|]. split; [reflexivity|].
      right. eexists. repeat split.
    + rewrite enrollAudio_no_profiler in Hrun by assumption. discriminate.
Qed.

(** ** [exportProfile] *)

Lemma exportProfile_ready (s : Service P R) (p : P) :
  isInitialized s = true -> profiler s = Some p ->
  let s1 := set_profiler (Some (snd (export engine p))) (log_call CallExport s) in
  exportProfile engine s =
    match fst (export engine p) with
    | Ok profileBytes => (Ok (Voiceprint.bytesToInt32Array profileBytes), s1)
    | Throw error =>
        (Throw ("Profile export failed: " +:+ String_of_error error), s1)
    end.
Proof.
  intros Hinit Hp. unfold exportProfile. run_monad. rewrite Hinit.
  cbn [negb]. rewrite Hp. unfold call_export.
  destruct (export engine p) as [[bytes|error] p']; reflexivity.
Qed.

(** ** [recognizeAudio] *)

Lemma recognizeAudio_ready (pcmData : list Z) (s : Service P R) (r : R) :
  isInitialized s = true -> recognizer s = Some r ->
  let frame := adjust_frame (expectedFrameLength engine r) pcmData in
  let s1 := set_recognizer (Some (snd (process engine r frame)))
              (log_call (CallProcess frame) s) in
  recognizeAudio engine pcmData s =
    match fst (process engine r frame) with
    | Ok scores => (Ok (best_match scores), s1)
    | Throw error =>
        (Throw ("Recognition failed: " +:+ String_of_error error), s1)
    end.
Proof.
  intros Hinit Hr. unfold recognizeAudio. run_monad. rewrite Hinit.
  cbn [negb]. rewrite Hr. unfold call_process.
  destruct (process engine r _) as [[scores|error] r']; reflexivity.
Qed.

Lemma recognizeAudio_not_ready (pcmData : list Z) (s : Service P R) :
  isInitialized s = false \/ recognizer s = None ->
  exists error, recognizeAudio engine pcmData s = (Throw error, s).
Proof.
  intros Hnot. unfold recognizeAudio. run_monad.
  destruct (isInitialized s); cbn [negb]; [|eauto].
  destruct Hnot as [Hnot|Hnot]; [discriminate|]. rewrite Hnot. eauto.
Qed.

(** ** The frame handed to the engine *)

Lemma adjust_frame_length (expected : nat) (pcmData : list Z) :
  length (adjust_frame expected pcmData) = expected.
Proof.
  unfold adjust_frame.
  destruct (Nat.eqb_spec (length pcmData) expected) as [Heq|Hne]; [exact Heq|].
  destruct (Nat.ltb_spec expected (length pcmData)) as [Hlt|Hge].
  - rewrite length_take. lia.
  - rewrite length_app, length_replicate. lia.
Qed.

Lemma adjust_frame_shape (expected : nat) (pcmData : list Z) :
  adjust_frame expected pcmData =
    take expected pcmData ++ replicate (expected - length pcmData) 0.
Proof.
  unfold adjust_frame.
  destruct (Nat.eqb_spec (length pcmData) expected) as [Heq|Hne].
  - rewrite take_ge by lia. replace (expected - length pcmData)%nat with 0%nat by lia.
    cbn. symmetry. apply app_nil_r.
  - destruct (Nat.ltb_spec expected (length pcmData)) as [Hlt|Hge].
    + replace (expected - length pcmData)%nat with 0%nat by lia.
      cbn. symmetry. apply app_nil_r.
    + rewrite take_ge by lia. reflexivity.
Qed.

(** C5. Whatever the length of the frame delivered during recognition,
    [recognizeAudio] makes one call to the engine's [process], with a
    frame of exactly the expected length (the recognizer's [frameLength],
    512 when the property is missing): the delivered frame itself when the
    lengths agree, its prefix when it is longer, and the frame followed by
    zeros when it is shorter. The adjustment cannot throw: the call throws
    exactly when [process] does. *)
Theorem recognizeAudio_frame_length (pcmData : list Z) (s : Service P R)
    (r : R) :
  isInitialized s = true -> recognizer s = Some r ->
  let expected := expectedFrameLength engine r in
  let frame := adjust_frame expected pcmData in
  let run := recognizeAudio engine pcmData s in
  calls (final run) = calls s ++ [CallProcess frame]
  /\ length frame = expected
  /\ (frameLength engine r <> 0%nat -> expected = frameLength engine r)
  /\ (length pcmData = expected -> frame = pcmData)
  /\ ((expected < length pcmData)%nat -> frame = take expected pcmData)
  /\ ((length pcmData < expected)%nat ->
      frame = pcmData ++ replicate (expected - length pcmData) 0)
  /\ is_Throw (outcome run) = is_Throw (fst (process engine r frame)).
Proof.
  intros Hinit Hr expected frame run. subst run.
  rewrite (recognizeAudio_ready pcmData s r Hinit Hr). fold expected. fold frame.
  repeat split.
  - destruct (fst (process engine r frame)); reflexivity.
  - apply adjust_frame_length.
  - intros Hne. unfold expected, expectedFrameLength.
    destruct (Nat.eqb_spec (frameLength engine r) 0); [contradiction|reflexivity].
  - intros Heq. unfold frame, adjust_frame.
    destruct (Nat.eqb_spec (length pcmData) expected); [reflexivity|contradiction].
  - intros Hlt. unfold frame, adjust_frame.
    destruct (Nat.eqb_spec (length pcmData) expected); [lia|].
    destruct (Nat.ltb_spec expected (length pcmData)); [reflexivity|lia].
  - intros Hlt. unfold frame, adjust_frame.
    destruct (Nat.eqb_spec (length pcmData) expected); [lia|].
    destruct (Nat.ltb_spec expected (length pcmData)); [lia|reflexivity].
  - destruct (fst (process engine r frame)); reflexivity.
Qed.

(** ** The engine calls a service method makes *)

Lemma enrollAudio_trace (pcmData : list Z) (s : Service P R) :
  let s1 := final (enrollAudio engine pcmData s) in
  calls s1 = calls s
  \/ calls s1 = calls s ++ [CallEnroll (audioBuffer s ++ pcmData)].
Proof.
  cbv zeta. destruct (isInitialized s) eqn:Hinit;
    [|rewrite enrollAudio_not_initialized by assumption; left; reflexivity].
  destruct (Z.lt_ge_cases (Z.of_nat (length (audioBuffer s ++ pcmData)))
              (minBufferSize s)) as [Hlt|Hge].
  - rewrite enrollAudio_collecting by assumption. left. reflexivity.
  - destruct (profiler s) as [p|] eqn:Hp.
    + rewrite (enrollAudio_forwarded _ _ p) by assumption. right.
      destruct (fst (enroll engine p (audioBuffer s ++ pcmData))); reflexivity.
    + rewrite enrollAudio_no_profiler by assumption. left. reflexivity.
Qed.

Lemma exportProfile_trace (s : Service P R) :
  let s1 := final (exportProfile engine s) in
  calls s1 = calls s \/ calls s1 = calls s ++ [CallExport].
Proof.
  cbv zeta. destruct (isInitialized s) eqn:Hinit.
  - destruct (profiler s) as [p|] eqn:Hp.
    + rewrite (exportProfile_ready s p Hinit Hp). right.
      destruct (fst (export engine p)); reflexivity.
    + left. unfold exportProfile. run_monad. rewrite Hinit. cbn [negb].
      rewrite Hp. reflexivity.
  - left. unfold exportProfile. run_monad. rewrite Hinit. reflexivity.
Qed.

(** ** The decision on the score vector *)

Lemma Qgtb_spec (a b : Q) : reflect (b < a)%Q (Qgtb a b).
Proof.
  unfold Qgtb. destruct (Qle_bool a b) eqn:Hle; cbn [negb]; constructor.
  - apply Qle_bool_iff in Hle. apply Qle_not_lt. exact Hle.
  - apply Qnot_le_lt. rewrite <- Qle_bool_iff. congruence.
Qed.

Lemma Qltb_spec (a b : Q) : reflect (a < b)%Q (Qltb a b).
Proof. exact (Qgtb_spec b a). Qed.

(** What the loop leaves: an upper bound of the scores it has seen, and
    either the initial pair, when no score exceeded it, or the first
    position of the largest score. *)
Lemma scores_loop_spec (rest : list Q) (i : Z) (maxScore : Q)
    (speakerIndex : Z) :
  let out := scores_loop rest i maxScore speakerIndex in
  (forall x, x ∈ rest -> (x <= fst out)%Q)
  /\ ((out = (maxScore, speakerIndex)
       /\ forall x, x ∈ rest -> (x <= maxScore)%Q)
      \/ (exists k : nat,
            rest !! k = Some (fst out) /\ snd out = i + Z.of_nat k
            /\ (maxScore < fst out)%Q
            /\ forall j x, (j < k)%nat -> rest !! j = Some x ->
                           (x < fst out)%Q)).
Proof.
  revert i maxScore speakerIndex.
  induction rest as [|score rest IH]; intros i maxScore speakerIndex; cbn zeta.
  - cbn [scores_loop fst snd]. split.
    + intros x Hx. inversion Hx.
    + left. split; [reflexivity|]. intros x Hx. inversion Hx.
  - cbn [scores_loop]. destruct (Qgtb_spec score maxScore) as [Hgt|Hle].
    + destruct (IH (i + 1) score i) as [Hub Hcase]. cbn zeta in Hub, Hcase.
      set (out := scores_loop rest (i + 1) score i) in *.
      assert (Hscore : (score <= fst out)%Q).
      { destruct Hcase as [[-> _]|(k & _ & _ & Hlt & _)];
          [apply Qle_refl | apply Qlt_le_weak; exact Hlt]. }
      split.
      * intros x Hx. apply elem_of_cons in Hx as [->|Hx]; [exact Hscore|].
        apply Hub. exact Hx.
      * right. destruct Hcase as [[Hout Hall]|(k & Hk & Hidx & Hlt & Hfirst)].
        -- exists 0%nat. rewrite Hout. cbn [fst snd lookup list_lookup].
           repeat split; [lia | exact Hgt | intros j x Hj; lia].
        -- exists (S k). cbn [lookup list_lookup]. repeat split.
           ++ exact Hk.
           ++ lia.
           ++ eapply Qlt_trans; eassumption.
           ++ intros [|j] x Hj Hx.
              ** injection Hx as <-. exact Hlt.
              ** apply (Hfirst j); [lia | exact Hx].
    + apply Qnot_lt_le in Hle.
      destruct (IH (i + 1) maxScore speakerIndex) as [Hub Hcase].
      cbn zeta in Hub, Hcase.
      set (out := scores_loop rest (i + 1) maxScore speakerIndex) in *.
      assert (Hmax : (maxScore <= fst out)%Q).
      { destruct Hcase as [[-> _]|(k & _ & _ & Hlt & _)];
          [apply Qle_refl | apply Qlt_le_weak; exact Hlt]. }
      split.
      * intros x Hx. apply elem_of_cons in Hx as [->|Hx].
        -- eapply Qle_trans; eassumption.
        -- apply Hub. exact Hx.
      * destruct Hcase as [[Hout Hall]|(k & Hk & Hidx & Hlt & Hfirst)].
        -- left. split; [exact Hout|].
           intros x Hx. apply elem_of_cons in Hx as [->|Hx];
             [exact Hle | apply Hall; exact Hx].
        -- right. exists (S k). cbn [lookup list_lookup]. repeat split.
           ++ exact Hk.
           ++ lia.
           ++ exact Hlt.
           ++ intros [|j] x Hj Hx.
              ** injection Hx as <-. eapply Qle_lt_trans; eassumption.
              ** apply (Hfirst j); [lia | exact Hx].
Qed.

Lemma getSpeakerName_no_match (s : Service P R) :
  getSpeakerName (-1) s = "Unknown".
Proof. reflexivity. Qed.

Lemma getSpeakerName_index (s : Service P R) (k : nat)
    (profile : SpeakerProfile) :
  enrolledProfiles s !! k = Some profile ->
  getSpeakerName (Z.of_nat k) s = name profile.
Proof.
  intros Hk. unfold getSpeakerName. pose proof (lookup_lt_Some _ _ _ Hk) as Hlt.
  destruct (Z.leb_spec 0 (Z.of_nat k)); [|lia].
  destruct (Z.ltb_spec (Z.of_nat k) (Z.of_nat (length (enrolledProfiles s))));
    [|lia].
  cbn [andb]. rewrite Nat2Z.id, Hk. reflexivity.
Qed.

(** C4. When the engine returns one score per enrolled profile, each
    above [-1] (the engine's scores lie in [[0, 1]]), [recognizeAudio]
    returns as confidence the largest score, whichever side of the
    threshold it falls on. Below the threshold [0.5] the returned index
    is [-1], which [getSpeakerName] maps to ["Unknown"], whatever index
    held the largest score; otherwise the returned index is the first
    position of the largest score and [getSpeakerName] maps it to the name
    of the enrolled profile at that position. *)
Theorem recognizeAudio_best_match (pcmData : list Z) (s : Service P R)
    (r r' : R) (scores : list Q) :
  isInitialized s = true -> recognizer s = Some r ->
  process engine r (adjust_frame (expectedFrameLength engine r) pcmData)
    = (Ok scores, r') ->
  scores <> [] ->
  Forall (fun x => (-1 < x)%Q) scores ->
  length scores = length (enrolledProfiles s) ->
  exists (result : RecognizeResult) (k : nat) (profile : SpeakerProfile),
    outcome (recognizeAudio engine pcmData s) = Ok result
    /\ enrolledProfiles (final (recognizeAudio engine pcmData s))
       = enrolledProfiles s
    /\ scores !! k = Some (confidence result)
    /\ (forall x, x ∈ scores -> (x <= confidence result)%Q)
    /\ (forall j x, (j < k)%nat -> scores !! j = Some x ->
                    (x < confidence result)%Q)
    /\ enrolledProfiles s !! k = Some profile
    /\ ((confidence result < 1 # 2)%Q ->
        speakerIndex result = -1
        /\ getSpeakerName (speakerIndex result) s = "Unknown")
    /\ (~ (confidence result < 1 # 2)%Q ->
        speakerIndex result = Z.of_nat k
        /\ getSpeakerName (speakerIndex result) s = name profile).
Proof.
  intros Hinit Hr Hprocess Hne Hpos Hlen.
  rewrite (recognizeAudio_ready pcmData s r Hinit Hr), Hprocess.
  cbn [fst snd outcome final].
  destruct (scores_loop_spec scores 0 (-1) (-1)) as [Hub Hcase].
  cbn zeta in Hub, Hcase.
  destruct Hcase as [[_ Hall]|(k & Hk & Hidx & Hlt & Hfirst)].
  { destruct scores as [|x scores]; [contradiction|].
    apply Forall_cons in Hpos as [Hx _].
    specialize (Hall x ltac:(left)). exfalso.
    apply (Qlt_not_le _ _ Hx). exact Hall. }
  destruct (lookup_lt_is_Some_2 (enrolledProfiles s) k) as [profile Hprofile].
  { rewrite <- Hlen. eapply lookup_lt_Some. exact Hk. }
  exists (best_match scores), k, profile. unfold best_match.
  destruct (scores_loop scores 0 (-1) (-1)) as [maxScore index].
  cbn [fst snd] in *. cbn [confidence speakerIndex].
  repeat split; try assumption.
  - destruct (Qltb_spec maxScore confidenceThreshold);
      [reflexivity | contradiction].
  - destruct (Qltb_spec maxScore confidenceThreshold);
      [reflexivity | contradiction].
  - destruct (Qltb_spec maxScore confidenceThreshold);
      [contradiction | lia].
  - destruct (Qltb_spec maxScore confidenceThreshold); [contradiction|].
    rewrite Hidx, Z.add_0_l. apply getSpeakerName_index. exact Hprofile.
Qed.

(** ** The enrollment buffer *)


End WithEngine.
End EagleFacts.

(* ===================================================================== *)
(** * Facts: [SpeakerStorage]                                              *)
(* ===================================================================== *)

Module StorageFacts.
Import JS Control Types Storage.

Local Ltac run_monad :=
  unfold bind, try_catch, gets, modify, ret, throw, when, outcome, final;
  cbn [fst snd].

Lemma new_Int32Array_from (voiceprint : list Z) :
  Forall is_int32 voiceprint ->
  new_Int32Array (Array_from voiceprint) = voiceprint.
Proof.
  unfold new_Int32Array, Array_from. intros Hall.
  induction Hall as [|x l Hx _ IH]; [reflexivity|].
  cbn [fmap list_fmap]. rewrite VoiceprintFacts.ToInt32_id by exact Hx.
  f_equal. exact IH.
Qed.

Lemma profile_from_to_store (profile : SpeakerProfile) :
  Forall is_int32 (voiceprint profile) ->
  profileFromStore (profileToStore profile) = profile.
Proof.
  intros Hall. destruct profile as [i n v c u]. unfold profileFromStore.
  cbn -[new_Int32Array Array_from] in *.
  rewrite new_Int32Array_from by exact Hall. reflexivity.
Qed.

(** ** The object store after a [put] *)

Lemma store_put_lookup (value : StoredProfile)
    (m m' : gmap string StoredProfile) :
  store_put value m = Some m' -> m' !! stored_id value = Some value.
Proof.
  unfold store_put. destruct (name_taken _ _ m); [discriminate|].
  intros [= <-]. apply lookup_insert_eq.
Qed.

Lemma store_put_index (value : StoredProfile)
    (m m' : gmap string StoredProfile) :
  store_put value m = Some m' ->
  index_get (stored_name value) m' = Some value.
Proof.
  unfold store_put, name_taken.
  destruct (bool_decide _) eqn:Htaken; [discriminate|].
  apply bool_decide_eq_false in Htaken.
  intros [= <-]. unfold index_get.
  set (found := fun kv : string * StoredProfile =>
                  stored_name (snd kv) = stored_name value).
  destruct (list_find found
              (map_to_list (<[stored_id value := value]> m)))
    as [[i [k v]]|] eqn:Hfind.
  - cbn. f_equal.
    apply list_find_Some in Hfind as (Hi & Hname & _).
    apply list_elem_of_lookup_2, elem_of_map_to_list in Hi.
    destruct (decide (k = stored_id value)) as [->|Hne].
    + rewrite lookup_insert_eq in Hi. congruence.
    + rewrite lookup_insert_ne in Hi by congruence.
      exfalso. apply Htaken. exists k, v. cbn in Hname. auto.
  - exfalso.
    assert (Hin : (stored_id value, value)
                    ∈ map_to_list (<[stored_id value := value]> m))
      by (apply elem_of_map_to_list, lookup_insert_eq).
    destruct (list_find_elem_of found _ _ Hin) as [x Hx]; [reflexivity|].
    congruence.
Qed.

Lemma saveSpeakerProfile_Ok_inv (profile : SpeakerProfile) (db : DB) :
  outcome (saveSpeakerProfile profile db) = Ok tt ->
  available db = true
  /\ available (final (saveSpeakerProfile profile db)) = true
  /\ store_put (profileToStore profile) (records db)
     = Some (records (final (saveSpeakerProfile profile db))).
Proof.
  unfold saveSpeakerProfile, init. run_monad.
  destruct (available db) eqn:Hav; cbn; [|discriminate].
  destruct (store_put (profileToStore profile) (records db)); cbn;
    [|discriminate].
  intros _. rewrite Hav. auto.
Qed.

(** A save that fails leaves the database as it was. *)
Lemma saveSpeakerProfile_Throw (profile : SpeakerProfile) (db : DB)
    (e : Error) :
  outcome (saveSpeakerProfile profile db) = Throw e ->
  final (saveSpeakerProfile profile db) = db.
Proof.
  unfold saveSpeakerProfile, init. run_monad.
  destruct (available db); cbn; [|reflexivity].
  destruct (store_put (profileToStore profile) (records db)); cbn;
    [discriminate | reflexivity].
Qed.

Lemma saveSpeakerProfile_Ok_records (profile : SpeakerProfile) (db : DB) :
  outcome (saveSpeakerProfile profile db) = Ok tt ->
  records (final (saveSpeakerProfile profile db))
  = <[id profile := profileToStore profile]> (records db).
Proof.
  intros Hok. apply saveSpeakerProfile_Ok_inv in Hok as (_ & _ & Hput).
  unfold store_put in Hput. destruct (name_taken _ _ _); [discriminate|].
  injection Hput as <-. reflexivity.
Qed.

(** C8. A profile whose save succeeds is returned by a following load by
    id and by a following load by name with the same voiceprint, element
    for element, the same name, the same id and the same two dates: what
    [Array.from] and [toISOString] wrote, [new Int32Array] and
    [new Date] read back. *)
Theorem save_load_round_trip (profile : SpeakerProfile) (db : DB) :
  Forall is_int32 (voiceprint profile) ->
  outcome (saveSpeakerProfile profile db) = Ok tt ->
  let db' := final (saveSpeakerProfile profile db) in
  exists byId byName : SpeakerProfile,
    outcome (getSpeakerProfile (id profile) db') = Ok (Some byId)
    /\ outcome (getSpeakerByName (name profile) db') = Ok (Some byName)
    /\ voiceprint byId = voiceprint profile /\ name byId = name profile
    /\ id byId = id profile
    /\ voiceprint byName = voiceprint profile /\ name byName = name profile
    /\ id byName = id profile
    /\ createdAt byId = createdAt profile
    /\ lastUpdated byId = lastUpdated profile
    /\ createdAt byName = createdAt profile
    /\ lastUpdated byName = lastUpdated profile
    /\ (exists stored,
          records db' !! id profile = Some stored
          /\ stored_voiceprint stored = voiceprint profile
          /\ stored_createdAt stored = toISOString (createdAt profile)
          /\ stored_lastUpdated stored = toISOString (lastUpdated profile)).
Proof.
  intros Hint Hok db'.
  destruct (saveSpeakerProfile_Ok_inv profile db Hok) as (_ & Hav & Hput).
  fold db' in Hav, Hput.
  pose proof (store_put_lookup _ _ _ Hput) as Hid.
  pose proof (store_put_index _ _ _ Hput) as Hname.
  exists profile, profile.
  unfold getSpeakerProfile, getSpeakerByName, init. run_monad.
  rewrite Hav. cbn [fst snd].
  change (stored_id (profileToStore profile)) with (id profile) in Hid.
  change (stored_name (profileToStore profile)) with (name profile) in Hname.
  rewrite Hid, Hname. cbn [fmap option_fmap option_map].
  rewrite profile_from_to_store by exact Hint. repeat split.
  exists (profileToStore profile). repeat split.
Qed.

End StorageFacts.

(* ===================================================================== *)
(** * Facts: the enrollment component                                      *)
(* ===================================================================== *)

Module EnrollmentFacts.
Import JS Control Types Enrollment.

Local Ltac run_monad :=
  unfold bind, try_catch, gets, modify, ret, throw, when, zoom, outcome, final;
  cbn [fst snd].

Lemma count_app {A} (f : A -> bool) (l1 l2 : list A) :
  count f (l1 ++ l2) = (count f l1 + count f l2)%nat.
Proof.
  induction l1 as [|x l1 IH]; [reflexivity|].
  cbn [app count]. rewrite IH. lia.
Qed.

Section WithEngine.
Context {P R : Type}.
Variable engine : Eagle.Engine P R.
Variable props : Props.

Local Abbreviation App := (App P R).
Local Abbreviation handleAudioData := (handleAudioData engine props).
Local Abbreviation completeEnrollment := (completeEnrollment engine props).
Local Abbreviation fail_enrollment := (fail_enrollment props).
Local Abbreviation handleFrames := (handleFrames engine props).
Local Abbreviation failure := (failure engine).
Local Abbreviation completion_failure := (completion_failure engine).

(** ** The [catch] blocks *)

(** The state a [catch] block leaves. *)
Lemma fail_enrollment_run (e : Error) (a : App) :
  let a' := final (fail_enrollment e a) in
  outcome (fail_enrollment e a) = Ok tt
  /\ enrollmentState a' =
       {| isEnrolling := false; isRecording := false;
          progress := progress (enrollmentState a); error := Some e;
          success := success (enrollmentState a) |}
  /\ eagleService a' = eagleService a
  /\ speakerStorage a' = speakerStorage a
  /\ Recorder.isRecording (recorder a') = false
  /\ events a' =
       events a ++ StopRecording :: (if onError props then [OnError e] else [])
  /\ speakerName a' = speakerName a /\ now a' = now a /\ random a' = random a.
Proof.
  unfold Enrollment.fail_enrollment, setEnrollmentState, stopRecording, audio,
    Recorder.stopRecording.
  run_monad. destruct (onError props); cbn; rewrite <- ?app_assoc; repeat split.
Qed.

(** ** [completeEnrollment], path by path *)

Lemma completeEnrollment_export_throws (a : App) (e : Error)
    (s1 : Eagle.Service P R) :
  Eagle.exportProfile engine (eagleService a) = (Throw e, s1) ->
  completeEnrollment a = fail_enrollment e (set_eagleService s1 a).
Proof.
  intros Hexport. unfold Enrollment.completeEnrollment, eagle.
  unfold try_catch at 1. unfold bind at 1. unfold zoom at 1.
  rewrite Hexport. reflexivity.
Qed.

Lemma completeEnrollment_save_throws (a : App) (e : Error)
    (voiceprint : list Z) (s1 : Eagle.Service P R) (d1 : Storage.DB) :
  Eagle.exportProfile engine (eagleService a) = (Ok voiceprint, s1) ->
  Storage.saveSpeakerProfile
    (make_profile (now a) (random a) (speakerName a) voiceprint)
    (speakerStorage a) = (Throw e, d1) ->
  completeEnrollment a
  = fail_enrollment e (set_speakerStorage d1 (set_eagleService s1 a)).
Proof.
  intros Hexport Hsave. unfold Enrollment.completeEnrollment, eagle, storage.
  unfold try_catch at 1. unfold bind at 1. unfold zoom at 1.
  rewrite Hexport. run_monad.
  cbn [now random speakerName speakerStorage set_eagleService].
  rewrite Hsave. reflexivity.
Qed.

Lemma completeEnrollment_saved (a : App) (voiceprint : list Z)
    (s1 : Eagle.Service P R) (d1 : Storage.DB) :
  Eagle.exportProfile engine (eagleService a) = (Ok voiceprint, s1) ->
  let profile := make_profile (now a) (random a) (speakerName a) voiceprint in
  Storage.saveSpeakerProfile profile (speakerStorage a) = (Ok tt, d1) ->
  let a' := final (completeEnrollment a) in
  outcome (completeEnrollment a) = Ok tt
  /\ enrollmentState a' =
       {| isEnrolling := false; isRecording := false;
          progress := progress (enrollmentState a);
          error := error (enrollmentState a); success := true |}
  /\ eagleService a' = s1
  /\ speakerStorage a' = d1
  /\ Recorder.isRecording (recorder a') = false
  /\ events a' =
       events a ++ StopRecording
         :: (if onEnrollmentComplete props
             then [OnEnrollmentComplete profile] else [])
         ++ [SetTimeout_resetForm].
Proof.
  intros Hexport profile Hsave. subst profile. cbv zeta.
  unfold Enrollment.completeEnrollment, eagle, storage, setEnrollmentState,
    stopRecording, audio, Recorder.stopRecording.
  run_monad. rewrite Hexport.
  cbn [now random speakerName speakerStorage set_eagleService].
  rewrite Hsave.
  destruct (onEnrollmentComplete props); cbn; rewrite <- ?app_assoc;
    repeat split.
Qed.

Lemma completeEnrollment_Ok (a : App) : outcome (completeEnrollment a) = Ok tt.
Proof.
  destruct (Eagle.exportProfile engine (eagleService a)) as [[vp|e] s1] eqn:Hx.
  - destruct (Storage.saveSpeakerProfile
                (make_profile (now a) (random a) (speakerName a) vp)
                (speakerStorage a)) as [[[]|e] d1] eqn:Hs.
    + apply (completeEnrollment_saved a vp s1 d1 Hx Hs).
    + rewrite (completeEnrollment_save_throws a e vp s1 d1 Hx Hs).
      apply fail_enrollment_run.
  - rewrite (completeEnrollment_export_throws a e s1 Hx).
    apply fail_enrollment_run.
Qed.

(** ** [handleAudioData], path by path *)

Lemma handleAudioData_idle (frame : list Z) (a : App) :
  isEnrolling (enrollmentState a) = false ->
  handleAudioData frame a = (Ok tt, a).
Proof.
  intros Hidle. unfold Enrollment.handleAudioData. run_monad.
  rewrite Hidle. reflexivity.
Qed.

Lemma handleAudioData_enroll_throws (frame : list Z) (a : App) (e : Error)
    (s1 : Eagle.Service P R) :
  isEnrolling (enrollmentState a) = true ->
  Eagle.enrollAudio engine frame (eagleService a) = (Throw e, s1) ->
  handleAudioData frame a = fail_enrollment e (set_eagleService s1 a).
Proof.
  intros Hon Henroll. unfold Enrollment.handleAudioData, eagle.
  unfold bind at 1. unfold gets at 1. rewrite Hon. cbn [negb].
  unfold try_catch at 1. unfold bind at 1. unfold zoom at 1.
  rewrite Henroll. reflexivity.
Qed.

Lemma handleAudioData_enroll_returns (frame : list Z) (a : App)
    (result : Eagle.EnrollResult) (s1 : Eagle.Service P R) :
  isEnrolling (enrollmentState a) = true ->
  Eagle.enrollAudio engine frame (eagleService a) = (Ok result, s1) ->
  handleAudioData frame a =
    if Qle_bool 100 (Eagle.percentage result)
    then completeEnrollment (progressed result s1 a)
    else (Ok tt, progressed result s1 a).
Proof.
  intros Hon Henroll. unfold Enrollment.handleAudioData, eagle.
  unfold bind at 1. unfold gets at 1. rewrite Hon. cbn [negb].
  unfold try_catch at 1. unfold bind at 1. unfold zoom at 1.
  rewrite Henroll. unfold setEnrollmentState. run_monad.
  unfold progressed. cbn [enrollmentState set_eagleService].
  destruct (Qle_bool 100 (Eagle.percentage result)); [|reflexivity].
  match goal with
  | |- context [completeEnrollment ?x] =>
      pose proof (completeEnrollment_Ok x) as Hok;
      unfold outcome in Hok;
      destruct (completeEnrollment x) as [[[]|e] a2];
      [reflexivity | discriminate]
  end.
Qed.

Lemma handleFrames_idle (frames : list (list Z)) (a : App) :
  isEnrolling (enrollmentState a) = false -> handleFrames frames a = a.
Proof.
  intros Hidle. induction frames as [|frame frames IH]; [reflexivity|].
  cbn [Enrollment.handleFrames]. rewrite handleAudioData_idle by exact Hidle.
  exact IH.
Qed.

(** ** A completion that fails *)

Lemma completeEnrollment_failed (x : App) (e : Error) :
  completion_failure x = Some e ->
  let x' := final (completeEnrollment x) in
  enrollmentState x' =
    {| isEnrolling := false; isRecording := false;
       progress := progress (enrollmentState x); error := Some e;
       success := success (enrollmentState x) |}
  /\ Recorder.isRecording (recorder x') = false
  /\ events x' =
       events x ++ StopRecording :: (if onError props then [OnError e] else [])
  /\ speakerStorage x' = speakerStorage x
  /\ count Eagle.is_reset (Eagle.calls (eagleService x'))
     = count Eagle.is_reset (Eagle.calls (eagleService x)).
Proof.
  intros Hfail x'. subst x'. unfold Enrollment.completion_failure in Hfail.
  pose proof (EagleFacts.exportProfile_trace engine (eagleService x)) as Htrace.
  cbv zeta in Htrace.
  destruct (Eagle.exportProfile engine (eagleService x))
    as [[vp|e1] s2] eqn:Hexport; cbn [final snd] in Htrace.
  - destruct (Storage.saveSpeakerProfile _ (speakerStorage x))
      as [[[]|e2] d1] eqn:Hsave; [discriminate|].
    injection Hfail as ->.
    rewrite (completeEnrollment_save_throws x e vp s2 d1 Hexport Hsave).
    destruct (fail_enrollment_run e
                (set_speakerStorage d1 (set_eagleService s2 x)))
      as (_ & Hst & Hsvc & Hdb & Hrec & Hev & _).
    rewrite Hst, Hsvc, Hdb, Hev, Hrec. cbn.
    pose proof (StorageFacts.saveSpeakerProfile_Throw _ _ e
                  ltac:(unfold outcome; rewrite Hsave; reflexivity)) as Hsame.
    rewrite Hsave in Hsame. cbn in Hsame. subst d1.
    repeat split.
    destruct Htrace as [->| ->]; [reflexivity|].
    rewrite count_app. cbn. lia.
  - injection Hfail as ->.
    rewrite (completeEnrollment_export_throws x e s2 Hexport).
    destruct (fail_enrollment_run e (set_eagleService s2 x))
      as (_ & Hst & Hsvc & Hdb & Hrec & Hev & _).
    rewrite Hst, Hsvc, Hdb, Hev, Hrec. cbn.
    repeat split.
    destruct Htrace as [->| ->]; [reflexivity|].
    rewrite count_app. cbn. lia.
Qed.

(** ** Below the threshold *)

(** C2, as the code has it. While the accumulated buffer is shorter than
    [minBufferSize], a frame handled during enrollment makes no engine
    call: [enrollAudio] keeps the samples and answers ["COLLECTING_AUDIO"]
    with percentage [0], and the handler stores that [0] as the progress.
    The progress is thus left as it was only if it was [0] already. *)
Theorem collecting_reports_zero (frame : list Z) (a : App) :
  isEnrolling (enrollmentState a) = true ->
  Eagle.isInitialized (eagleService a) = true ->
  Z.of_nat (length (Eagle.audioBuffer (eagleService a) ++ frame))
    < Eagle.minBufferSize (eagleService a) ->
  let a' := final (handleAudioData frame a) in
  outcome (Eagle.enrollAudio engine frame (eagleService a))
    = Ok {| Eagle.percentage := 0; Eagle.feedback := "COLLECTING_AUDIO" |}
  /\ Eagle.calls (eagleService a') = Eagle.calls (eagleService a)
  /\ Eagle.audioBuffer (eagleService a')
     = Eagle.audioBuffer (eagleService a) ++ frame
  /\ progress (enrollmentState a') = 0%Q
  /\ (progress (enrollmentState a') = progress (enrollmentState a)
      <-> progress (enrollmentState a) = 0%Q)
  /\ isEnrolling (enrollmentState a') = true
  /\ error (enrollmentState a') = None
  /\ events a' = events a.
Proof.
  intros Hon Hinit Hlt a'. subst a'.
  pose proof (EagleFacts.enrollAudio_collecting engine frame (eagleService a)
                Hinit Hlt) as Hrun.
  rewrite (handleAudioData_enroll_returns frame a _ _ Hon Hrun).
  rewrite Hrun. cbn [Eagle.percentage]. change (Qle_bool 100 0) with false.
  cbn. rewrite Hon. repeat split; intros H; congruence.
Qed.

(** ** When a call fails *)


(** ** At 100 percent *)

(** What every path of [completeEnrollment] does when the service is
    ready for the export. *)
Lemma completeEnrollment_common (x : App) (p : P) :
  Eagle.isInitialized (eagleService x) = true ->
  Eagle.profiler (eagleService x) = Some p ->
  let x' := final (completeEnrollment x) in
  Eagle.calls (eagleService x')
    = Eagle.calls (eagleService x) ++ [Eagle.CallExport]
  /\ isEnrolling (enrollmentState x') = false
  /\ Recorder.isRecording (recorder x') = false
  /\ count is_stop (events x') = S (count is_stop (events x)).
Proof.
  intros Hinit Hp x'. subst x'.
  pose proof (EagleFacts.exportProfile_ready engine _ p Hinit Hp) as Hexport.
  cbv zeta in Hexport.
  set (s2 := Eagle.set_profiler _ _) in Hexport.
  assert (Hs2 : Eagle.calls s2
                = Eagle.calls (eagleService x) ++ [Eagle.CallExport])
    by reflexivity.
  destruct (fst (Eagle.export engine p)) as [bytes|e0].
  - destruct (Storage.saveSpeakerProfile
                (make_profile (now x) (random x) (speakerName x)
                   (Voiceprint.bytesToInt32Array bytes))
                (speakerStorage x)) as [[[]|e2] d1] eqn:Hsave.
    + destruct (completeEnrollment_saved x _ s2 d1 Hexport Hsave)
        as (_ & Hst & Hsvc & _ & Hrec & Hev).
      rewrite Hst, Hsvc, Hev, Hrec, Hs2. repeat split.
      rewrite !count_app. cbn.
      destruct (onEnrollmentComplete props); cbn; lia.
    + rewrite (completeEnrollment_save_throws x e2 _ s2 d1 Hexport Hsave).
      destruct (fail_enrollment_run e2
                  (set_speakerStorage d1 (set_eagleService s2 x)))
        as (_ & Hst & Hsvc & _ & Hrec & Hev & _).
      rewrite Hst, Hsvc, Hev, Hrec. cbn [eagleService set_speakerStorage
        set_eagleService events isEnrolling]. rewrite Hs2. repeat split.
      rewrite !count_app. cbn. destruct (onError props); cbn; lia.
  - rewrite (completeEnrollment_export_throws x _ s2 Hexport).
    destruct (fail_enrollment_run
                ("Profile export failed: " +:+ String_of_error e0)
                (set_eagleService s2 x))
      as (_ & Hst & Hsvc & _ & Hrec & Hev & _).
    rewrite Hst, Hsvc, Hev, Hrec. cbn [eagleService set_eagleService events
      isEnrolling]. rewrite Hs2. repeat split.
    rewrite !count_app. cbn. destruct (onError props); cbn; lia.
Qed.

(** The handler of the frame for which [enrollAudio] returns a percentage
    of 100 or more, when nothing happens while it is suspended: the
    engine's [export] is called once, the recorder is stopped and the
    enrollment is over. If the export returns and the save succeeds, the
    profile is stored; if the export throws or the save fails, nothing is
    stored and the error is shown and passed to [onError]. *)
Lemma handleAudioData_at_100 (frame : list Z) (a : App)
    (result : Eagle.EnrollResult) (s1 : Eagle.Service P R) :
  isEnrolling (enrollmentState a) = true ->
  Eagle.enrollAudio engine frame (eagleService a) = (Ok result, s1) ->
  Qle_bool 100 (Eagle.percentage result) = true ->
  let a' := final (handleAudioData frame a) in
  Eagle.calls (eagleService a') = Eagle.calls s1 ++ [Eagle.CallExport]
  /\ count Eagle.is_export (Eagle.calls (eagleService a'))
     = S (count Eagle.is_export (Eagle.calls (eagleService a)))
  /\ isEnrolling (enrollmentState a') = false
  /\ Recorder.isRecording (recorder a') = false
  /\ count is_stop (events a') = S (count is_stop (events a))
  /\ (forall frames, handleFrames frames a' = a')
  /\ (exists p : P,
        Eagle.profiler s1 = Some p
        /\ outcome (Eagle.exportProfile engine s1) =
             match fst (Eagle.export engine p) with
             | Ok profileBytes =>
                 Ok (Voiceprint.bytesToInt32Array profileBytes)
             | Throw error =>
                 Throw ("Profile export failed: " +:+ String_of_error error)
             end)
  /\ (forall voiceprint,
        outcome (Eagle.exportProfile engine s1) = Ok voiceprint ->
        let profile :=
          make_profile (now a) (random a) (speakerName a) voiceprint in
        outcome (Storage.saveSpeakerProfile profile (speakerStorage a))
          = Ok tt ->
        Storage.records (speakerStorage a')
          = <[id profile := Storage.profileToStore profile]>
              (Storage.records (speakerStorage a))
        /\ success (enrollmentState a') = true
        /\ events a' =
             events a ++ StopRecording
               :: (if onEnrollmentComplete props
                   then [OnEnrollmentComplete profile] else [])
               ++ [SetTimeout_resetForm])
  /\ (forall e,
        failure frame a = Some e ->
        speakerStorage a' = speakerStorage a
        /\ success (enrollmentState a') = success (enrollmentState a)
        /\ error (enrollmentState a') = Some e
        /\ events a' =
             events a ++ StopRecording
               :: (if onError props then [OnError e] else [])).
Proof.
  intros Hon Henroll Hfull a'.
  destruct (EagleFacts.enrollAudio_Ok_inv engine frame (eagleService a) s1
              result Henroll) as (Hinit1 & _ & Hpath).
  destruct Hpath as [[Hzero _]|(p & Hp & _ & Hcalls1)].
  { rewrite Hzero in Hfull. discriminate. }
  assert (Ha' : a' = final (completeEnrollment (progressed result s1 a))).
  { subst a'.
    rewrite (handleAudioData_enroll_returns frame a result s1 Hon Henroll), Hfull.
    reflexivity. }
  destruct (completeEnrollment_common (progressed result s1 a) p Hinit1 Hp)
    as (Hcalls & Hoff & Hrec & Hstop).
  rewrite <- Ha' in Hcalls, Hoff, Hrec, Hstop.
  cbn [progressed eagleService set_enrollmentState set_eagleService events]
    in Hcalls, Hstop.
  split; [exact Hcalls|].
  split; [rewrite Hcalls, Hcalls1, !count_app; cbn; lia|].
  split; [exact Hoff|].
  split; [exact Hrec|].
  split; [exact Hstop|].
  split; [intros frames; apply handleFrames_idle; exact Hoff|].
  split.
  { exists p. split; [exact Hp|].
    rewrite (EagleFacts.exportProfile_ready engine s1 p Hinit1 Hp).
    destruct (fst (Eagle.export engine p)); reflexivity. }
  split.
  - intros voiceprint Hexport profile Hsave.
    destruct (Eagle.exportProfile engine s1) as [[vp|e0] s2] eqn:Hx;
      [|discriminate].
    injection Hexport as ->.
    destruct (Storage.saveSpeakerProfile profile (speakerStorage a))
      as [[[]|e2] d1] eqn:Hs; [|discriminate].
    destruct (completeEnrollment_saved (progressed result s1 a) voiceprint
                s2 d1 Hx Hs) as (_ & Hst & _ & Hdb & _ & Hev).
    rewrite <- Ha' in Hst, Hdb, Hev.
    rewrite Hst, Hdb, Hev. repeat split.
    pose proof (StorageFacts.saveSpeakerProfile_Ok_records profile
                  (speakerStorage a)) as Hrecs.
    rewrite Hs in Hrecs. apply Hrecs. reflexivity.
  - intros e He. unfold Enrollment.failure in He.
    rewrite Henroll, Hfull in He.
    destruct (completeEnrollment_failed (progressed result s1 a) e He)
      as (Hst & _ & Hev & Hdb & _).
    rewrite <- Ha' in Hst, Hev, Hdb.
    rewrite Hst, Hev, Hdb. repeat split.
Qed.

(** Over frames whose handlers run one after the other, however many,
    the engine's [export] is called at most once: before the completion
    no frame reaches it, and after it, or after a failure, every frame is
    ignored. *)
Lemma handleFrames_exports_at_most_once (frames : list (list Z)) (a : App) :
  (count Eagle.is_export (Eagle.calls (eagleService (handleFrames frames a)))
   <= S (count Eagle.is_export (Eagle.calls (eagleService a))))%nat.
Proof.
  revert a. induction frames as [|frame frames IH]; intros a;
    cbn [Enrollment.handleFrames]; [lia|].
  destruct (isEnrolling (enrollmentState a)) eqn:Hon;
    [|rewrite handleAudioData_idle by exact Hon; apply IH].
  pose proof (EagleFacts.enrollAudio_trace engine frame (eagleService a))
    as Htrace. cbv zeta in Htrace.
  destruct (Eagle.enrollAudio engine frame (eagleService a))
    as [[result|e] s1] eqn:Henroll; cbn [final snd] in Htrace.
  - assert (Hsame : count Eagle.is_export (Eagle.calls s1)
                    = count Eagle.is_export (Eagle.calls (eagleService a))).
    { destruct Htrace as [->| ->]; [reflexivity|].
      rewrite count_app. cbn. lia. }
    rewrite (handleAudioData_enroll_returns frame a result s1 Hon Henroll).
    destruct (Qle_bool 100 (Eagle.percentage result)) eqn:Hfull.
    + destruct (EagleFacts.enrollAudio_Ok_inv engine frame (eagleService a)
                  s1 result Henroll) as (Hinit1 & _ & Hpath).
      destruct Hpath as [[Hzero _]|(p & Hp & _ & _)];
        [rewrite Hzero in Hfull; discriminate|].
      destruct (completeEnrollment_common (progressed result s1 a) p
                  Hinit1 Hp) as (Hcalls & Hoff & _).
      rewrite (handleFrames_idle frames _ Hoff), Hcalls.
      cbn [progressed eagleService set_enrollmentState set_eagleService].
      rewrite count_app, Hsame. cbn. lia.
    + cbn [final snd]. etransitivity; [apply IH|].
      cbn [progressed eagleService set_enrollmentState set_eagleService].
      rewrite Hsame. lia.
  - rewrite (handleAudioData_enroll_throws frame a e s1 Hon Henroll).
    destruct (fail_enrollment_run e (set_eagleService s1 a))
      as (_ & Hst & Hsvc & _).
    rewrite (handleFrames_idle frames _ ltac:(rewrite Hst; reflexivity)), Hsvc.
    cbn [eagleService set_eagleService].
    destruct Htrace as [->| ->]; [lia|].
    rewrite count_app. cbn. lia.
Qed.

End WithEngine.
End EnrollmentFacts.

(* ===================================================================== *)
(** * Facts: the recognition component                                     *)
(* ===================================================================== *)

Module RecognitionFacts.
Import JS Control Types Recognition.

Local Ltac run_monad :=
  unfold bind, try_catch, gets, modify, ret, throw, when, zoom, outcome, final;
  cbn [fst snd].

Section WithEngine.
Context {P R : Type}.
Variable engine : Eagle.Engine P R.
Variable props : Props.

Local Abbreviation App := (App P R).
Local Abbreviation handleAudioData := (handleAudioData engine props).
Local Abbreviation handleFrames := (handleFrames engine props).

Lemma recognizeAudio_keeps_ready (frame : list Z) (s : Eagle.Service P R) :
  Eagle.ready s ->
  let s1 := final (Eagle.recognizeAudio engine frame s) in
  Eagle.ready s1
  /\ count Eagle.is_process (Eagle.calls s1)
     = S (count Eagle.is_process (Eagle.calls s)).
Proof.
  intros [Hinit [r Hr]]. cbv zeta.
  rewrite (EagleFacts.recognizeAudio_ready engine frame s r Hinit Hr).
  destruct (fst (Eagle.process engine r _)); cbn [final snd];
    (split; [split; [exact Hinit | eexists; reflexivity]|]);
    cbn [Eagle.calls Eagle.set_recognizer Eagle.log_call];
    rewrite EnrollmentFacts.count_app; cbn; lia.
Qed.

(** ** [handleAudioData], path by path *)

Lemma recognition_idle (frame : list Z) (a : App) :
  isRecognizing (recognitionState a) = false ->
  handleAudioData frame a = (Ok tt, a).
Proof.
  intros Hidle. unfold Recognition.handleAudioData. run_monad.
  rewrite Hidle. reflexivity.
Qed.

Lemma recognition_throws (frame : list Z) (a : App) (e : Error)
    (s1 : Eagle.Service P R) :
  isRecognizing (recognitionState a) = true ->
  Eagle.recognizeAudio engine frame (eagleService a) = (Throw e, s1) ->
  let a' := final (handleAudioData frame a) in
  outcome (handleAudioData frame a) = Ok tt
  /\ recognitionState a' =
       {| isRecognizing := isRecognizing (recognitionState a);
          isListening := isListening (recognitionState a);
          identifiedSpeaker := identifiedSpeaker (recognitionState a);
          confidence := confidence (recognitionState a);
          error := Some e |}
  /\ eagleService a' = s1
  /\ recorder a' = recorder a
  /\ speakerStorage a' = speakerStorage a
  /\ events a' = events a ++ (if onError props then [OnError e] else []).
Proof.
  intros Hon Hrun. cbv zeta.
  unfold Recognition.handleAudioData, eagle, setRecognitionState. run_monad.
  rewrite Hon. cbn [negb]. rewrite Hrun.
  destruct (onError props); cbn; rewrite ?app_nil_r, ?Hon; repeat split.
Qed.

Lemma recognition_returns (frame : list Z) (a : App)
    (result : Eagle.RecognizeResult) (s1 : Eagle.Service P R) :
  isRecognizing (recognitionState a) = true ->
  Eagle.recognizeAudio engine frame (eagleService a) = (Ok result, s1) ->
  let a' := final (handleAudioData frame a) in
  let speakerName := Eagle.getSpeakerName (Eagle.speakerIndex result) s1 in
  outcome (handleAudioData frame a) = Ok tt
  /\ recognitionState a' =
       {| isRecognizing := isRecognizing (recognitionState a);
          isListening := isListening (recognitionState a);
          identifiedSpeaker := Some speakerName;
          confidence := Eagle.confidence result;
          error := None |}
  /\ eagleService a' = s1
  /\ recorder a' = recorder a
  /\ speakerStorage a' = speakerStorage a
  /\ events a' =
       events a ++
       (if onSpeakerIdentified props && negb (String.eqb speakerName "Unknown")
        then [OnSpeakerIdentified speakerName (Eagle.confidence result)]
        else []).
Proof.
  intros Hon Hrun. cbv zeta.
  unfold Recognition.handleAudioData, eagle, setRecognitionState. run_monad.
  rewrite Hon. cbn [negb]. rewrite Hrun.
  cbn [eagleService set_eagleService].
  destruct (onSpeakerIdentified props &&
            negb (String.eqb (Eagle.getSpeakerName (Eagle.speakerIndex result) s1)
                    "Unknown"));
    cbn; rewrite ?app_nil_r, ?Hon; repeat split.
Qed.

(** What a frame handled during recognition leaves alone. *)
Lemma recognition_step (frame : list Z) (a : App) :
  isRecognizing (recognitionState a) = true ->
  let a' := final (handleAudioData frame a) in
  isRecognizing (recognitionState a') = true
  /\ isListening (recognitionState a') = isListening (recognitionState a)
  /\ recorder a' = recorder a
  /\ count is_stop (events a') = count is_stop (events a)
  /\ eagleService a'
     = final (Eagle.recognizeAudio engine frame (eagleService a)).
Proof.
  intros Hon. cbv zeta.
  destruct (Eagle.recognizeAudio engine frame (eagleService a))
    as [[result|e] s1] eqn:Hrun.
  - destruct (recognition_returns frame a result s1 Hon Hrun)
      as (_ & Hst & Hsvc & Hrec & _ & Hev).
    rewrite Hst, Hsvc, Hrec, Hev. cbn. repeat split; try assumption.
    rewrite EnrollmentFacts.count_app.
    destruct (onSpeakerIdentified props && _); cbn; lia.
  - destruct (recognition_throws frame a e s1 Hon Hrun)
      as (_ & Hst & Hsvc & Hrec & _ & Hev).
    rewrite Hst, Hsvc, Hrec, Hev. cbn. repeat split; try assumption.
    rewrite EnrollmentFacts.count_app.
    destruct (onError props); cbn; lia.
Qed.

(** The frames that follow are all handed to [recognizeAudio], and the
    session stays as it was. *)
Lemma handleFrames_recognizing (frames : list (list Z)) (a : App) :
  isRecognizing (recognitionState a) = true ->
  let a' := handleFrames frames a in
  isRecognizing (recognitionState a') = true
  /\ isListening (recognitionState a') = isListening (recognitionState a)
  /\ recorder a' = recorder a
  /\ count is_stop (events a') = count is_stop (events a)
  /\ (Eagle.ready (eagleService a) ->
      count Eagle.is_process (Eagle.calls (eagleService a'))
      = (count Eagle.is_process (Eagle.calls (eagleService a))
         + length frames)%nat).
Proof.
  revert a. induction frames as [|frame frames IH]; intros a Hon; cbv zeta.
  - cbn [Recognition.handleFrames length]. repeat split; try assumption. lia.
  - cbn [Recognition.handleFrames length].
    destruct (recognition_step frame a Hon)
      as (Hon1 & Hl1 & Hrec1 & Hstop1 & Hsvc1).
    destruct (IH _ Hon1) as (Hon2 & Hl2 & Hrec2 & Hstop2 & Hproc2).
    repeat split; try congruence.
    intros Hready.
    destruct (recognizeAudio_keeps_ready frame (eagleService a) Hready)
      as [Hready1 Hcount1].
    rewrite <- Hsvc1 in Hready1, Hcount1.
    rewrite (Hproc2 Hready1), Hcount1. lia.
Qed.

(** C7. When the recognition call throws for a frame handled while
    recognizing, the error is shown and passed to [onError], and nothing
    else changes: [isRecognizing] and [isListening] stay set, the recorder
    is not stopped, the last identification stays. Every later frame is
    handled in the same way: it is handed to [recognizeAudio], which on a
    ready service calls the engine's [process] once per frame. *)
Theorem recognition_failure_continues (frame : list Z) (a : App)
    (e : Error) :
  isRecognizing (recognitionState a) = true ->
  outcome (Eagle.recognizeAudio engine frame (eagleService a)) = Throw e ->
  let a' := final (handleAudioData frame a) in
  error (recognitionState a') = Some e
  /\ events a' = events a ++ (if onError props then [OnError e] else [])
  /\ isRecognizing (recognitionState a') = true
  /\ isListening (recognitionState a') = isListening (recognitionState a)
  /\ identifiedSpeaker (recognitionState a')
     = identifiedSpeaker (recognitionState a)
  /\ recorder a' = recorder a
  /\ count is_stop (events a') = count is_stop (events a)
  /\ (forall next,
        eagleService (final (handleAudioData next a'))
        = final (Eagle.recognizeAudio engine next (eagleService a')))
  /\ (forall frames,
        let a'' := handleFrames frames a' in
        isRecognizing (recognitionState a'') = true
        /\ recorder a'' = recorder a
        /\ count is_stop (events a'') = count is_stop (events a)
        /\ (Eagle.ready (eagleService a) ->
            count Eagle.is_process (Eagle.calls (eagleService a''))
            = (count Eagle.is_process (Eagle.calls (eagleService a'))
               + length frames)%nat)).
Proof.
  intros Hon Hthrow a'.
  destruct (Eagle.recognizeAudio engine frame (eagleService a))
    as [[result|e0] s1] eqn:Hrun; [discriminate|].
  injection Hthrow as ->.
  destruct (recognition_throws frame a e s1 Hon Hrun)
    as (_ & Hst & Hsvc & Hrec & _ & Hev).
  destruct (recognition_step frame a Hon)
    as (Hon1 & Hl1 & _ & Hstop1 & Hsvc1).
  fold a' in Hst, Hsvc, Hrec, Hev, Hon1, Hl1, Hstop1, Hsvc1.
  repeat split; try assumption.
  - rewrite Hst. reflexivity.
  - rewrite Hst. reflexivity.
  - intros next. apply (recognition_step next a' Hon1).
  - apply (handleFrames_recognizing frames a' Hon1).
  - destruct (handleFrames_recognizing frames a' Hon1) as (_ & _ & -> & _).
    exact Hrec.
  - destruct (handleFrames_recognizing frames a' Hon1) as (_ & _ & _ & -> & _).
    exact Hstop1.
  - intros Hready.
    destruct (handleFrames_recognizing frames a' Hon1) as (_ & _ & _ & _ & Hp).
    apply Hp. rewrite Hsvc1.
    apply (recognizeAudio_keeps_ready frame (eagleService a) Hready).
Qed.

End WithEngine.
End RecognitionFacts.

(* ===================================================================== *)
(** * Facts: handlers that overlap, and handlers that do not               *)
(* ===================================================================== *)

Module AsyncFacts.
Import Control Async.

(** ** Resuming at once *)

Lemma force_bind {S A B} (p : Proc S A) (f : A -> Task S B) :
  force (bind_proc p f)
  = match force p with
    | (Ok a, s) => force (f a s)
    | (Throw e, s) => (Throw e, s)
    end.
Proof.
  induction p as [[a|e] s|s k IH]; cbn [bind_proc force]; auto.
Qed.

Lemma force_catch {S A} (p : Proc S A) (handler : Error -> Task S A) :
  force (catch_proc p handler)
  = match force p with
    | (Ok a, s) => (Ok a, s)
    | (Throw e, s) => force (handler e s)
    end.
Proof.
  induction p as [[a|e] s|s k IH]; cbn [catch_proc force]; auto.
Qed.

Lemma force_zoom {S T A} (proj : T -> S) (inj : S -> T -> T)
    (p : Proc S A) (t : T) :
  (forall s t, proj (inj s t) = s) ->
  (forall s s' t, inj s' (inj s t) = inj s' t) ->
  force (zoom_proc proj inj p t)
  = let '(r, s) := force p in (r, inj s t).
Proof.
  intros Hget Hset. revert t.
  induction p as [r s|s k IH]; intros t; cbn [zoom_proc force];
    [reflexivity|].
  rewrite Hget, IH. destruct (force (k s)) as [r s']. rewrite Hset.
  reflexivity.
Qed.

Lemma force_sync {S A} (m : M S A) (s : S) : force (sync m s) = m s.
Proof. unfold sync. destruct (m s). reflexivity. Qed.

Lemma force_await {S A} (m : M S A) (s : S) : force (await m s) = m s.
Proof. unfold await. destruct (m s). reflexivity. Qed.

(** ** Counting the suspensions *)

Lemma within_le {State A} (n m : nat) (p : Proc State A) :
  within n p -> (n <= m)%nat -> within m p.
Proof.
  intros Hp. revert m. induction Hp as [n r s|n s k _ IH]; intros m Hle.
  - constructor.
  - destruct m as [|m]; [lia|]. constructor. intros s'. apply IH. lia.
Qed.

Lemma within_bind {State A B} (n m : nat) (p : Proc State A)
    (f : A -> Task State B) :
  within n p -> (forall a s, within m (f a s)) ->
  within (n + m) (bind_proc p f).
Proof.
  intros Hp Hf. induction Hp as [n [a|e] s|n s k _ IH]; cbn [bind_proc].
  - apply (within_le m); [apply Hf | lia].
  - constructor.
  - cbn [Nat.add]. constructor. exact IH.
Qed.

Lemma within_catch {State A} (n m : nat) (p : Proc State A)
    (handler : Error -> Task State A) :
  within n p -> (forall e s, within m (handler e s)) ->
  within (n + m) (catch_proc p handler).
Proof.
  intros Hp Hf. induction Hp as [n [a|e] s|n s k _ IH]; cbn [catch_proc].
  - constructor.
  - apply (within_le m); [apply Hf | lia].
  - cbn [Nat.add]. constructor. exact IH.
Qed.

Lemma within_zoom {State T A} (proj : T -> State) (inj : State -> T -> T)
    (n : nat) (p : Proc State A) (t : T) :
  within n p -> within n (zoom_proc proj inj p t).
Proof.
  intros Hp. revert t. induction Hp as [n r s|n s k _ IH]; intros t;
    cbn [zoom_proc]; constructor. intros t'. apply IH.
Qed.

Lemma within_sync {State A} (n : nat) (m : M State A) (s : State) :
  within n (sync m s).
Proof. unfold sync. destruct (m s). constructor. Qed.

Lemma within_await {State A} (n : nat) (m : M State A) (s : State) :
  within (S n) (await m s).
Proof. unfold await. destruct (m s). constructor. intros s'. constructor. Qed.

End AsyncFacts.

(** ** The id of a profile *)

Module ProfileIdFacts.
Import Control Types Enrollment.

Local Abbreviation chars := String.list_ascii_of_string.
Local Abbreviation underscore :=
  (Ascii.Ascii true true true true true false true false).

Lemma pretty_N_go_no_underscore (x : N) (s : string) :
  underscore ∉ chars s -> underscore ∉ chars (pretty_N_go x s).
Proof.
  revert s. induction (N.lt_wf_0 x) as [x _ IH]; intros s Hs.
  destruct (decide (x = 0)%N) as [->|Hx]; [exact Hs|].
  rewrite pretty_N_go_step by lia. apply IH.
  - apply N.div_lt; lia.
  - cbn [String.list_ascii_of_string]. rewrite not_elem_of_cons.
    split; [|exact Hs].
    unfold pretty_N_char. repeat case_match; discriminate.
Qed.

Lemma pretty_Z_no_underscore (z : Z) : underscore ∉ chars (pretty z).
Proof.
  assert (Hpos : forall x : positive, underscore ∉ chars (pretty x)).
  { intros x. unfold pretty, pretty_positive, pretty, pretty_N.
    destruct (decide _); [discriminate|].
    apply pretty_N_go_no_underscore. cbn. apply not_elem_of_nil. }
  destruct z as [|x|x]; unfold pretty, pretty_Z.
  - cbn. rewrite not_elem_of_cons. split; [discriminate|apply not_elem_of_nil].
  - apply Hpos.
  - simpl. rewrite not_elem_of_cons. split; [discriminate | apply Hpos].
Qed.

(** Two texts without an underscore, each followed by an underscore and
    more text: if the wholes are equal, so are the parts. *)
Lemma split_at_underscore (u1 u2 v1 v2 : string) :
  underscore ∉ chars u1 -> underscore ∉ chars u2 ->
  u1 +:+ String underscore v1 = u2 +:+ String underscore v2 ->
  u1 = u2 /\ v1 = v2.
Proof.
  revert u2. induction u1 as [|c1 u1 IH]; intros [|c2 u2] H1 H2 Heq;
    cbn [String.append String.list_ascii_of_string] in *.
  - injection Heq as ->. auto.
  - injection Heq as <- _. rewrite not_elem_of_cons in H2. tauto.
  - injection Heq as -> _. rewrite not_elem_of_cons in H1. tauto.
  - injection Heq as -> Heq. rewrite not_elem_of_cons in H1, H2.
    destruct (IH u2 (proj2 H1) (proj2 H2) Heq) as [-> ->]. auto.
Qed.

(** The id built by [completeEnrollment] spells the clock reading and the
    random suffix: two ids are the same only if both are. *)
Lemma make_profile_id_inj (time1 time2 : Z) (suffix1 suffix2 : string)
    (name1 name2 : string) (voiceprint1 voiceprint2 : list Z) :
  id (make_profile time1 suffix1 name1 voiceprint1)
  = id (make_profile time2 suffix2 name2 voiceprint2) ->
  time1 = time2 /\ suffix1 = suffix2.
Proof.
  unfold make_profile. cbn [id]. intros Heq. simpl in Heq.
  injection Heq as Heq.
  destruct (split_at_underscore _ _ _ _ (pretty_Z_no_underscore time1)
              (pretty_Z_no_underscore time2) Heq) as [Htime ->].
  split; [apply (inj pretty); exact Htime | reflexivity].
Qed.

End ProfileIdFacts.

Module OverlapFacts.
Import JS Control Types Enrollment.

Section WithEngine.
Context {P R : Type}.
Variable engine : Eagle.Engine P R.
Variable props : Props.

Local Abbreviation App := (App P R).
Local Abbreviation World := (Overlap.World P R).
Local Abbreviation run := (Overlap.run engine props).
Local Abbreviation step := (Overlap.step engine props).

Local Ltac run_async :=
  unfold Async.bind, Async.try_catch, Async.ret, Async.throw, Async.zoom;
  cbn [Async.bind_proc Async.catch_proc Async.zoom_proc Async.force].

Local Ltac run_monad :=
  unfold bind, try_catch, gets, modify, ret, throw, when, zoom, outcome, final;
  cbn [fst snd].

(** ** Each method, when nothing happens while it is suspended *)

Lemma enrollAudio_uninterrupted (pcmData : list Z) (s : Eagle.Service P R) :
  Async.force (Overlap.enrollAudio engine pcmData s)
  = Eagle.enrollAudio engine pcmData s.
Proof.
  unfold Overlap.enrollAudio, Eagle.enrollAudio, Async.sync, Async.await.
  run_async. run_monad.
  destruct (Eagle.isInitialized s); cbn; [|reflexivity].
  destruct (Z.of_nat (length (Eagle.audioBuffer s ++ pcmData))
            <? Eagle.minBufferSize s); cbn; [reflexivity|].
  destruct (Eagle.profiler s) as [p|]; cbn; [|reflexivity].
  unfold Eagle.call_enroll.
  destruct (Eagle.enroll engine p (Eagle.audioBuffer s ++ pcmData))
    as [[result|e] p']; reflexivity.
Qed.

Lemma exportProfile_uninterrupted (s : Eagle.Service P R) :
  Async.force (Overlap.exportProfile engine s) = Eagle.exportProfile engine s.
Proof.
  unfold Overlap.exportProfile, Eagle.exportProfile, Async.sync, Async.await.
  run_async. run_monad.
  destruct (Eagle.isInitialized s); cbn; [|reflexivity].
  destruct (Eagle.profiler s) as [p|]; cbn; [|reflexivity].
  unfold Eagle.call_export.
  destruct (Eagle.export engine p) as [[bytes|e] p']; reflexivity.
Qed.

Lemma completeEnrollment_uninterrupted (a : App) :
  Async.force (Overlap.completeEnrollment engine props a)
  = completeEnrollment engine props a.
Proof.
  unfold Overlap.completeEnrollment, Enrollment.completeEnrollment.
  unfold Async.try_catch, Async.bind.
  rewrite AsyncFacts.force_catch, AsyncFacts.force_bind.
  unfold Overlap.eagle, Async.zoom.
  rewrite AsyncFacts.force_zoom by reflexivity.
  rewrite exportProfile_uninterrupted.
  unfold try_catch at 1. unfold bind at 1. unfold eagle at 1. unfold zoom at 1.
  destruct (Eagle.exportProfile engine (eagleService a)) as [[vp|e] s1];
    [|apply AsyncFacts.force_sync].
  unfold Async.sync at 1 2 3. unfold gets at 1 2 3.
  cbn [Async.bind_proc].
  rewrite AsyncFacts.force_bind.
  unfold Overlap.storage, Async.zoom.
  rewrite AsyncFacts.force_zoom by reflexivity.
  unfold Overlap.saveSpeakerProfile. rewrite AsyncFacts.force_await.
  unfold bind at 1 2 3 4. unfold gets at 1 2 3. unfold storage, zoom.
  cbn [now random speakerName speakerStorage set_eagleService].
  destruct (Storage.saveSpeakerProfile _ (speakerStorage a)) as [[[]|e] d1];
    [|apply AsyncFacts.force_sync].
  rewrite !AsyncFacts.force_bind, !AsyncFacts.force_sync.
  unfold setEnrollmentState, stopRecording, audio. run_monad.
  destruct (onEnrollmentComplete props); reflexivity.
Qed.

Lemma handleAudioData_uninterrupted (frame : list Z) (a : App) :
  Async.force (Overlap.handleAudioData engine props frame a)
  = handleAudioData engine props frame a.
Proof.
  unfold Overlap.handleAudioData, Enrollment.handleAudioData.
  unfold Async.bind at 1. unfold Async.sync at 1. unfold gets at 1.
  cbn [Async.bind_proc]. unfold bind at 1. unfold gets at 1.
  destruct (isEnrolling (enrollmentState a)); cbn [negb]; [|reflexivity].
  unfold Async.try_catch, Async.bind.
  rewrite AsyncFacts.force_catch, AsyncFacts.force_bind.
  unfold Overlap.eagle, Async.zoom.
  rewrite AsyncFacts.force_zoom by reflexivity.
  rewrite enrollAudio_uninterrupted.
  unfold try_catch at 1. unfold bind at 1. unfold eagle at 1. unfold zoom at 1.
  destruct (Eagle.enrollAudio engine frame (eagleService a))
    as [[result|e] s1]; [|apply AsyncFacts.force_sync].
  rewrite AsyncFacts.force_bind, AsyncFacts.force_sync.
  unfold bind at 1. unfold setEnrollmentState, modify. cbn [fst snd].
  destruct (Qle_bool 100 (Eagle.percentage result)); [|reflexivity].
  rewrite completeEnrollment_uninterrupted.
  match goal with
  | |- context [completeEnrollment engine props ?x] =>
      destruct (completeEnrollment engine props x) as [[[]|e] a2];
      [reflexivity | apply AsyncFacts.force_sync]
  end.
Qed.

(** The handler of a frame is suspended at most three times. *)
Lemma handleAudioData_within (frame : list Z) (a : App) :
  Async.within 3 (Overlap.handleAudioData engine props frame a).
Proof.
  assert (Henroll : forall s,
    Async.within 1 (Overlap.enrollAudio engine frame s)).
  { intros s. unfold Overlap.enrollAudio, Async.bind, Async.sync, gets.
    cbn [Async.bind_proc].
    destruct (negb (Eagle.isInitialized s)); [constructor|].
    unfold Async.try_catch. apply (AsyncFacts.within_catch 1 0);
      [|intros; constructor].
    unfold modify. cbn [Async.bind_proc].
    destruct (_ <? _); [constructor|].
    destruct (Eagle.profiler _) as [p|]; [|constructor].
    apply (AsyncFacts.within_bind 1 0); [apply AsyncFacts.within_await|].
    intros result s'. cbn [Async.bind_proc]. constructor. }
  assert (Hexport : forall s,
    Async.within 1 (Overlap.exportProfile engine s)).
  { intros s. unfold Overlap.exportProfile, Async.bind, Async.sync, gets.
    cbn [Async.bind_proc].
    destruct (negb (Eagle.isInitialized s)); [constructor|].
    unfold Async.try_catch. apply (AsyncFacts.within_catch 1 0);
      [|intros; constructor].
    destruct (Eagle.profiler _) as [p|]; [|constructor].
    apply (AsyncFacts.within_bind 1 0); [apply AsyncFacts.within_await|].
    intros bytes s'. constructor. }
  assert (Hcomplete : forall x,
    Async.within 2 (Overlap.completeEnrollment engine props x)).
  { intros x. unfold Overlap.completeEnrollment, Async.try_catch.
    apply (AsyncFacts.within_catch 2 0);
      [|intros; apply AsyncFacts.within_sync].
    unfold Async.bind. apply (AsyncFacts.within_bind 1 1).
    { apply AsyncFacts.within_zoom, Hexport. }
    intros voiceprint x1. unfold Async.sync at 1 2 3. unfold gets.
    cbn [Async.bind_proc].
    apply (AsyncFacts.within_bind 1 0).
    { apply AsyncFacts.within_zoom, AsyncFacts.within_await. }
    intros [] x2.
    repeat (apply (AsyncFacts.within_bind 0 0);
            [apply AsyncFacts.within_sync | intros [] ?]).
    apply AsyncFacts.within_sync. }
  unfold Overlap.handleAudioData, Async.bind at 1.
  unfold Async.sync at 1. unfold gets. cbn [Async.bind_proc].
  destruct (negb (isEnrolling (enrollmentState a))); [constructor|].
  unfold Async.try_catch. apply (AsyncFacts.within_catch 3 0);
    [|intros; apply AsyncFacts.within_sync].
  unfold Async.bind. apply (AsyncFacts.within_bind 1 2).
  { apply AsyncFacts.within_zoom, Henroll. }
  intros result x1.
  apply (AsyncFacts.within_bind 0 2); [apply AsyncFacts.within_sync|].
  intros [] x2.
  destruct (Qle_bool 100 (Eagle.percentage result));
    [apply Hcomplete | constructor].
Qed.

(** ** Schedules *)

Lemma run_app (events1 events2 : list Overlap.Event) (w : World) :
  run (events1 ++ events2) w = run events2 (run events1 w).
Proof. unfold Overlap.run. apply foldl_app. Qed.

(** A suspended handler that nothing interrupts: the completions of its
    calls take it to its end. *)
Lemma completes_alone (n : nat) (p : Async.Proc App unit) :
  Async.within n p ->
  run (replicate n (Overlap.Completes 0)) (Overlap.settle p [])
  = Overlap.idle (snd (Async.force p)).
Proof.
  intros Hp. induction Hp as [n r a|n a k _ IH].
  - cbn [Overlap.settle Async.force snd]. induction n as [|n IHn];
      [reflexivity|]. cbn [replicate]. exact IHn.
  - cbn [replicate Overlap.settle Async.force app].
    unfold Overlap.run. cbn [foldl]. apply IH.
Qed.

(** When the three calls a handler can wait for complete before anything
    else happens, the handler does what [Enrollment.handleAudioData]
    does, and no handler is left suspended. *)
Lemma handler_alone (frame : list Z) (a : App) :
  run (Overlap.alone [frame]) (Overlap.idle a)
  = Overlap.idle (final (handleAudioData engine props frame a)).
Proof.
  unfold Overlap.alone. cbn [flat_map app].
  change ([Overlap.Frame frame; Overlap.Completes 0; Overlap.Completes 0;
           Overlap.Completes 0])
    with ([Overlap.Frame frame] ++ replicate 3 (Overlap.Completes 0)).
  rewrite run_app.
  change (run [Overlap.Frame frame] (Overlap.idle a))
    with (Overlap.settle (Overlap.handleAudioData engine props frame a) []).
  rewrite (completes_alone 3) by apply handleAudioData_within.
  rewrite handleAudioData_uninterrupted. reflexivity.
Qed.

Lemma run_alone (frames : list (list Z)) (a : App) :
  run (Overlap.alone frames) (Overlap.idle a)
  = Overlap.idle (handleFrames engine props frames a).
Proof.
  revert a. induction frames as [|frame frames IH]; intros a;
    [reflexivity|].
  change (Overlap.alone (frame :: frames))
    with (Overlap.alone [frame] ++ Overlap.alone frames).
  rewrite run_app, handler_alone. cbn [handleFrames]. apply IH.
Qed.

(** Once the enrollment is over and no handler is suspended, frames and
    completions change nothing. *)
Lemma run_over (events : list Overlap.Event) (w : World) :
  isEnrolling (enrollmentState (Overlap.app w)) = false ->
  Overlap.pending w = [] ->
  Forall (fun e => Overlap.is_clock e = false) events ->
  run events w = w.
Proof.
  intros Hoff Hnone Hevents. induction Hevents as [|e events He _ IH];
    [reflexivity|].
  unfold Overlap.run. cbn [foldl]. fold (run events (step e w)).
  assert (Hstep : step e w = w).
  { destruct w as [a pool]. cbn in Hoff, Hnone. subst pool.
    destruct e as [frame|i|time suffix]; [| |discriminate].
    - unfold Overlap.step, Overlap.handleAudioData, Async.bind, Async.sync,
        gets. cbn. rewrite Hoff. reflexivity.
    - reflexivity. }
  rewrite Hstep. exact IH.
Qed.

(** ** At 100 percent *)

(** C6, as the code has it. When [enrollAudio] returns a percentage of
    100 or more for a frame handled during enrollment, and no other
    frame arrives while the handler of that frame is suspended, the
    completion runs once: the engine's [export] is called once, the
    recorder is stopped, the enrollment is over, no handler is left
    suspended and every later frame is ignored. If the export returns
    and the save succeeds, one profile is stored, made of the exported
    voiceprint, the typed name, the current time as both dates and the
    id [speaker_<time>_<random suffix>], an id that no completion at
    another clock reading or with another suffix builds; success is
    marked and [onEnrollmentComplete] receives the profile. If the
    export throws or the save fails, nothing is stored, success is not
    marked and the error is shown and passed to [onError]. *)
Theorem completion_at_100 (frame : list Z) (a : App)
    (result : Eagle.EnrollResult) (s1 : Eagle.Service P R) :
  isEnrolling (enrollmentState a) = true ->
  Eagle.enrollAudio engine frame (eagleService a) = (Ok result, s1) ->
  Qle_bool 100 (Eagle.percentage result) = true ->
  let w := run (Overlap.alone [frame]) (Overlap.idle a) in
  let a' := Overlap.app w in
  Overlap.pending w = []
  /\ Eagle.calls (eagleService a') = Eagle.calls s1 ++ [Eagle.CallExport]
  /\ count Eagle.is_export (Eagle.calls (eagleService a'))
     = S (count Eagle.is_export (Eagle.calls (eagleService a)))
  /\ isEnrolling (enrollmentState a') = false
  /\ Recorder.isRecording (recorder a') = false
  /\ count is_stop (events a') = S (count is_stop (events a))
  /\ (forall later,
        Forall (fun e => Overlap.is_clock e = false) later ->
        run later w = w)
  /\ (exists p : P,
        Eagle.profiler s1 = Some p
        /\ outcome (Eagle.exportProfile engine s1) =
             match fst (Eagle.export engine p) with
             | Ok profileBytes =>
                 Ok (Voiceprint.bytesToInt32Array profileBytes)
             | Throw error =>
                 Throw ("Profile export failed: " +:+ String_of_error error)
             end)
  /\ (forall voiceprint,
        outcome (Eagle.exportProfile engine s1) = Ok voiceprint ->
        let profile :=
          make_profile (now a) (random a) (speakerName a) voiceprint in
        outcome (Storage.saveSpeakerProfile profile (speakerStorage a))
          = Ok tt ->
        Storage.records (speakerStorage a')
          = <[id profile := Storage.profileToStore profile]>
              (Storage.records (speakerStorage a))
        /\ success (enrollmentState a') = true
        /\ events a' =
             events a ++ StopRecording
               :: (if onEnrollmentComplete props
                   then [OnEnrollmentComplete profile] else [])
               ++ [SetTimeout_resetForm]
        /\ (forall time suffix name' voiceprint',
              id (make_profile time suffix name' voiceprint') = id profile ->
              time = now a /\ suffix = random a))
  /\ (forall e,
        failure engine frame a = Some e ->
        speakerStorage a' = speakerStorage a
        /\ success (enrollmentState a') = success (enrollmentState a)
        /\ error (enrollmentState a') = Some e
        /\ events a' =
             events a ++ StopRecording
               :: (if onError props then [OnError e] else [])).
Proof.
  intros Hon Henroll Hfull. cbv zeta. rewrite handler_alone.
  cbn [Overlap.idle Overlap.app Overlap.pending].
  destruct (EnrollmentFacts.handleAudioData_at_100 engine props frame a
              result s1 Hon Henroll Hfull)
    as (Hcalls & Hcount & Hoff & Hrec & Hstop & _ & Hexport & Hsaved & Hfailed).
  split; [reflexivity|]. split; [exact Hcalls|]. split; [exact Hcount|].
  split; [exact Hoff|]. split; [exact Hrec|]. split; [exact Hstop|].
  split; [intros later Hlater; apply run_over;
          [exact Hoff | reflexivity | exact Hlater]|].
  split; [exact Hexport|]. split; [|exact Hfailed].
  intros voiceprint Hvoiceprint Hsave.
  destruct (Hsaved voiceprint Hvoiceprint Hsave) as (Hrecords & Hmark & Hev).
  split; [exact Hrecords|]. split; [exact Hmark|]. split; [exact Hev|].
  intros time suffix name' voiceprint' Hid.
  exact (ProfileIdFacts.make_profile_id_inj _ _ _ _ _ _ _ _ Hid).
Qed.

(** ** Over a session *)

(** Over the frames of a session in which every handler has ended before
    the next frame arrives, however many, the engine's [export] is called
    at most once: before the completion no frame reaches it, and after
    it, or after a failure, every frame is ignored. *)
Theorem session_exports_at_most_once (frames : list (list Z)) (a : App) :
  let w := run (Overlap.alone frames) (Overlap.idle a) in
  Overlap.pending w = []
  /\ (count Eagle.is_export (Eagle.calls (eagleService (Overlap.app w)))
      <= S (count Eagle.is_export (Eagle.calls (eagleService a))))%nat.
Proof.
  cbv zeta. rewrite run_alone. split; [reflexivity|].
  apply EnrollmentFacts.handleFrames_exports_at_most_once.
Qed.

End WithEngine.
End OverlapFacts.

(* ===================================================================== *)
(** * Worked examples                                                      *)
(* ===================================================================== *)

Module Examples.
Import JS Control Types Scenario.

(** A closed premise, settled by evaluation. *)
Local Ltac evaluate :=
  vm_compute;
  first [ reflexivity | discriminate
        | let H := fresh in intros H; discriminate H ].

(** ** The enrollment buffer (C1) *)



(** ** Below the threshold (C2) *)

Lemma collecting_reports_zero_witness :
  Enrollment.progress
    (Enrollment.enrollmentState
       (final (Enrollment.handleAudioData progressing both_callbacks
                 short_frame (enrolling progressing)))) = 0%Q.
Proof.
  pose proof (EnrollmentFacts.collecting_reports_zero progressing
                both_callbacks short_frame (enrolling progressing)
                ltac:(evaluate) ltac:(evaluate) ltac:(evaluate))
    as (_ & _ & _ & Hzero & _).
  exact Hzero.
Defined.

(** After a full buffer for which the engine reported 40 percent, the
    next frame, which is below the threshold, puts the progress back to
    0. *)
Lemma collecting_resets_progress :
  let a := final (Enrollment.handleAudioData progressing both_callbacks
                    second_of_audio (enrolling progressing)) in
  let a' := final (Enrollment.handleAudioData progressing both_callbacks
                     short_frame a) in
  Enrollment.isEnrolling (Enrollment.enrollmentState a) = true
  /\ Eagle.isInitialized (Enrollment.eagleService a) = true
  /\ Eagle.minBufferSize (Enrollment.eagleService a) = 16000
  /\ Z.of_nat (length (Eagle.audioBuffer (Enrollment.eagleService a)
                       ++ short_frame)) = 512
  /\ count Eagle.is_enroll (Eagle.calls (Enrollment.eagleService a)) = 1%nat
  /\ count Eagle.is_enroll (Eagle.calls (Enrollment.eagleService a')) = 1%nat
  /\ Enrollment.progress (Enrollment.enrollmentState a) = 40%Q
  /\ Enrollment.progress (Enrollment.enrollmentState a') = 0%Q
  /\ Enrollment.progress (Enrollment.enrollmentState a')
     <> Enrollment.progress (Enrollment.enrollmentState a).
Proof. vm_compute. repeat split. discriminate. Qed.

(** ** When a call fails (C3) *)



(** ** At 100 percent (C6) *)

Lemma completion_at_100_witness :
  let w := Overlap.run completing both_callbacks
             (Overlap.alone [second_of_audio])
             (Overlap.idle (enrolling completing)) in
  Overlap.pending w = []
  /\ Storage.records (Enrollment.speakerStorage (Overlap.app w))
     = <["speaker_1700000000000_k3j9x0q2a" :=
           {| Storage.stored_id := "speaker_1700000000000_k3j9x0q2a";
              Storage.stored_name := "Alice";
              Storage.stored_voiceprint := [16909060; -939524096];
              Storage.stored_createdAt := Storage.ISO 1700000000000;
              Storage.stored_lastUpdated := Storage.ISO 1700000000000 |}]> ∅
  /\ Overlap.run completing both_callbacks
       [Overlap.Frame second_of_audio; Overlap.Completes 0] w = w.
Proof.
  cbv zeta.
  pose proof (OverlapFacts.completion_at_100 completing both_callbacks
                second_of_audio (enrolling completing) (percent 100)
                (final (Eagle.enrollAudio completing second_of_audio
                          (Enrollment.eagleService (enrolling completing))))
                ltac:(evaluate) ltac:(evaluate) ltac:(evaluate))
    as (Hnone & _ & _ & _ & _ & _ & Hlater & _ & Hsaved & _).
  destruct (Hsaved [16909060; -939524096] ltac:(evaluate) ltac:(evaluate))
    as (Hrecords & _).
  split; [exact Hnone|]. split.
  - rewrite Hrecords. vm_compute. reflexivity.
  - apply Hlater. repeat constructor.
Defined.

(** Three runs in which the claim fails. The engine reports 100 percent
    and its [export] throws: the export was called once, and no profile
    is stored, success is not marked and [onEnrollmentComplete] is not
    called. A second frame arrives while the handler of the first waits
    for the engine: the engine is sent the first frame twice, both
    handlers run the completion, the export is called twice, and the
    second save is refused by the index on the name. Two enrollments
    read the same clock and the same random text: the ids are the same,
    and Bob's profile replaces Alice's. *)
Lemma completion_at_100_counterexamples :
  (let a := enrolling export_throwing in
   let a' := final (Enrollment.handleAudioData export_throwing both_callbacks
                      second_of_audio a) in
   Enrollment.isEnrolling (Enrollment.enrollmentState a) = true
   /\ outcome (Eagle.enrollAudio export_throwing second_of_audio
                 (Enrollment.eagleService a)) = Ok (percent 100)
   /\ count Eagle.is_export (Eagle.calls (Enrollment.eagleService a')) = 1%nat
   /\ map_to_list (Storage.records (Enrollment.speakerStorage a')) = []
   /\ Enrollment.success (Enrollment.enrollmentState a') = false
   /\ count Enrollment.is_complete (Enrollment.events a') = 0%nat
   /\ Enrollment.error (Enrollment.enrollmentState a')
      = Some "Profile export failed: Error: Invalid state")
  /\ (let w := Overlap.run completing both_callbacks overlapping
                 (Overlap.idle (enrolling completing)) in
      let a' := Overlap.app w in
      Overlap.pending w = []
      /\ Eagle.enrolled_buffers (Eagle.calls (Enrollment.eagleService a'))
         = [second_of_audio; second_of_audio ++ short_frame]
      /\ count Eagle.is_export (Eagle.calls (Enrollment.eagleService a'))
         = 2%nat
      /\ count Enrollment.is_stop (Enrollment.events a') = 2%nat
      /\ count Enrollment.is_complete (Enrollment.events a') = 1%nat
      /\ count Enrollment.is_error (Enrollment.events a') = 1%nat
      /\ Enrollment.success (Enrollment.enrollmentState a') = true
      /\ Enrollment.error (Enrollment.enrollmentState a')
         = Some "Failed to save speaker profile"
      /\ length (map_to_list
                   (Storage.records (Enrollment.speakerStorage a'))) = 1%nat)
  /\ (Storage.stored_name
        <$> Storage.records (Enrollment.speakerStorage alice_enrolled)
              !! "speaker_1700000000000_k3j9x0q2a" = Some "Alice"
      /\ Enrollment.success (Enrollment.enrollmentState bob_enrolled) = true
      /\ Storage.stored_name
           <$> Storage.records (Enrollment.speakerStorage bob_enrolled)
                 !! "speaker_1700000000000_k3j9x0q2a" = Some "Bob"
      /\ outcome (Storage.getSpeakerByName "Alice"
                    (Enrollment.speakerStorage bob_enrolled)) = Ok None
      /\ length (map_to_list
                   (Storage.records (Enrollment.speakerStorage bob_enrolled)))
         = 1%nat).
Proof. vm_compute. repeat split. Qed.

(** ** Recognition (C4, C5, C7) *)

Lemma recognizeAudio_frame_length_witness :
  length (Eagle.adjust_frame
            (Eagle.expectedFrameLength completing 0%nat) [1; 2; 3])
    = 512%nat
  /\ length (Eagle.adjust_frame
               (Eagle.expectedFrameLength completing 0%nat)
               (replicate 600 5))
     = 512%nat.
Proof.
  pose proof (EagleFacts.recognizeAudio_frame_length completing [1; 2; 3]
                (Recognition.eagleService (recognizing completing)) 0%nat
                ltac:(evaluate) ltac:(evaluate))
    as (_ & Hshort & _).
  pose proof (EagleFacts.recognizeAudio_frame_length completing
                (replicate 600 5)
                (Recognition.eagleService (recognizing completing)) 0%nat
                ltac:(evaluate) ltac:(evaluate))
    as (_ & Hlong & _).
  split; [exact Hshort | exact Hlong].
Defined.

Lemma recognizeAudio_best_match_witness :
  exists (result : Eagle.RecognizeResult) (k : nat) (profile : SpeakerProfile),
    outcome (Eagle.recognizeAudio completing short_frame
               (Recognition.eagleService (recognizing completing)))
      = Ok result
    /\ [9 # 10; 3 # 10] !! k = Some (Eagle.confidence result)
    /\ Eagle.enrolledProfiles
         (Recognition.eagleService (recognizing completing)) !! k
       = Some profile.
Proof.
  assert (Hscores : Forall (fun x => (-1 < x)%Q) [9 # 10; 3 # 10])
    by (repeat first [apply Forall_nil_2
                     | apply Forall_cons_2; [reflexivity|]]).
  destruct (EagleFacts.recognizeAudio_best_match completing short_frame
              (Recognition.eagleService (recognizing completing))
              0%nat 1%nat [9 # 10; 3 # 10]
              ltac:(evaluate) ltac:(evaluate) ltac:(evaluate)
              ltac:(discriminate) Hscores ltac:(evaluate))
    as (result & k & profile & H1 & _ & H3 & _ & _ & H6 & _).
  exists result, k, profile. auto.
Defined.

Example recognition_scenarios :
  Eagle.best_match [9 # 10; 3 # 10]
    = {| Eagle.speakerIndex := 0; Eagle.confidence := 9 # 10 |}
  /\ Eagle.best_match [4 # 10; 2 # 10]
     = {| Eagle.speakerIndex := -1; Eagle.confidence := 4 # 10 |}
  /\ Eagle.best_match [0%Q; 0%Q; 0%Q]
     = {| Eagle.speakerIndex := -1; Eagle.confidence := 0 |}
  /\ Recognition.identifiedSpeaker
       (Recognition.recognitionState
          (final (Recognition.handleAudioData completing
                    both_recognition_callbacks short_frame
                    (recognizing completing))))
     = Some "Alice"
  /\ Recognition.identifiedSpeaker
       (Recognition.recognitionState
          (final (Recognition.handleAudioData unsure
                    both_recognition_callbacks short_frame
                    (recognizing unsure))))
     = Some "Unknown".
Proof. vm_compute. repeat split. Qed.

Lemma recognition_failure_continues_witness :
  Recognition.isRecognizing
    (Recognition.recognitionState
       (final (Recognition.handleAudioData process_throwing
                 both_recognition_callbacks short_frame
                 (recognizing process_throwing)))) = true
  /\ Recorder.isRecording
       (Recognition.recorder
          (final (Recognition.handleAudioData process_throwing
                    both_recognition_callbacks short_frame
                    (recognizing process_throwing)))) = true.
Proof.
  pose proof (RecognitionFacts.recognition_failure_continues process_throwing
                both_recognition_callbacks short_frame
                (recognizing process_throwing)
                "Recognition failed: Error: Invalid argument"
                ltac:(evaluate) ltac:(evaluate))
    as (_ & _ & Hon & _ & _ & Hrec & _).
  split; [exact Hon|]. rewrite Hrec. evaluate.
Defined.

(** ** The profile store (C8) *)

Lemma save_load_round_trip_witness :
  exists byId byName : SpeakerProfile,
    outcome (Storage.getSpeakerProfile "speaker_1_a"
               (final (Storage.saveSpeakerProfile alice empty_db)))
      = Ok (Some byId)
    /\ outcome (Storage.getSpeakerByName "Alice"
                  (final (Storage.saveSpeakerProfile alice empty_db)))
       = Ok (Some byName)
    /\ voiceprint byId = [16909060; -2] /\ name byId = "Alice"
    /\ voiceprint byName = [16909060; -2] /\ name byName = "Alice"
    /\ createdAt byId = 1 /\ lastUpdated byId = 1
    /\ createdAt byName = 1 /\ lastUpdated byName = 1.
Proof.
  assert (Hint : Forall is_int32 (voiceprint alice))
    by (repeat first [apply Forall_nil_2
                     | apply Forall_cons_2; [unfold is_int32; lia|]]).
  destruct (StorageFacts.save_load_round_trip alice empty_db Hint
              ltac:(evaluate))
    as (byId & byName & H1 & H2 & H3 & H4 & _ & H6 & H7 & _
        & H9 & H10 & H11 & H12 & _).
  exists byId, byName. repeat split; assumption.
Defined.

End Examples.

(* ===================================================================== *)
(** * More facts: the voiceprint conversions                               *)
(* ===================================================================== *)

Module CodecFacts.
Import JS Voiceprint VoiceprintFacts.

Lemma ToUint8_range z : is_uint8 (ToUint8 z).
Proof.
  unfold is_uint8, ToUint8.
  pose proof (Z.mod_pos_bound z (2 ^ 8) ltac:(lia)). lia.
Qed.

Lemma bytes_of_word_uint8 (w : Z) : Forall is_uint8 (bytes_of_word w).
Proof.
  unfold bytes_of_word.
  repeat first [apply Forall_nil_2 | apply Forall_cons_2; [apply ToUint8_range|]].
Qed.

Lemma bytesToInt32Array_int32 (bs : list Z) :
  Forall is_int32 (bytesToInt32Array bs).
Proof.
  rewrite bytesToInt32Array_spec. apply Forall_fmap, Forall_forall.
  intros k _. unfold word_at. apply ToInt32_range.
Qed.

(** Whatever integers they are given, the two conversions produce arrays
    of the typed-array kind they are stored in, of the lengths the source
    allocates: [ceil(n / 4)] words of 32 bits for [n] bytes, and [4 n]
    bytes for [n] words. *)
Lemma conversions_well_formed (profileBytes int32Array : list Z) :
  length (bytesToInt32Array profileBytes) = ceil_div4 (length profileBytes)
  /\ Forall is_int32 (bytesToInt32Array profileBytes)
  /\ length (int32ArrayToBytes int32Array) = (4 * length int32Array)%nat
  /\ Forall is_uint8 (int32ArrayToBytes int32Array).
Proof.
  repeat split.
  - rewrite bytesToInt32Array_spec, length_fmap, length_seq. reflexivity.
  - apply bytesToInt32Array_int32.
  - rewrite int32ArrayToBytes_spec. apply flat_map_bytes_length.
  - rewrite int32ArrayToBytes_spec.
    induction int32Array as [|w ws IH]; [apply Forall_nil_2|].
    cbn [flat_map]. apply Forall_app. split; [apply bytes_of_word_uint8|exact IH].
Qed.

(** Packing loses nothing: two byte sequences of the same length with the
    same packed form are the same sequence. *)
Theorem bytesToInt32Array_injective (bytes1 bytes2 : list Z) :
  Forall is_uint8 bytes1 -> Forall is_uint8 bytes2 ->
  length bytes1 = length bytes2 ->
  bytesToInt32Array bytes1 = bytesToInt32Array bytes2 ->
  bytes1 = bytes2.
Proof.
  intros H1 H2 Hlen Hpack.
  apply (f_equal int32ArrayToBytes) in Hpack.
  rewrite !unpack_pack_padded in Hpack by assumption.
  rewrite Hlen in Hpack. eapply app_inv_tail. exact Hpack.
Qed.

End CodecFacts.

(* ===================================================================== *)
(** * More facts: audio capture                                            *)
(* ===================================================================== *)

Module CaptureFacts.
Import JS Control Recorder RecorderFacts.

Local Ltac Zify.zify_post_hook ::= Z.to_euclidean_division_equations.

(** ** The conversion of finite samples *)

(** The clamp of a finite sample, case by case. *)
Lemma clamp_finite (q : Q) :
  clamp (Finite q) =
    Finite (if Qle_bool 1 q then 1
            else if Qle_bool q (-1) then -1 else q)%Q.
Proof.
  unfold clamp, Math_max, Math_min, lt.
  destruct (Qle_bool 1 q) eqn:H1; cbn; [reflexivity|].
  destruct (Qle_bool q (-1)); reflexivity.
Qed.

Lemma clamp_monotone (q1 q2 : Q) :
  (q1 <= q2)%Q ->
  exists c1 c2,
    clamp (Finite q1) = Finite c1 /\ clamp (Finite q2) = Finite c2
    /\ (-1 <= c1)%Q /\ (c1 <= c2)%Q /\ (c2 <= 1)%Q.
Proof.
  intros Hle. rewrite !clamp_finite. eexists. eexists.
  split; [reflexivity|]. split; [reflexivity|].
  destruct (Qle_bool 1 q1) eqn:A1; destruct (Qle_bool 1 q2) eqn:A2;
  destruct (Qle_bool q1 (-1)) eqn:B1; destruct (Qle_bool q2 (-1)) eqn:B2;
  repeat match goal with
  | H : Qle_bool _ _ = true |- _ => apply Qle_bool_iff in H
  | H : Qle_bool ?a ?b = false |- _ =>
      assert (~ (a <= b)%Q) by (rewrite <- Qle_bool_iff; congruence); clear H
  end;
  repeat split; lra.
Qed.

(** The scaled value of a clamped sample, as a rational. *)
Lemma scale_value (c : Q) :
  scale (Finite c) =
    Finite (if Qle_bool 0 c then c * inject_Z 32767 else c * inject_Z 32768)%Q.
Proof.
  unfold scale, lt. destruct (Qle_bool 0 c); reflexivity.
Qed.

Lemma truncate_monotone (q1 q2 : Q) :
  (q1 <= q2)%Q -> truncate q1 <= truncate q2.
Proof.
  unfold Qle, truncate. destruct q1 as [n1 d1], q2 as [n2 d2]. cbn.
  intros Hle.
  rewrite <- (Z.quot_mul_cancel_r n1 (Z.pos d1) (Z.pos d2)) by lia.
  rewrite <- (Z.quot_mul_cancel_r n2 (Z.pos d2) (Z.pos d1)) by lia.
  rewrite (Z.mul_comm (Z.pos d2) (Z.pos d1)).
  apply Z.quot_le_mono; lia.
Qed.

(** The stored value of a finite sample is the truncation of its scaled
    clamp. *)
Lemma convert_finite (q c : Q) :
  clamp (Finite q) = Finite c -> (-1 <= c <= 1)%Q ->
  convert_sample (Finite q) =
    truncate (if Qle_bool 0 c then c * inject_Z 32767
              else c * inject_Z 32768)%Q.
Proof.
  intros Hc Hrange. unfold convert_sample. rewrite Hc, scale_value.
  cbn [Int16Array_store]. apply ToInt16_id. unfold is_int16.
  apply truncate_bounds; [lia|].
  change (inject_Z 32767) with (32767 # 1)%Q.
  change (inject_Z 32768) with (32768 # 1)%Q.
  change (inject_Z (-32768)) with (-32768 # 1)%Q.
  destruct (Qle_bool 0 c) eqn:H0.
  - apply Qle_bool_iff in H0. split; lra.
  - assert (~ (0 <= c)%Q) by (rewrite <- Qle_bool_iff; congruence).
    split; lra.
Qed.

Lemma convert_sample_range (input : number) : is_int16 (convert_sample input).
Proof.
  unfold convert_sample, Int16Array_store.
  destruct (scale (clamp input)); try apply ToInt16_range;
    unfold is_int16; lia.
Qed.

(** The order of two finite samples after clamping, scaling and
    truncation. *)
Lemma convert_finite_order (q1 q2 : Q) :
  (q1 <= q2)%Q ->
  convert_sample (Finite q1) <= convert_sample (Finite q2).
Proof.
  intros Hle.
  destruct (clamp_monotone q1 q2 Hle) as (c1 & c2 & E1 & E2 & Hlo & Hmid & Hhi).
  rewrite (convert_finite q1 c1 E1) by (split; lra).
  rewrite (convert_finite q2 c2 E2) by (split; lra).
  apply truncate_monotone.
  change (inject_Z 32767) with (32767 # 1)%Q.
  change (inject_Z 32768) with (32768 # 1)%Q.
  destruct (Qle_bool 0 c1) eqn:H1; destruct (Qle_bool 0 c2) eqn:H2;
  repeat match goal with
  | H : Qle_bool _ _ = true |- _ => apply Qle_bool_iff in H
  | H : Qle_bool ?a ?b = false |- _ =>
      assert (~ (a <= b)%Q) by (rewrite <- Qle_bool_iff; congruence); clear H
  end; lra.
Qed.

(** The conversion keeps the order of the samples, the infinities
    included: a larger sample never becomes a smaller 16-bit value (no
    wrap-around, no change of sign), minus infinity gives the least value
    and plus infinity the greatest. *)
Theorem convert_sample_monotone (q1 q2 : Q) :
  (q1 <= q2)%Q ->
  convert_sample (Infinity true) <= convert_sample (Finite q1)
  /\ convert_sample (Finite q1) <= convert_sample (Finite q2)
  /\ convert_sample (Finite q2) <= convert_sample (Infinity false).
Proof.
  intros Hle.
  assert (Hlow : convert_sample (Infinity true) = -32768)
    by (vm_compute; reflexivity).
  assert (Hhigh : convert_sample (Infinity false) = 32767)
    by (vm_compute; reflexivity).
  pose proof (convert_sample_range (Finite q1)) as H1.
  pose proof (convert_sample_range (Finite q2)) as H2.
  pose proof (convert_finite_order q1 q2 Hle) as Horder.
  unfold is_int16 in H1, H2. rewrite Hlow, Hhigh. lia.
Qed.

(** Samples at or beyond full scale are clipped to the ends of the 16-bit
    range, silence stays silence, and the sign of a sample is kept. *)
Theorem convert_sample_clips (q : Q) :
  ((1 <= q)%Q -> convert_sample (Finite q) = 32767)
  /\ ((q <= -1)%Q -> convert_sample (Finite q) = -32768)
  /\ ((q == 0)%Q -> convert_sample (Finite q) = 0)
  /\ ((0 <= q)%Q -> 0 <= convert_sample (Finite q))
  /\ ((q <= 0)%Q -> convert_sample (Finite q) <= 0).
Proof.
  assert (H0 : convert_sample (Finite 0) = 0) by (vm_compute; reflexivity).
  assert (H1 : convert_sample (Finite 1) = 32767) by (vm_compute; reflexivity).
  assert (Hm : convert_sample (Finite (-1)) = -32768)
    by (vm_compute; reflexivity).
  pose proof (convert_sample_range (Finite q)) as Hrange.
  unfold is_int16 in Hrange.
  repeat split.
  - intros Hq. pose proof (convert_finite_order 1 q Hq). lia.
  - intros Hq. pose proof (convert_finite_order q (-1) Hq). lia.
  - intros Hq. apply Z.le_antisymm.
    + rewrite <- H0. apply convert_finite_order. rewrite Hq. apply Qle_refl.
    + rewrite <- H0. apply convert_finite_order. rewrite Hq. apply Qle_refl.
  - intros Hq. rewrite <- H0. apply convert_finite_order. exact Hq.
  - intros Hq. rewrite <- H0. apply convert_finite_order. exact Hq.
Qed.

(** ** Delivery of frames *)

Local Ltac run_monad :=
  unfold bind, try_catch, gets, modify, ret, throw, when, outcome, final;
  cbn [fst snd].

(** A frame reaches the consumer only while the recorder is recording,
    and then it has one 16-bit sample per input sample. Recording starts
    when the microphone is granted or the audio was set up before, and a
    refused microphone leaves the recorder as it was, with an error; after
    [stopRecording] nothing is delivered. *)
Theorem frames_delivered_while_recording (s : RecorderState)
    (inputData : list number) (microphone : bool) :
  onaudioprocess inputData (final (stopRecording s)) = None
  /\ (forall frame,
        onaudioprocess inputData s = Some frame ->
        isRecording s = true /\ frame = convert_block inputData
        /\ length frame = length inputData /\ Forall is_int16 frame)
  /\ (microphone || isInitialized s = true ->
      onaudioprocess inputData (final (startRecording microphone s))
      = Some (convert_block inputData))
  /\ (microphone || isInitialized s = false ->
      isRecording (final (startRecording microphone s)) = isRecording s
      /\ is_Some (error (final (startRecording microphone s)))).
Proof.
  split; [reflexivity|]. repeat split.
  - revert H. unfold onaudioprocess.
    destruct (isRecording s); [reflexivity|discriminate].
  - revert H. unfold onaudioprocess.
    destruct (isRecording s); [|discriminate]. intros [= <-]. reflexivity.
  - revert H. unfold onaudioprocess.
    destruct (isRecording s); [|discriminate]. intros [= <-].
    unfold convert_block. apply length_fmap.
  - revert H. unfold onaudioprocess.
    destruct (isRecording s); [|discriminate]. intros [= <-].
    unfold convert_block. apply Forall_fmap, Forall_forall.
    intros x _. apply convert_sample_range.
  - unfold startRecording, initializeAudio, onaudioprocess. run_monad.
    destruct (isInitialized s), microphone; cbn in *;
      try discriminate; reflexivity.
  - unfold startRecording, initializeAudio. run_monad.
    destruct (isInitialized s), microphone; cbn in *;
      try discriminate; reflexivity.
  - unfold startRecording, initializeAudio. run_monad.
    destruct (isInitialized s), microphone; cbn in *;
      try discriminate; eexists; reflexivity.
Qed.

(** ** The level shown while recording *)

Lemma level_sum_bounds (dataArray : list Z) (acc : Z) :
  Forall is_uint8 dataArray ->
  acc <= foldl (fun sum x => sum + x) acc dataArray
      <= acc + 255 * Z.of_nat (length dataArray).
Proof.
  intros Hall. revert acc.
  induction Hall as [|x l Hx _ IH]; intros acc; cbn [foldl length]; [lia|].
  specialize (IH (acc + x)). unfold is_uint8 in Hx. lia.
Qed.

(** The level computed from the analyser's bytes lies between 0 and 1, so
    the bar drawn from it never leaves its track. *)
Theorem normalizedLevel_bounds (dataArray : list Z) :
  Forall is_uint8 dataArray -> dataArray <> [] ->
  (0 <= normalizedLevel dataArray <= 1)%Q.
Proof.
  intros Hall Hne. unfold normalizedLevel, level_sum.
  pose proof (level_sum_bounds dataArray 0 Hall) as [Hlo Hhi].
  set (total := foldl (fun sum x => sum + x) 0 dataArray) in *.
  assert (Hlen : 0 < Z.of_nat (length dataArray))
    by (destruct dataArray; [contradiction | cbn [length]; lia]).
  set (n := Z.of_nat (length dataArray)) in *.
  assert (Hn : (0 < inject_Z n)%Q)
    by (change (inject_Z 0 < inject_Z n)%Q; rewrite <- Zlt_Qlt; exact Hlen).
  assert (Ht0 : (0 <= inject_Z total)%Q)
    by (change (inject_Z 0 <= inject_Z total)%Q; rewrite <- Zle_Qle;
        exact Hlo).
  assert (Ht1 : (inject_Z total <= 255 * inject_Z n)%Q).
  { change 255%Q with (inject_Z 255). rewrite <- inject_Z_mult, <- Zle_Qle. lia. }
  split.
  - apply Qle_shift_div_l; [reflexivity|]. rewrite Qmult_0_l.
    apply Qle_shift_div_l; [exact Hn|]. rewrite Qmult_0_l. exact Ht0.
  - apply Qle_shift_div_r; [reflexivity|]. rewrite Qmult_1_l.
    apply Qle_shift_div_r; [exact Hn|]. exact Ht1.
Qed.

End CaptureFacts.

(* ===================================================================== *)
(** * More facts: [EagleService] over sequences of calls                   *)
(* ===================================================================== *)

Module ServiceFacts.
Import JS Control Types Eagle.

Section WithEngine.
Context {P R : Type}.
Variable engine : Engine P R.

Local Ltac run_monad :=
  unfold bind, try_catch, gets, modify, ret, throw, when, outcome, final;
  cbn [fst snd].

(** ** Before initialization and after [cleanup] *)

Lemma exportProfile_not_initialized (s : Service P R) :
  isInitialized s = false ->
  exportProfile engine s =
    (Throw "Profiler not initialized. Call initializeProfiler() first.", s).
Proof.
  intros Hinit. unfold exportProfile. run_monad. rewrite Hinit. reflexivity.
Qed.

Lemma recognizeAudio_not_initialized (pcmData : list Z) (s : Service P R) :
  isInitialized s = false ->
  recognizeAudio engine pcmData s =
    (Throw "Recognizer not initialized. Call initializeRecognizer() first.", s).
Proof.
  intros Hinit. unfold recognizeAudio. run_monad. rewrite Hinit. reflexivity.
Qed.

(** On a service that is not initialized, the three audio methods throw
    their own message and change nothing: no sample is buffered and the
    engine is not called. *)
Theorem uninitialized_service_refuses (pcmData : list Z) (s : Service P R) :
  isInitialized s = false ->
  enrollAudio engine pcmData s =
    (Throw "Profiler not initialized. Call initializeProfiler() first.", s)
  /\ exportProfile engine s =
       (Throw "Profiler not initialized. Call initializeProfiler() first.", s)
  /\ recognizeAudio engine pcmData s =
       (Throw "Recognizer not initialized. Call initializeRecognizer() first.",
        s).
Proof.
  intros Hinit. split; [|split].
  - apply EagleFacts.enrollAudio_not_initialized. exact Hinit.
  - apply exportProfile_not_initialized. exact Hinit.
  - apply recognizeAudio_not_initialized. exact Hinit.
Qed.

(** [cleanup] drops both engine handles and the enrolled profiles: after
    it the audio methods refuse to run and every index maps to
    ["Unknown"]. It leaves the audio buffer, the minimum buffer size and
    the log as they were. *)
Lemma cleanup_closes_service (pcmData : list Z) (speakerIndex : Z)
    (s : Service P R) :
  let s' := final (cleanup s) in
  outcome (cleanup s) = Ok tt
  /\ profiler s' = None /\ recognizer s' = None
  /\ is_Throw (outcome (enrollAudio engine pcmData s')) = true
  /\ is_Throw (outcome (exportProfile engine s')) = true
  /\ is_Throw (outcome (recognizeAudio engine pcmData s')) = true
  /\ final (enrollAudio engine pcmData s') = s'
  /\ getSpeakerName speakerIndex s' = "Unknown"
  /\ audioBuffer s' = audioBuffer s
  /\ minBufferSize s' = minBufferSize s
  /\ calls s' = calls s.
Proof.
  cbv zeta.
  assert (Hoff : isInitialized (final (cleanup s)) = false) by reflexivity.
  rewrite (EagleFacts.enrollAudio_not_initialized engine pcmData _ Hoff).
  rewrite (exportProfile_not_initialized _ Hoff).
  rewrite (recognizeAudio_not_initialized pcmData _ Hoff).
  repeat split.
  unfold getSpeakerName. cbn.
  repeat match goal with
  | |- context [if ?b then _ else _] => destruct b
  end; reflexivity.
Qed.

(** ** [initializeProfiler] *)

(** A profiler that cannot be created leaves the service as it was (the
    old handle, the initialized flag, the buffer and the threshold), and
    the error is rethrown under the service's own message. A created
    profiler replaces the old one and can only raise the threshold. *)
Lemma initializeProfiler_outcome (s : Service P R) :
  let s' := final (initializeProfiler engine s) in
  calls s' = calls s ++ [CallCreateProfiler]
  /\ audioBuffer s' = audioBuffer s
  /\ minBufferSize s <= minBufferSize s'
  /\ match EagleProfiler_create engine with
     | Ok p =>
         outcome (initializeProfiler engine s) = Ok tt
         /\ profiler s' = Some p /\ isInitialized s' = true
         /\ minBufferSize s' =
              (if minEnrollSamples engine p =? 0 then minBufferSize s
               else Z.max (minBufferSize s) (minEnrollSamples engine p))
     | Throw e =>
         outcome (initializeProfiler engine s)
           = Throw ("Eagle profiler initialization failed: Error: " +:+ e)
         /\ profiler s' = profiler s /\ isInitialized s' = isInitialized s
         /\ minBufferSize s' = minBufferSize s
     end.
Proof.
  cbv zeta. unfold initializeProfiler, call_create_profiler. run_monad.
  destruct (EagleProfiler_create engine) as [p|e]; cbn.
  - destruct (minEnrollSamples engine p =? 0); cbn; repeat split; lia.
  - repeat split. lia.
Qed.

(** ** The index of a score and the profile it stands for *)

(** [initializeRecognizer] hands the engine the voiceprints of the given
    profiles, unpacked to bytes, in the order of the list, and keeps that
    list: afterwards [getSpeakerName] maps position [k] to the name of the
    [k]-th profile and every other index to ["Unknown"]. The list is
    replaced even when the engine refuses to create the recognizer, in
    which case the old recognizer and the initialized flag stay. *)
Theorem recognizer_index_mapping (profiles : list SpeakerProfile)
    (s : Service P R) :
  let s' := final (initializeRecognizer engine profiles s) in
  let eagleProfiles :=
    (fun profile => Voiceprint.int32ArrayToBytes (voiceprint profile))
      <$> profiles in
  calls s' = calls s ++ [CallCreateRecognizer eagleProfiles]
  /\ length eagleProfiles = length profiles
  /\ enrolledProfiles s' = profiles
  /\ (forall k profile,
        profiles !! k = Some profile ->
        eagleProfiles !! k
          = Some (Voiceprint.int32ArrayToBytes (voiceprint profile))
        /\ getSpeakerName (Z.of_nat k) s' = name profile)
  /\ (forall i,
        i < 0 \/ Z.of_nat (length profiles) <= i ->
        getSpeakerName i s' = "Unknown")
  /\ match Eagle_create engine eagleProfiles with
     | Ok r =>
         outcome (initializeRecognizer engine profiles s) = Ok tt
         /\ recognizer s' = Some r /\ isInitialized s' = true
     | Throw e =>
         outcome (initializeRecognizer engine profiles s)
           = Throw ("Eagle recognizer initialization failed: Error: " +:+ e)
         /\ recognizer s' = recognizer s
         /\ isInitialized s' = isInitialized s
     end.
Proof.
  cbv zeta.
  assert (Hprofiles :
    enrolledProfiles (final (initializeRecognizer engine profiles s))
    = profiles
    /\ calls (final (initializeRecognizer engine profiles s))
       = calls s ++ [CallCreateRecognizer
                       ((fun profile =>
                           Voiceprint.int32ArrayToBytes (voiceprint profile))
                          <$> profiles)]).
  { unfold initializeRecognizer, call_create_recognizer. run_monad.
    destruct (Eagle_create engine _); cbn; split; reflexivity. }
  destruct Hprofiles as [Hlist Hcalls].
  split; [exact Hcalls|]. split; [apply length_fmap|].
  split; [exact Hlist|]. split; [|split].
  - intros k profile Hk. split.
    + rewrite list_lookup_fmap, Hk. reflexivity.
    + apply EagleFacts.getSpeakerName_index. rewrite Hlist. exact Hk.
  - intros i Hi. unfold getSpeakerName. rewrite Hlist.
    destruct (Z.leb_spec 0 i); [|reflexivity].
    destruct (Z.ltb_spec i (Z.of_nat (length profiles))); [lia|reflexivity].
  - unfold initializeRecognizer, call_create_recognizer. run_monad.
    destruct (Eagle_create engine _); cbn; repeat split.
Qed.

(** ** The decision on any score vector *)

(** Whatever the engine returns, the decision is either no match, with
    index [-1], or a position of the score vector that holds the returned
    confidence, which is then at least the threshold [0.5]. *)
Theorem best_match_in_bounds (scores : list Q) :
  let result := best_match scores in
  speakerIndex result = -1
  \/ exists k : nat,
       speakerIndex result = Z.of_nat k
       /\ scores !! k = Some (confidence result)
       /\ (1 # 2 <= confidence result)%Q.
Proof.
  cbv zeta. unfold best_match.
  destruct (EagleFacts.scores_loop_spec scores 0 (-1) (-1)) as [_ Hcase].
  cbv zeta in Hcase.
  destruct (scores_loop scores 0 (-1) (-1)) as [maxScore index].
  cbn [fst snd] in Hcase. cbn [speakerIndex confidence].
  destruct (EagleFacts.Qltb_spec maxScore confidenceThreshold) as [Hlow|Hhigh];
    [left; reflexivity|].
  destruct Hcase as [[Hsame _]|(k & Hk & Hidx & _)].
  - left. congruence.
  - right. exists k. repeat split; [lia | exact Hk |].
    apply Qnot_lt_le. exact Hhigh.
Qed.

(** ** The enrollment buffer over several frames *)

(** Frames that together stay below the threshold are only collected:
    the buffer grows by their samples, in arrival order, and nothing else
    changes. The frame that reaches the threshold sends the engine, in one
    call, every sample collected since the buffer was last emptied,
    followed by its own. *)
Theorem frames_accumulate_in_order (frames : list (list Z))
    (s : Service P R) :
  isInitialized s = true ->
  Z.of_nat (length (audioBuffer s ++ concat frames)) < minBufferSize s ->
  let s' := perform_all engine (OpEnrollAudio <$> frames) s in
  s' = set_audioBuffer (audioBuffer s ++ concat frames) s
  /\ forall (last : list Z) (p : P),
       profiler s = Some p ->
       minBufferSize s
         <= Z.of_nat (length (audioBuffer s ++ concat frames ++ last)) ->
       calls (final (enrollAudio engine last s'))
       = calls s ++ [CallEnroll (audioBuffer s ++ concat frames ++ last)].
Proof.
  intros Hinit Hlt.
  assert (Hrun : perform_all engine (OpEnrollAudio <$> frames) s
                 = set_audioBuffer (audioBuffer s ++ concat frames) s).
  { revert s Hinit Hlt. induction frames as [|frame frames IH];
      intros s Hinit Hlt.
    - cbn. rewrite app_nil_r. destruct s; reflexivity.
    - cbn [fmap list_fmap perform_all perform concat] in *.
      fold (fmap (M:=list) OpEnrollAudio frames).
      rewrite EagleFacts.enrollAudio_collecting;
        [|exact Hinit
         |rewrite !length_app in *; lia].
      cbn [final snd]. rewrite IH.
      + cbn [audioBuffer set_audioBuffer]. rewrite <- app_assoc. reflexivity.
      + exact Hinit.
      + cbn [audioBuffer set_audioBuffer minBufferSize].
        rewrite <- app_assoc. exact Hlt. }
  cbv zeta. split; [exact Hrun|]. intros last p Hp Hge. rewrite Hrun.
  rewrite (EagleFacts.enrollAudio_forwarded engine last _ p);
    cbn [audioBuffer set_audioBuffer minBufferSize profiler isInitialized];
    try assumption.
  - rewrite <- app_assoc.
    destruct (fst (enroll engine p _)); reflexivity.
  - rewrite <- app_assoc. exact Hge.
Qed.

(** ** What the engine's [enroll] is never given *)

Lemma enrolled_buffers_app (l1 l2 : list Call) :
  enrolled_buffers (l1 ++ l2) = enrolled_buffers l1 ++ enrolled_buffers l2.
Proof.
  induction l1 as [|c l1 IH]; [reflexivity|].
  destruct c; cbn [app enrolled_buffers]; rewrite IH; reflexivity.
Qed.

(** One call: the threshold does not go down, and a buffer given to
    [enroll] has reached it. *)
Lemma perform_step (op : Op) (s : Service P R) :
  minBufferSize s <= minBufferSize (perform engine op s)
  /\ exists l,
       enrolled_buffers (calls (perform engine op s))
       = enrolled_buffers (calls s) ++ l
       /\ Forall (fun pcm => minBufferSize s <= Z.of_nat (length pcm)) l.
Proof.
  destruct op; cbn [perform].
  - unfold initializeProfiler, call_create_profiler. run_monad.
    destruct (EagleProfiler_create engine) as [p|e]; cbn;
      [destruct (minEnrollSamples engine p =? 0); cbn|];
      (split; [lia|]); exists []; rewrite enrolled_buffers_app;
      (split; [reflexivity | apply Forall_nil_2]).
  - unfold initializeRecognizer, call_create_recognizer. run_monad.
    destruct (Eagle_create engine _); cbn;
      (split; [lia|]); exists []; rewrite enrolled_buffers_app;
      (split; [reflexivity | apply Forall_nil_2]).
  - destruct (isInitialized s) eqn:Hinit.
    + destruct (Z.lt_ge_cases (Z.of_nat (length (audioBuffer s ++ pcmData)))
                  (minBufferSize s)) as [Hlt|Hge].
      * rewrite EagleFacts.enrollAudio_collecting by assumption. cbn.
        split; [lia|]. exists []. rewrite app_nil_r.
        split; [reflexivity | apply Forall_nil_2].
      * destruct (profiler s) as [p|] eqn:Hp.
        -- rewrite (EagleFacts.enrollAudio_forwarded engine _ _ p)
             by assumption.
           destruct (fst (enroll engine p _)); cbn;
             (split; [lia|]); exists [audioBuffer s ++ pcmData];
             rewrite enrolled_buffers_app;
             (split; [reflexivity
                     | apply Forall_cons_2; [exact Hge | apply Forall_nil_2]]).
        -- rewrite EagleFacts.enrollAudio_no_profiler by assumption. cbn.
           split; [lia|]. exists []. rewrite app_nil_r.
           split; [reflexivity | apply Forall_nil_2].
    + rewrite EagleFacts.enrollAudio_not_initialized by assumption. cbn.
      split; [lia|]. exists []. rewrite app_nil_r.
      split; [reflexivity | apply Forall_nil_2].
  - unfold exportProfile, call_export. run_monad.
    destruct (isInitialized s); cbn;
      [destruct (profiler s) as [p|]; cbn;
       [destruct (export engine p) as [[bytes|e] p']; cbn|]|];
      (split; [lia|]); exists [];
      rewrite ?enrolled_buffers_app, ?app_nil_r;
      (split; [reflexivity | apply Forall_nil_2]).
  - unfold resetProfiler, call_reset. run_monad.
    destruct (profiler s) as [p|]; cbn;
      (split; [lia|]); exists [];
      rewrite ?enrolled_buffers_app, ?app_nil_r;
      (split; [reflexivity | apply Forall_nil_2]).
  - cbn. split; [lia|]. exists []. rewrite app_nil_r.
    split; [reflexivity | apply Forall_nil_2].
  - unfold recognizeAudio, call_process. run_monad.
    destruct (isInitialized s); cbn;
      [destruct (recognizer s) as [r|]; cbn;
       [destruct (process engine r _) as [[scores|e] r']; cbn|]|];
      (split; [lia|]); exists [];
      rewrite ?enrolled_buffers_app, ?app_nil_r;
      (split; [reflexivity | apply Forall_nil_2]).
  - cbn. split; [lia|]. exists []. rewrite app_nil_r.
    split; [reflexivity | apply Forall_nil_2].
Qed.

Lemma perform_all_invariant (ops : list Op) (s : Service P R) (floor : Z) :
  floor <= minBufferSize s ->
  Forall (fun pcm => floor <= Z.of_nat (length pcm))
    (enrolled_buffers (calls s)) ->
  floor <= minBufferSize (perform_all engine ops s)
  /\ Forall (fun pcm => floor <= Z.of_nat (length pcm))
       (enrolled_buffers (calls (perform_all engine ops s))).
Proof.
  revert s. induction ops as [|op ops IH]; intros s Hmin Hall;
    cbn [perform_all]; [split; assumption|].
  destruct (perform_step op s) as (Hup & l & Hl & Hnew).
  apply IH; [lia|]. rewrite Hl. apply Forall_app. split; [exact Hall|].
  eapply Forall_impl; [exact Hnew|]. cbn. intros pcm Hpcm. lia.
Qed.

(** Whatever methods are called on a new service, in whatever order and
    whatever they return or throw, the threshold stays at 16000 samples
    or more (one second of audio) and every buffer the engine's [enroll]
    receives has at least that many samples. *)
Theorem enroll_never_below_one_second (ops : list Op) :
  let s := perform_all engine ops new_EagleService in
  16000 <= minBufferSize s
  /\ Forall (fun pcm => 16000 <= Z.of_nat (length pcm))
       (enrolled_buffers (calls s)).
Proof.
  cbv zeta. apply perform_all_invariant; cbn; [lia | apply Forall_nil_2].
Qed.

End WithEngine.
End ServiceFacts.

(* ===================================================================== *)
(** * More facts: the profile store                                        *)
(* ===================================================================== *)

Module StoreFacts.
Import JS Control Types Storage.

Local Ltac run_monad :=
  unfold bind, try_catch, gets, modify, ret, throw, when, outcome, final;
  cbn [fst snd].

(** ** The unique index *)

Lemma store_put_fresh_name (value : StoredProfile)
    (m m' : gmap string StoredProfile) :
  store_put value m = Some m' ->
  m' = <[stored_id value := value]> m
  /\ forall k r, m !! k = Some r -> k <> stored_id value ->
                 stored_name r <> stored_name value.
Proof.
  unfold store_put, name_taken.
  destruct (bool_decide _) eqn:Htaken; [discriminate|].
  apply bool_decide_eq_false in Htaken. intros [= <-].
  split; [reflexivity|]. intros k r Hk Hne Hname.
  apply Htaken. exists k, r. auto.
Qed.

Lemma store_put_taken (value : StoredProfile) (m : gmap string StoredProfile)
    (k : string) (r : StoredProfile) :
  m !! k = Some r -> k <> stored_id value ->
  stored_name r = stored_name value ->
  store_put value m = None.
Proof.
  intros Hk Hne Hname. unfold store_put, name_taken.
  rewrite bool_decide_eq_true_2; [reflexivity|]. exists k, r. auto.
Qed.

(** A profile whose name is already stored under another id is refused:
    the save throws and the database is left as it was. *)
Theorem duplicate_name_rejected (profile : SpeakerProfile) (db : DB)
    (key : string) (other : StoredProfile) :
  available db = true ->
  records db !! key = Some other ->
  key <> id profile ->
  stored_name other = name profile ->
  saveSpeakerProfile profile db = (Throw "Failed to save speaker profile", db).
Proof.
  intros Hav Hk Hne Hname. unfold saveSpeakerProfile, init. run_monad.
  rewrite Hav. cbn [fst snd].
  rewrite (store_put_taken (profileToStore profile) (records db) key other);
    auto.
Qed.

(** ** What the store keeps true *)

Lemma insert_keeps_invariants (value : StoredProfile)
    (m m' : gmap string StoredProfile) :
  store_put value m = Some m' ->
  keyed_by_id m -> unique_names m ->
  keyed_by_id m' /\ unique_names m'.
Proof.
  intros Hput Hkeys Hnames.
  destruct (store_put_fresh_name _ _ _ Hput) as [-> Hfresh]. split.
  - intros k r Hk. destruct (decide (k = stored_id value)) as [->|Hne].
    + rewrite lookup_insert_eq in Hk. congruence.
    + rewrite lookup_insert_ne in Hk by congruence. eapply Hkeys; eassumption.
  - intros k1 k2 r1 r2 H1 H2 Hname.
    destruct (decide (k1 = stored_id value)) as [->|Hne1];
      destruct (decide (k2 = stored_id value)) as [->|Hne2];
      try reflexivity.
    + rewrite lookup_insert_eq in H1. injection H1 as <-.
      rewrite lookup_insert_ne in H2 by congruence.
      exfalso. apply (Hfresh k2 r2 H2 Hne2). congruence.
    + rewrite lookup_insert_eq in H2. injection H2 as <-.
      rewrite lookup_insert_ne in H1 by congruence.
      exfalso. apply (Hfresh k1 r1 H1 Hne1). congruence.
    + rewrite lookup_insert_ne in H1, H2 by congruence.
      eapply Hnames; eassumption.
Qed.

(** Whatever is saved, deleted or cleared, and whether the call succeeds
    or fails, every record stays stored under its own id and no two
    records have the same name. *)
Theorem store_keeps_ids_and_names (profile : SpeakerProfile) (key : string)
    (db : DB) :
  keyed_by_id (records db) -> unique_names (records db) ->
  (keyed_by_id (records (final (saveSpeakerProfile profile db)))
   /\ unique_names (records (final (saveSpeakerProfile profile db))))
  /\ (keyed_by_id (records (final (deleteSpeakerProfile key db)))
      /\ unique_names (records (final (deleteSpeakerProfile key db))))
  /\ (keyed_by_id (records (final (clearAllProfiles db)))
      /\ unique_names (records (final (clearAllProfiles db)))).
Proof.
  intros Hkeys Hnames. split; [|split].
  - unfold saveSpeakerProfile, init. run_monad.
    destruct (available db); cbn; [|split; assumption].
    destruct (store_put (profileToStore profile) (records db)) as [m'|] eqn:Hput;
      cbn; [|split; assumption].
    eapply insert_keeps_invariants; eassumption.
  - unfold deleteSpeakerProfile, init. run_monad.
    destruct (available db); cbn; [|split; assumption]. split.
    + intros k r Hk. apply lookup_delete_Some in Hk as [_ Hk].
      eapply Hkeys; eassumption.
    + intros k1 k2 r1 r2 H1 H2 Hname.
      apply lookup_delete_Some in H1 as [_ H1].
      apply lookup_delete_Some in H2 as [_ H2].
      eapply Hnames; eassumption.
  - unfold clearAllProfiles, init. run_monad.
    destruct (available db); cbn; [|split; assumption]. split.
    + intros k r Hk. rewrite lookup_empty in Hk. discriminate.
    + intros k1 k2 r1 r2 H1. rewrite lookup_empty in H1. discriminate.
Qed.

(** ** Saving next to other records, and deleting *)

(** A successful save changes the record of its own id only: every other
    id reads as before. *)
Theorem save_leaves_other_records (profile : SpeakerProfile) (db : DB)
    (key : string) :
  outcome (saveSpeakerProfile profile db) = Ok tt ->
  key <> id profile ->
  outcome (getSpeakerProfile key (final (saveSpeakerProfile profile db)))
  = outcome (getSpeakerProfile key db).
Proof.
  intros Hok Hne.
  destruct (StorageFacts.saveSpeakerProfile_Ok_inv profile db Hok)
    as (Hav & Hav' & _).
  pose proof (StorageFacts.saveSpeakerProfile_Ok_records profile db Hok)
    as Hrecords.
  set (db' := final (saveSpeakerProfile profile db)) in *.
  unfold getSpeakerProfile, init. run_monad. rewrite Hav, Hav'.
  cbn [fst snd]. rewrite Hrecords, lookup_insert_ne by congruence.
  reflexivity.
Qed.

Lemma index_get_None (name : string) (m : gmap string StoredProfile) :
  (forall k r, m !! k = Some r -> stored_name r <> name) ->
  index_get name m = None.
Proof.
  intros Hnone. unfold index_get.
  destruct (list_find _ (map_to_list m)) as [[i [k r]]|] eqn:Hfind;
    [|reflexivity].
  apply list_find_Some in Hfind as (Hi & Hname & _).
  apply list_elem_of_lookup_2, elem_of_map_to_list in Hi.
  exfalso. eapply Hnone; eassumption.
Qed.

(** The methods on a database that opens. *)
Lemma operations_available (db : DB) :
  available db = true ->
  (forall key, deleteSpeakerProfile key db
     = (Ok tt, set_records (delete key (records db)) db))
  /\ (forall key, getSpeakerProfile key db
        = (Ok (profileFromStore <$> records db !! key), db))
  /\ (forall name, getSpeakerByName name db
        = (Ok (profileFromStore <$> index_get name (records db)), db))
  /\ getAllSpeakerProfiles db
     = (Ok ((fun kv => profileFromStore (snd kv)) <$> map_to_list (records db)),
        db)
  /\ clearAllProfiles db = (Ok tt, set_records ∅ db).
Proof.
  intros Hav.
  unfold deleteSpeakerProfile, getSpeakerProfile, getSpeakerByName,
    getAllSpeakerProfiles, clearAllProfiles, init.
  run_monad. rewrite Hav. repeat split.
Qed.

(** Deleting an id makes it read as missing and leaves every other id as
    it was; deleting a missing id succeeds and changes nothing. A profile
    that was saved and then deleted is found neither by id nor by name. *)
Theorem delete_removes_profile (profile : SpeakerProfile) (key : string)
    (db : DB) :
  available db = true ->
  let db' := final (deleteSpeakerProfile key db) in
  outcome (deleteSpeakerProfile key db) = Ok tt
  /\ outcome (getSpeakerProfile key db') = Ok None
  /\ (forall other, other <> key ->
        outcome (getSpeakerProfile other db')
        = outcome (getSpeakerProfile other db))
  /\ (records db !! key = None -> db' = db)
  /\ (outcome (saveSpeakerProfile profile db) = Ok tt ->
      let gone := final (deleteSpeakerProfile (id profile)
                           (final (saveSpeakerProfile profile db))) in
      outcome (getSpeakerProfile (id profile) gone) = Ok None
      /\ outcome (getSpeakerByName (name profile) gone) = Ok None).
Proof.
  intros Hav. cbv zeta.
  destruct (operations_available db Hav) as (Hdel & Hget & _).
  rewrite Hdel. unfold outcome, final. cbn [fst snd].
  assert (Hav1 : forall k,
    available (set_records (delete k (records db)) db) = true)
    by (intros k; exact Hav).
  destruct (operations_available _ (Hav1 key)) as (_ & Hget' & _).
  rewrite !Hget'. cbn [fst snd records set_records].
  split; [reflexivity|]. split; [rewrite lookup_delete_eq; reflexivity|].
  split.
  { intros other Hne. rewrite Hget', Hget. cbn [fst snd records set_records].
    rewrite lookup_delete_ne by congruence. reflexivity. }
  split.
  - intros Hnone. rewrite delete_id by exact Hnone.
    destruct db; reflexivity.
  - intros Hok.
    destruct (StorageFacts.saveSpeakerProfile_Ok_inv profile db Hok)
      as (_ & Hav' & Hput).
    change (saveSpeakerProfile profile db).2
      with (final (saveSpeakerProfile profile db)) in *.
    set (saved := final (saveSpeakerProfile profile db)) in *.
    destruct (operations_available saved Hav') as (Hdel2 & _).
    rewrite Hdel2. cbn [fst snd].
    assert (Hav2 :
      available (set_records (delete (id profile) (records saved)) saved)
      = true) by exact Hav'.
    destruct (operations_available _ Hav2) as (_ & Hget2 & Hname2 & _).
    rewrite Hget2, Hname2. cbn [fst snd records set_records].
    destruct (store_put_fresh_name _ _ _ Hput) as [-> Hfresh].
    split; [rewrite lookup_delete_eq; reflexivity|].
    rewrite index_get_None; [reflexivity|].
    intros k r Hk. apply lookup_delete_Some in Hk as [Hne Hk].
    rewrite lookup_insert_ne in Hk by (cbn; congruence).
    apply (Hfresh k r Hk). cbn. congruence.
Qed.

(** ** A database that cannot be opened *)

(** When the database cannot be opened, every method throws
    ["Failed to open IndexedDB"] and nothing is read or written. *)
Theorem unavailable_database_fails (profile : SpeakerProfile)
    (key name : string) (db : DB) :
  available db = false ->
  saveSpeakerProfile profile db = (Throw "Failed to open IndexedDB", db)
  /\ getSpeakerProfile key db = (Throw "Failed to open IndexedDB", db)
  /\ getAllSpeakerProfiles db = (Throw "Failed to open IndexedDB", db)
  /\ deleteSpeakerProfile key db = (Throw "Failed to open IndexedDB", db)
  /\ getSpeakerByName name db = (Throw "Failed to open IndexedDB", db)
  /\ clearAllProfiles db = (Throw "Failed to open IndexedDB", db).
Proof.
  intros Hav.
  unfold saveSpeakerProfile, getSpeakerProfile, getAllSpeakerProfiles,
    deleteSpeakerProfile, getSpeakerByName, clearAllProfiles, init.
  run_monad. rewrite Hav. repeat split.
Qed.

(** ** Listing *)

(** A saved profile is among the profiles [getAllSpeakerProfiles]
    returns, which are as many as the stored records; after
    [clearAllProfiles] the list is empty and nothing is found by id or by
    name. *)
Theorem stored_profiles_listed (profile : SpeakerProfile) (key name : string)
    (db : DB) :
  Forall is_int32 (voiceprint profile) ->
  outcome (saveSpeakerProfile profile db) = Ok tt ->
  let db' := final (saveSpeakerProfile profile db) in
  let cleared := final (clearAllProfiles db') in
  (exists profiles,
     outcome (getAllSpeakerProfiles db') = Ok profiles
     /\ profile ∈ profiles
     /\ length profiles = size (records db'))
  /\ outcome (getAllSpeakerProfiles cleared) = Ok []
  /\ outcome (getSpeakerProfile key cleared) = Ok None
  /\ outcome (getSpeakerByName name cleared) = Ok None.
Proof.
  intros Hint Hok. cbv zeta.
  destruct (StorageFacts.saveSpeakerProfile_Ok_inv profile db Hok)
    as (_ & Hav' & Hput).
  pose proof (StorageFacts.store_put_lookup _ _ _ Hput) as Hid.
  set (db' := final (saveSpeakerProfile profile db)) in *.
  destruct (operations_available db' Hav') as (_ & _ & _ & Hall & Hclear).
  rewrite Hall, Hclear. unfold outcome, final. cbn [fst snd].
  assert (Hav'' : available (set_records ∅ db') = true) by exact Hav'.
  destruct (operations_available _ Hav'') as (_ & Hget & Hname & Hall' & _).
  rewrite Hget, Hname, Hall'. cbn [fst snd records set_records].
  split; [|split; [|split]].
  - eexists. split; [reflexivity|]. split.
    + apply list_elem_of_fmap.
      exists (stored_id (profileToStore profile), profileToStore profile).
      split.
      * cbn [snd]. symmetry. apply StorageFacts.profile_from_to_store.
        exact Hint.
      * apply elem_of_map_to_list. exact Hid.
    + rewrite length_fmap. apply length_map_to_list.
  - rewrite map_to_list_empty. reflexivity.
  - rewrite lookup_empty. reflexivity.
  - unfold index_get. rewrite map_to_list_empty. reflexivity.
Qed.

End StoreFacts.

(* ===================================================================== *)
(** * More facts: a voiceprint from the profiler to the recognizer         *)
(* ===================================================================== *)

Module PipelineFacts.
Import JS Control Types.

Section WithEngine.
Context {P R : Type}.
Variable engine : Eagle.Engine P R.

Lemma initializeRecognizer_calls (profiles : list SpeakerProfile)
    (s : Eagle.Service P R) :
  Eagle.calls (final (Eagle.initializeRecognizer engine profiles s))
  = Eagle.calls s
    ++ [Eagle.CallCreateRecognizer
          ((fun profile => Voiceprint.int32ArrayToBytes (voiceprint profile))
             <$> profiles)].
Proof.
  unfold Eagle.initializeRecognizer, Eagle.call_create_recognizer.
  unfold bind, try_catch, gets, modify, ret, throw, final. cbn [fst snd].
  destruct (Eagle.Eagle_create engine _); reflexivity.
Qed.

(** The bytes the profiler exports are packed by [exportProfile], stored
    with the profile, read back by [getAllSpeakerProfiles] and unpacked by
    [initializeRecognizer]: the recognizer is created with the exported
    bytes followed by the zeros that fill the last 32-bit word. *)
Theorem exported_voiceprint_reaches_recognizer
    (enroller listener : Eagle.Service P R) (p : P) (profileBytes : list Z)
    (profile : SpeakerProfile) (db : Storage.DB) :
  Eagle.isInitialized enroller = true ->
  Eagle.profiler enroller = Some p ->
  fst (Eagle.export engine p) = Ok profileBytes ->
  Forall is_uint8 profileBytes ->
  outcome (Eagle.exportProfile engine enroller) = Ok (voiceprint profile) ->
  outcome (Storage.saveSpeakerProfile profile db) = Ok tt ->
  let db' := final (Storage.saveSpeakerProfile profile db) in
  exists (profiles : list SpeakerProfile) (k : nat)
         (eagleProfiles : list (list Z)),
    outcome (Storage.getAllSpeakerProfiles db') = Ok profiles
    /\ profiles !! k = Some profile
    /\ Eagle.calls
         (final (Eagle.initializeRecognizer engine profiles listener))
       = Eagle.calls listener ++ [Eagle.CallCreateRecognizer eagleProfiles]
    /\ eagleProfiles !! k
       = Some (profileBytes
                 ++ replicate (Voiceprint.padding (length profileBytes)) 0).
Proof.
  intros Hinit Hp Hexport Hbytes Hvoiceprint Hsaved db'.
  assert (Hvp : voiceprint profile = Voiceprint.bytesToInt32Array profileBytes).
  { revert Hvoiceprint.
    rewrite (EagleFacts.exportProfile_ready engine enroller p Hinit Hp).
    rewrite Hexport. unfold outcome. cbn [fst]. congruence. }
  assert (Hint : Forall is_int32 (voiceprint profile))
    by (rewrite Hvp; apply CodecFacts.bytesToInt32Array_int32).
  destruct (StorageFacts.saveSpeakerProfile_Ok_inv profile db Hsaved)
    as (_ & Hav' & Hput).
  pose proof (StorageFacts.store_put_lookup _ _ _ Hput) as Hid.
  fold db' in Hav', Hid.
  destruct (StoreFacts.operations_available db' Hav') as (_ & _ & _ & Hall & _).
  assert (Hin : profile ∈
    (fun kv => Storage.profileFromStore (snd kv))
      <$> map_to_list (Storage.records db')).
  { apply list_elem_of_fmap.
    exists (Storage.stored_id (Storage.profileToStore profile),
            Storage.profileToStore profile).
    split.
    - cbn [snd]. symmetry. apply StorageFacts.profile_from_to_store.
      exact Hint.
    - apply elem_of_map_to_list. exact Hid. }
  apply list_elem_of_lookup_1 in Hin as [k Hk].
  eexists _, k, _. split; [rewrite Hall; reflexivity|].
  split; [exact Hk|]. split; [apply initializeRecognizer_calls|].
  rewrite list_lookup_fmap, Hk. cbn [fmap option_fmap option_map].
  rewrite Hvp, VoiceprintFacts.unpack_pack_padded by exact Hbytes.
  reflexivity.
Qed.

End WithEngine.
End PipelineFacts.

(* ===================================================================== *)
(** * More facts: [trim]                                                   *)
(* ===================================================================== *)

Module TrimFacts.
Import Enrollment.

(** A white space at the head of a text is found and removed, whichever
    of the code points it is: no white space has bytes that start the
    bytes of another. *)
Lemma strip_white_space (codePoint : N) (rest : list Ascii.ascii) :
  codePoint ∈ white_space ->
  strip utf8 (utf8 codePoint ++ rest) = Some rest.
Proof.
  unfold white_space. intros Hin.
  repeat (apply elem_of_cons in Hin as [->|Hin];
          [vm_compute; reflexivity|]).
  apply elem_of_nil in Hin. destruct Hin.
Qed.

Lemma utf8_not_empty (codePoint : N) : (1 <= length (utf8 codePoint))%nat.
Proof. unfold utf8. repeat case_match; cbn; lia. Qed.

Lemma trim_go_white_space (codePoints : list N) (fuel : nat) :
  Forall (fun c => c ∈ white_space) codePoints ->
  (length codePoints <= fuel)%nat ->
  trim_go fuel utf8 (concat (utf8 <$> codePoints)) = [].
Proof.
  intros Hall. revert fuel.
  induction Hall as [|c cs Hc _ IH]; intros fuel Hfuel.
  - destruct fuel; reflexivity.
  - destruct fuel as [|fuel]; [cbn in Hfuel; lia|].
    cbn [fmap list_fmap concat trim_go].
    rewrite strip_white_space by exact Hc.
    apply IH. cbn in Hfuel. lia.
Qed.

(** A text made of white space only is blank after [trim]. *)
Lemma trim_white_space (codePoints : list N) :
  Forall (fun c => c ∈ white_space) codePoints ->
  trim (String.string_of_list_ascii (concat (utf8 <$> codePoints))) = "".
Proof.
  intros Hall. unfold trim, trim_start.
  rewrite String.list_ascii_of_string_of_list_ascii.
  rewrite trim_go_white_space; [reflexivity | exact Hall |].
  clear Hall. induction codePoints as [|c cs IH]; [reflexivity|].
  cbn [fmap list_fmap concat length]. rewrite length_app.
  pose proof (utf8_not_empty c). fold (fmap (M:=list) utf8 cs). lia.
Qed.

End TrimFacts.

(* ===================================================================== *)
(** * More facts: starting and leaving an enrollment                       *)
(* ===================================================================== *)

Module SessionFacts.
Import JS Control Types Enrollment.

Local Ltac run_monad :=
  unfold bind, try_catch, gets, modify, ret, throw, when, zoom, outcome, final;
  cbn [fst snd].

Local Ltac project :=
  cbn [fst snd eagleService speakerStorage recorder speakerName
       enrollmentState events now random microphone
       set_eagleService set_speakerStorage set_recorder set_speakerName
       set_enrollmentState emit
       isEnrolling isRecording progress error success].

Local Tactic Notation "run_monad_in" hyp(H) :=
  unfold bind, try_catch, gets, modify, ret, throw, when, zoom, outcome,
    final in H;
  cbn [fst snd] in H.

Local Tactic Notation "project_in" hyp(H) :=
  cbn [fst snd eagleService speakerStorage recorder speakerName
       enrollmentState events now random microphone
       set_eagleService set_speakerStorage set_recorder set_speakerName
       set_enrollmentState emit
       isEnrolling isRecording progress error success] in H.

Section WithEngine.
Context {P R : Type}.
Variable engine : Eagle.Engine P R.
Variable props : Props.

Local Abbreviation App := (App P R).
Local Abbreviation startEnrollment := (startEnrollment engine props).
Local Abbreviation stopEnrollment := (stopEnrollment engine).
Local Abbreviation resetForm := (resetForm engine).
Local Abbreviation handleAudioData := (handleAudioData engine props).
Local Abbreviation handleFrames := (handleFrames engine props).

(** ** [startEnrollment] *)

(** The look-up of the typed name, on a database that opens. *)
Lemma getSpeakerByName_run (a : App) (name : string) :
  Storage.available (speakerStorage a) = true ->
  storage (Storage.getSpeakerByName name) a
  = (Ok (Storage.profileFromStore
           <$> Storage.index_get name (Storage.records (speakerStorage a))),
     set_speakerStorage (speakerStorage a) a).
Proof.
  intros Hav. unfold storage, zoom.
  destruct (StoreFacts.operations_available _ Hav) as (_ & _ & Hname & _).
  rewrite Hname. reflexivity.
Qed.

Lemma startEnrollment_blank (a : App) :
  trim (speakerName a) = "" ->
  startEnrollment a
  = (Ok tt,
     set_enrollmentState
       {| isEnrolling := isEnrolling (enrollmentState a);
          isRecording := isRecording (enrollmentState a);
          progress := progress (enrollmentState a);
          error := Some "Please enter a speaker name";
          success := success (enrollmentState a) |} a).
Proof.
  intros Hblank. unfold Enrollment.startEnrollment.
  unfold bind at 1. unfold gets at 1. rewrite Hblank. reflexivity.
Qed.

(** The three paths on which [startEnrollment] returns early. *)
Lemma startEnrollment_returns_early (a : App) :
  let a' := final (startEnrollment a) in
  let refused message :=
    error (enrollmentState a') = Some message
    /\ isEnrolling (enrollmentState a') = isEnrolling (enrollmentState a)
    /\ eagleService a' = eagleService a
    /\ speakerStorage a' = speakerStorage a
    /\ events a' = events a in
  let stored :=
    Storage.index_get (trim (speakerName a))
      (Storage.records (speakerStorage a)) in
  (trim (speakerName a) = "" -> refused "Please enter a speaker name")
  /\ (trim (speakerName a) <> "" ->
      Storage.available (speakerStorage a) = true ->
      stored <> None ->
      refused "A speaker with this name already exists")
  /\ (trim (speakerName a) <> "" ->
      Storage.available (speakerStorage a) = true ->
      stored = None ->
      microphone a = false ->
      refused "Microphone permission is required for enrollment").
Proof.
  cbv zeta. unfold final.
  destruct (startEnrollment a) as [res a'] eqn:Hrun. cbn [snd].
  unfold Enrollment.startEnrollment in Hrun.
  unfold bind at 1 in Hrun. unfold gets at 1 in Hrun.
  split; [|split].
  - intros Hblank. rewrite Hblank in Hrun.
    unfold setEnrollmentState in Hrun. run_monad_in Hrun.
    injection Hrun as <- <-. project. repeat split.
  - intros Hname Hav Hstored. apply String.eqb_neq in Hname.
    rewrite Hname in Hrun.
    unfold try_catch at 1 in Hrun. unfold bind at 1 in Hrun.
    rewrite (getSpeakerByName_run a _ Hav) in Hrun.
    destruct (Storage.index_get _ _) as [r|]; [|congruence].
    unfold setEnrollmentState in Hrun. run_monad_in Hrun.
    injection Hrun as <- <-. project. repeat split.
  - intros Hname Hav Hstored Hmic. apply String.eqb_neq in Hname.
    rewrite Hname in Hrun.
    unfold try_catch at 1 in Hrun. unfold bind at 1 in Hrun.
    rewrite (getSpeakerByName_run a _ Hav), Hstored in Hrun.
    cbn [fmap option_fmap option_map] in Hrun.
    unfold setEnrollmentState, audio, Recorder.requestPermission in Hrun.
    run_monad_in Hrun. project_in Hrun. rewrite Hmic in Hrun.
    run_monad_in Hrun. injection Hrun as <- <-. project. repeat split.
Qed.

(** [startEnrollment] refuses a name that is blank after trimming (so
    every name made of white space only, ASCII or not), a name whose
    trimmed form is already stored, and a denied microphone: the message
    is shown, and the engine, the store, the callbacks and the enrolling
    flag are left as they were. *)
Theorem startEnrollment_refuses (a : App) :
  let a' := final (startEnrollment a) in
  let refused message :=
    error (enrollmentState a') = Some message
    /\ isEnrolling (enrollmentState a') = isEnrolling (enrollmentState a)
    /\ eagleService a' = eagleService a
    /\ speakerStorage a' = speakerStorage a
    /\ events a' = events a in
  let stored :=
    Storage.index_get (trim (speakerName a))
      (Storage.records (speakerStorage a)) in
  (trim (speakerName a) = "" -> refused "Please enter a speaker name")
  /\ (forall codePoints,
        Forall (fun c => c ∈ white_space) codePoints ->
        speakerName a
        = String.string_of_list_ascii (concat (utf8 <$> codePoints)) ->
        refused "Please enter a speaker name")
  /\ (trim (speakerName a) <> "" ->
      Storage.available (speakerStorage a) = true ->
      stored <> None ->
      refused "A speaker with this name already exists")
  /\ (trim (speakerName a) <> "" ->
      Storage.available (speakerStorage a) = true ->
      stored = None ->
      microphone a = false ->
      refused "Microphone permission is required for enrollment").
Proof.
  cbv zeta.
  destruct (startEnrollment_returns_early a) as (Hblank & Hstored & Hdenied).
  split; [exact Hblank|]. split; [|split; [exact Hstored | exact Hdenied]].
  intros codePoints Hwhite Hname. apply Hblank. rewrite Hname.
  apply TrimFacts.trim_white_space. exact Hwhite.
Qed.

(** On a fresh, unstored name with the microphone granted,
    [startEnrollment] asks the engine for a new profiler once. If the
    engine gives one, a new session begins from whatever state the
    component was in: the audio buffer is emptied, the progress is 0, the
    error and the success mark are cleared and the recorder runs. If the
    engine refuses, the error is shown and passed to [onError] and the
    component is not enrolling. The store is not written either way. *)
Theorem startEnrollment_opens_session (a : App) :
  trim (speakerName a) <> "" ->
  Storage.available (speakerStorage a) = true ->
  Storage.index_get (trim (speakerName a))
    (Storage.records (speakerStorage a)) = None ->
  microphone a = true ->
  let a' := final (startEnrollment a) in
  Eagle.calls (eagleService a')
    = Eagle.calls (eagleService a) ++ [Eagle.CallCreateProfiler]
  /\ speakerStorage a' = speakerStorage a
  /\ match Eagle.EagleProfiler_create engine with
     | Ok p =>
         enrollmentState a'
           = {| isEnrolling := true; isRecording := true; progress := 0;
                error := None; success := false |}
         /\ Eagle.audioBuffer (eagleService a') = []
         /\ Eagle.profiler (eagleService a') = Some p
         /\ Eagle.isInitialized (eagleService a') = true
         /\ events a' = events a ++ [StartRecording]
         /\ Recorder.isRecording (recorder a') = true
     | Throw e =>
         let message :=
           "Eagle profiler initialization failed: Error: " +:+ e in
         enrollmentState a'
           = {| isEnrolling := false; isRecording := false;
                progress := progress (enrollmentState a);
                error := Some message;
                success := success (enrollmentState a) |}
         /\ Eagle.audioBuffer (eagleService a')
            = Eagle.audioBuffer (eagleService a)
         /\ Eagle.profiler (eagleService a') = Eagle.profiler (eagleService a)
         /\ events a'
            = events a ++ (if onError props then [OnError message] else [])
     end.
Proof.
  intros Hname Hav Hstored Hmic. apply String.eqb_neq in Hname. cbv zeta.
  unfold final.
  destruct (startEnrollment a) as [res a'] eqn:Hrun. cbn [snd].
  unfold Enrollment.startEnrollment in Hrun.
  unfold bind at 1 in Hrun. unfold gets at 1 in Hrun. rewrite Hname in Hrun.
  unfold try_catch at 1 in Hrun. unfold bind at 1 in Hrun.
  rewrite (getSpeakerByName_run a _ Hav), Hstored in Hrun.
    cbn [fmap option_fmap option_map] in Hrun.
  unfold setEnrollmentState, startRecording, audio, eagle,
    Recorder.requestPermission, Recorder.startRecording,
    Recorder.initializeAudio, Eagle.initializeProfiler,
    Eagle.clearAudioBuffer, Eagle.call_create_profiler in Hrun.
  run_monad_in Hrun. project_in Hrun. rewrite Hmic in Hrun.
  run_monad_in Hrun. project_in Hrun.
  destruct (Eagle.EagleProfiler_create engine) as [p|e];
    run_monad_in Hrun; project_in Hrun.
  - rewrite ?Hmic in Hrun.
    destruct (negb (Eagle.minEnrollSamples engine p =? 0));
      destruct (Recorder.isInitialized (recorder a)); cbn in Hrun;
      rewrite ?Hmic in Hrun; cbn in Hrun;
      injection Hrun as <- <-; cbn; repeat split.
  - destruct (onError props); cbn in Hrun; injection Hrun as <- <-; cbn;
      rewrite ?app_nil_r; repeat split.
Qed.

(** ** [stopEnrollment] and [resetForm] *)

(** Stopping ends the session from any state: the component is not
    enrolling, the recorder is stopped, the engine's profiler is reset if
    there is one, the audio buffer is emptied and the store is left as it
    was; every frame that arrives afterwards is ignored. *)
Theorem stopEnrollment_ends_session (frames : list (list Z)) (a : App) :
  let a' := final (stopEnrollment a) in
  isEnrolling (enrollmentState a') = false
  /\ isRecording (enrollmentState a') = false
  /\ Recorder.isRecording (recorder a') = false
  /\ events a' = events a ++ [StopRecording]
  /\ Eagle.calls (eagleService a')
     = Eagle.calls (eagleService a)
       ++ match Eagle.profiler (eagleService a) with
          | Some _ => [Eagle.CallReset]
          | None => []
          end
  /\ Eagle.audioBuffer (eagleService a') = []
  /\ speakerStorage a' = speakerStorage a
  /\ handleFrames frames a' = a'.
Proof.
  cbv zeta.
  assert (Hoff : isEnrolling
    (enrollmentState (final (stopEnrollment a))) = false).
  { unfold Enrollment.stopEnrollment, setEnrollmentState, stopRecording, audio,
      eagle, Recorder.stopRecording, Eagle.resetProfiler, Eagle.call_reset.
    run_monad. project.
    destruct (Eagle.profiler (eagleService a)); reflexivity. }
  split; [exact Hoff|].
  rewrite (EnrollmentFacts.handleFrames_idle engine props frames _ Hoff).
  unfold Enrollment.stopEnrollment, setEnrollmentState, stopRecording, audio,
    eagle, Recorder.stopRecording, Eagle.resetProfiler, Eagle.call_reset.
  run_monad. project.
  destruct (Eagle.profiler (eagleService a)); cbn; rewrite ?app_nil_r;
    repeat split.
Qed.

(** After [resetForm] the name field is empty, so the next
    [startEnrollment] is refused with the request for a name, and no
    frame is handled: the form waits for a new name. *)
Lemma resetForm_waits_for_name (frames : list (list Z)) (a : App) :
  let a' := final (resetForm a) in
  speakerName a' = ""
  /\ enrollmentState a' = initialState
  /\ Eagle.audioBuffer (eagleService a') = []
  /\ speakerStorage a' = speakerStorage a
  /\ handleFrames frames a' = a'
  /\ error (enrollmentState (final (startEnrollment a')))
     = Some "Please enter a speaker name"
  /\ isEnrolling (enrollmentState (final (startEnrollment a'))) = false
  /\ eagleService (final (startEnrollment a')) = eagleService a'.
Proof.
  cbv zeta.
  assert (Hreset :
    speakerName (final (resetForm a)) = ""
    /\ enrollmentState (final (resetForm a)) = initialState
    /\ Eagle.audioBuffer (eagleService (final (resetForm a))) = []
    /\ speakerStorage (final (resetForm a)) = speakerStorage a).
  { unfold Enrollment.resetForm, setEnrollmentState, eagle,
      Eagle.resetProfiler, Eagle.call_reset.
    run_monad. project.
    destruct (Eagle.profiler (eagleService a)); cbn; repeat split. }
  destruct Hreset as (Hname & Hstate & Hbuffer & Hdb).
  set (a' := final (resetForm a)) in *.
  split; [exact Hname|]. split; [exact Hstate|]. split; [exact Hbuffer|].
  split; [exact Hdb|]. split.
  { apply EnrollmentFacts.handleFrames_idle. rewrite Hstate. reflexivity. }
  rewrite (startEnrollment_blank a') by (rewrite Hname; reflexivity).
  unfold final. project. rewrite Hstate. repeat split.
Qed.

(** ** What a session writes *)

(** Over the frames of a session, however many, the store is written at
    most once: either it is left as it was, or it is the result of one
    successful [saveSpeakerProfile] of a profile with the typed name, the
    clock's time and the id built from the clock and the random suffix,
    and then the session is over and marked a success. *)
Theorem session_stores_at_most_one_profile (frames : list (list Z))
    (a : App) :
  let a' := handleFrames frames a in
  speakerStorage a' = speakerStorage a
  \/ exists voiceprint,
       Storage.saveSpeakerProfile
         (make_profile (now a) (random a) (speakerName a) voiceprint)
         (speakerStorage a)
       = (Ok tt, speakerStorage a')
       /\ isEnrolling (enrollmentState a') = false
       /\ success (enrollmentState a') = true.
Proof.
  cbv zeta. revert a. induction frames as [|frame frames IH]; intros a;
    cbn [Enrollment.handleFrames]; [left; reflexivity|].
  destruct (isEnrolling (enrollmentState a)) eqn:Hon;
    [|rewrite (EnrollmentFacts.handleAudioData_idle engine props frame a Hon);
      apply IH].
  destruct (Eagle.enrollAudio engine frame (eagleService a))
    as [[result|e] s1] eqn:Henroll.
  - rewrite (EnrollmentFacts.handleAudioData_enroll_returns engine props
               frame a result s1 Hon Henroll).
    destruct (Qle_bool 100 (Eagle.percentage result)).
    + set (x := progressed result s1 a).
      destruct (Eagle.exportProfile engine (eagleService x))
        as [[vp|e] s2] eqn:Hexport.
      * destruct (Storage.saveSpeakerProfile
                    (make_profile (now x) (random x) (speakerName x) vp)
                    (speakerStorage x)) as [[[]|e] d1] eqn:Hsave.
        -- destruct (EnrollmentFacts.completeEnrollment_saved engine props
                       x vp s2 d1 Hexport Hsave) as (_ & Hst & _ & Hdb & _).
           rewrite (EnrollmentFacts.handleFrames_idle engine props frames _
                      ltac:(rewrite Hst; reflexivity)).
           right. exists vp. rewrite Hdb, Hst. repeat split. exact Hsave.
        -- assert (Hfail : completion_failure engine x = Some e)
             by (unfold completion_failure; rewrite Hexport, Hsave;
                 reflexivity).
           destruct (EnrollmentFacts.completeEnrollment_failed engine props
                       x e Hfail) as (Hst & _ & _ & Hdb & _).
           rewrite (EnrollmentFacts.handleFrames_idle engine props frames _
                      ltac:(rewrite Hst; reflexivity)).
           left. rewrite Hdb. reflexivity.
      * assert (Hfail : completion_failure engine x = Some e)
          by (unfold completion_failure; rewrite Hexport; reflexivity).
        destruct (EnrollmentFacts.completeEnrollment_failed engine props
                    x e Hfail) as (Hst & _ & _ & Hdb & _).
        rewrite (EnrollmentFacts.handleFrames_idle engine props frames _
                   ltac:(rewrite Hst; reflexivity)).
        left. rewrite Hdb. reflexivity.
    + cbn [final snd]. apply (IH (progressed result s1 a)).
  - rewrite (EnrollmentFacts.handleAudioData_enroll_throws engine props
               frame a e s1 Hon Henroll).
    destruct (EnrollmentFacts.fail_enrollment_run props e
                (set_eagleService s1 a)) as (_ & Hst & _ & Hdb & _).
    rewrite (EnrollmentFacts.handleFrames_idle engine props frames _
               ltac:(rewrite Hst; reflexivity)).
    left. rewrite Hdb. reflexivity.
Qed.

End WithEngine.
End SessionFacts.

(* ===================================================================== *)
(** * More facts: starting and leaving a recognition                       *)
(* ===================================================================== *)

Module ListenerFacts.
Import JS Control Types Recognition.

Local Ltac run_monad :=
  unfold bind, try_catch, gets, modify, ret, throw, when, zoom, outcome, final;
  cbn [fst snd].

Local Tactic Notation "run_monad_in" hyp(H) :=
  unfold bind, try_catch, gets, modify, ret, throw, when, zoom, outcome,
    final in H;
  cbn [fst snd] in H.

Local Ltac project :=
  cbn [fst snd eagleService speakerStorage recorder enrolledProfiles
       recognitionState events microphone
       set_eagleService set_speakerStorage set_recorder set_enrolledProfiles
       set_recognitionState emit
       isRecognizing isListening identifiedSpeaker confidence error].

Local Tactic Notation "project_in" hyp(H) :=
  cbn [fst snd eagleService speakerStorage recorder enrolledProfiles
       recognitionState events microphone
       set_eagleService set_speakerStorage set_recorder set_enrolledProfiles
       set_recognitionState emit
       isRecognizing isListening identifiedSpeaker confidence error] in H.

Section WithEngine.
Context {P R : Type}.
Variable engine : Eagle.Engine P R.
Variable props : Props.

Local Abbreviation App := (App P R).
Local Abbreviation loadEnrolledProfiles := (@loadEnrolledProfiles P R props).
Local Abbreviation startRecognition := (startRecognition engine props).
Local Abbreviation stopRecognition := (@stopRecognition P R).
Local Abbreviation deleteSpeaker := (@deleteSpeaker P R props).
Local Abbreviation handleAudioData := (handleAudioData engine props).
Local Abbreviation handleFrames := (handleFrames engine props).

(** The profiles a database holds, as [getAllSpeakerProfiles] lists them. *)
Local Abbreviation listed db :=
  ((fun kv : string * Storage.StoredProfile =>
      Storage.profileFromStore (snd kv))
     <$> map_to_list (Storage.records db)).

(** ** [loadEnrolledProfiles], path by path *)

Lemma loadEnrolledProfiles_available (a : App) :
  Storage.available (speakerStorage a) = true ->
  loadEnrolledProfiles a
  = (Ok (listed (speakerStorage a)),
     set_enrolledProfiles (listed (speakerStorage a))
       (set_speakerStorage (speakerStorage a) a)).
Proof.
  intros Hav. unfold Recognition.loadEnrolledProfiles, storage.
  destruct (StoreFacts.operations_available _ Hav) as (_ & _ & _ & Hall & _).
  run_monad. rewrite Hall. reflexivity.
Qed.

Lemma loadEnrolledProfiles_unavailable (a : App) :
  Storage.available (speakerStorage a) = false ->
  let shown :=
    set_recognitionState
      {| isRecognizing := isRecognizing (recognitionState a);
         isListening := isListening (recognitionState a);
         identifiedSpeaker := identifiedSpeaker (recognitionState a);
         confidence := confidence (recognitionState a);
         error := Some "Failed to open IndexedDB" |}
      (set_speakerStorage (speakerStorage a) a) in
  loadEnrolledProfiles a
  = (Ok [],
     if onError props then emit (OnError "Failed to open IndexedDB") shown
     else shown).
Proof.
  intros Hav. cbv zeta.
  unfold Recognition.loadEnrolledProfiles, storage, setRecognitionState,
    Storage.getAllSpeakerProfiles, Storage.init.
  run_monad. rewrite Hav. cbn [fst snd].
  destruct (onError props); reflexivity.
Qed.

Lemma listed_empty (db : Storage.DB) :
  Storage.records db <> ∅ -> (length (listed db) =? 0)%nat = false.
Proof.
  intros Hne. apply Nat.eqb_neq.
  rewrite length_fmap, length_map_to_list. intros Hsize.
  apply Hne, map_size_empty_iff. exact Hsize.
Qed.

(** ** [startRecognition] *)

(** [startRecognition] refuses to start with no stored profile, with a
    database that cannot be opened, and with a denied microphone: the
    message is shown and the engine and the recognizing flag are left as
    they were. With a database that cannot be opened the storage error
    is passed to [onError], but the message shown is the one about no
    enrolled speakers. *)
Theorem startRecognition_refuses (a : App) :
  let a' := final (startRecognition a) in
  let refused message reported :=
    error (recognitionState a') = Some message
    /\ isRecognizing (recognitionState a')
       = isRecognizing (recognitionState a)
    /\ eagleService a' = eagleService a
    /\ speakerStorage a' = speakerStorage a
    /\ events a' = events a ++ reported in
  let none :=
    "No enrolled speakers found. Please enroll at least one speaker first." in
  (Storage.available (speakerStorage a) = true ->
   Storage.records (speakerStorage a) = ∅ ->
   refused none [])
  /\ (Storage.available (speakerStorage a) = false ->
      refused none
        (if onError props then [OnError "Failed to open IndexedDB"] else []))
  /\ (Storage.available (speakerStorage a) = true ->
      Storage.records (speakerStorage a) <> ∅ ->
      microphone a = false ->
      refused "Microphone permission is required for recognition" []).
Proof.
  cbv zeta. unfold final.
  destruct (startRecognition a) as [res a'] eqn:Hrun. cbn [snd].
  unfold Recognition.startRecognition in Hrun.
  unfold try_catch at 1 in Hrun. unfold bind at 1 in Hrun.
  split; [|split].
  - intros Hav Hrecords.
    rewrite (loadEnrolledProfiles_available a Hav), Hrecords in Hrun.
    rewrite map_to_list_empty in Hrun.
    unfold setRecognitionState in Hrun. run_monad_in Hrun.
    cbn [fmap list_fmap length Nat.eqb] in Hrun.
    injection Hrun as <- <-. project. rewrite app_nil_r. repeat split.
  - intros Hav.
    rewrite (loadEnrolledProfiles_unavailable a Hav) in Hrun.
    unfold setRecognitionState in Hrun. run_monad_in Hrun.
    cbn [length Nat.eqb] in Hrun.
    destruct (onError props); injection Hrun as <- <-; project;
      rewrite ?app_nil_r; repeat split.
  - intros Hav Hrecords Hmic.
    rewrite (loadEnrolledProfiles_available a Hav) in Hrun.
    rewrite (listed_empty _ Hrecords) in Hrun.
    unfold setRecognitionState, audio, Recorder.requestPermission in Hrun.
    run_monad_in Hrun. project_in Hrun. rewrite Hmic in Hrun.
    run_monad_in Hrun. injection Hrun as <- <-. project.
    rewrite app_nil_r. repeat split.
Qed.

(** With stored profiles and the microphone granted, [startRecognition]
    creates the recognizer once, from the voiceprints of all stored
    profiles in the order [getAllSpeakerProfiles] lists them, and the
    service maps indexes to names in that same order. If the engine gives
    a recognizer, the component listens with no speaker identified yet
    and the recorder runs; if it refuses, the error is shown and passed
    to [onError] and the component does not listen. *)
Theorem startRecognition_begins (a : App) :
  Storage.available (speakerStorage a) = true ->
  Storage.records (speakerStorage a) <> ∅ ->
  microphone a = true ->
  let a' := final (startRecognition a) in
  let profiles := listed (speakerStorage a) in
  let eagleProfiles :=
    (fun profile => Voiceprint.int32ArrayToBytes (voiceprint profile))
      <$> profiles in
  Eagle.calls (eagleService a')
    = Eagle.calls (eagleService a)
      ++ [Eagle.CallCreateRecognizer eagleProfiles]
  /\ enrolledProfiles a' = profiles
  /\ Eagle.enrolledProfiles (eagleService a') = profiles
  /\ speakerStorage a' = speakerStorage a
  /\ match Eagle.Eagle_create engine eagleProfiles with
     | Ok r =>
         recognitionState a'
           = {| isRecognizing := true; isListening := true;
                identifiedSpeaker := None; confidence := 0; error := None |}
         /\ Eagle.recognizer (eagleService a') = Some r
         /\ Eagle.isInitialized (eagleService a') = true
         /\ events a' = events a ++ [StartRecording]
         /\ Recorder.isRecording (recorder a') = true
     | Throw e =>
         let message :=
           "Eagle recognizer initialization failed: Error: " +:+ e in
         recognitionState a'
           = {| isRecognizing := false; isListening := false;
                identifiedSpeaker := identifiedSpeaker (recognitionState a);
                confidence := confidence (recognitionState a);
                error := Some message |}
         /\ Eagle.recognizer (eagleService a')
            = Eagle.recognizer (eagleService a)
         /\ events a'
            = events a ++ (if onError props then [OnError message] else [])
     end.
Proof.
  intros Hav Hrecords Hmic. cbv zeta. unfold final.
  destruct (startRecognition a) as [res a'] eqn:Hrun. cbn [snd].
  unfold Recognition.startRecognition in Hrun.
  unfold try_catch at 1 in Hrun. unfold bind at 1 in Hrun.
  rewrite (loadEnrolledProfiles_available a Hav) in Hrun.
  rewrite (listed_empty _ Hrecords) in Hrun.
  unfold setRecognitionState, startRecording, audio, eagle,
    Recorder.requestPermission, Recorder.startRecording,
    Recorder.initializeAudio, Eagle.initializeRecognizer,
    Eagle.call_create_recognizer in Hrun.
  run_monad_in Hrun. project_in Hrun. rewrite Hmic in Hrun.
  run_monad_in Hrun. project_in Hrun.
  cbn [Eagle.enrolledProfiles Eagle.set_enrolledProfiles] in Hrun.
  destruct (Eagle.Eagle_create engine _) as [r|e];
    run_monad_in Hrun; project_in Hrun.
  - rewrite ?Hmic in Hrun.
    destruct (Recorder.isInitialized (recorder a)); cbn in Hrun;
      rewrite ?Hmic in Hrun; cbn in Hrun;
      injection Hrun as <- <-; cbn; repeat split.
  - destruct (onError props); cbn in Hrun; injection Hrun as <- <-; cbn;
      rewrite ?app_nil_r; repeat split.
Qed.

(** ** [stopRecognition] *)

Lemma handleFrames_not_recognizing (frames : list (list Z)) (a : App) :
  isRecognizing (recognitionState a) = false -> handleFrames frames a = a.
Proof.
  intros Hidle. induction frames as [|frame frames IH]; [reflexivity|].
  cbn [Recognition.handleFrames].
  rewrite (RecognitionFacts.recognition_idle engine props frame a Hidle).
  exact IH.
Qed.

(** Stopping clears the identified speaker and the confidence, keeps the
    error, stops the recorder and leaves the service with its recognizer;
    every frame that arrives afterwards is ignored, so the engine is not
    called again. *)
Theorem stopRecognition_silences (frames : list (list Z)) (a : App) :
  let a' := final (stopRecognition a) in
  recognitionState a'
    = {| isRecognizing := false; isListening := false;
         identifiedSpeaker := None; confidence := 0;
         error := error (recognitionState a) |}
  /\ Recorder.isRecording (recorder a') = false
  /\ events a' = events a ++ [StopRecording]
  /\ eagleService a' = eagleService a
  /\ speakerStorage a' = speakerStorage a
  /\ handleFrames frames a' = a'.
Proof.
  cbv zeta.
  assert (Hstate :
    recognitionState (final (stopRecognition a))
    = {| isRecognizing := false; isListening := false;
         identifiedSpeaker := None; confidence := 0;
         error := error (recognitionState a) |}).
  { unfold Recognition.stopRecognition, setRecognitionState, stopRecording,
      audio, Recorder.stopRecording. run_monad. reflexivity. }
  split; [exact Hstate|].
  rewrite (handleFrames_not_recognizing frames _
             ltac:(rewrite Hstate; reflexivity)).
  unfold Recognition.stopRecognition, setRecognitionState, stopRecording,
    audio, Recorder.stopRecording. run_monad. project. repeat split.
Qed.

(** ** What the parent is told *)

(** Over any frames, the events only grow, and [onSpeakerIdentified] is
    never called with the name ["Unknown"]: a frame with no match (or
    with a best match whose profile is named ["Unknown"]) shows in the
    state only. *)
Theorem unknown_speaker_not_announced (frames : list (list Z)) (a : App) :
  exists new,
    events (handleFrames frames a) = events a ++ new
    /\ Forall (fun e =>
                 match e with
                 | OnSpeakerIdentified speakerName _ =>
                     speakerName <> "Unknown"
                 | _ => True
                 end) new.
Proof.
  revert a. induction frames as [|frame frames IH]; intros a;
    cbn [Recognition.handleFrames].
  { exists []. rewrite app_nil_r. split; [reflexivity | constructor]. }
  destruct (IH (final (handleAudioData frame a))) as (new & Hev & Hnew).
  rewrite Hev. clear Hev.
  destruct (isRecognizing (recognitionState a)) eqn:Hon.
  - destruct (Eagle.recognizeAudio engine frame (eagleService a))
      as [[result|e] s1] eqn:Hrun.
    + destruct (RecognitionFacts.recognition_returns engine props frame a
                  result s1 Hon Hrun) as (_ & _ & _ & _ & _ & Hstep).
      rewrite Hstep, <- app_assoc. eexists. split; [reflexivity|].
      apply Forall_app. split; [|exact Hnew].
      destruct (onSpeakerIdentified props); cbn [andb]; [|constructor].
      destruct (String.eqb _ "Unknown") eqn:Hname; cbn [negb];
        constructor; [|constructor].
      apply String.eqb_neq. exact Hname.
    + destruct (RecognitionFacts.recognition_throws engine props frame a
                  e s1 Hon Hrun) as (_ & _ & _ & _ & _ & Hstep).
      rewrite Hstep, <- app_assoc. eexists. split; [reflexivity|].
      apply Forall_app. split; [|exact Hnew].
      destruct (onError props); repeat constructor.
  - rewrite (RecognitionFacts.recognition_idle engine props frame a Hon).
    exists new. split; [reflexivity | exact Hnew].
Qed.

(** ** [deleteSpeaker] *)

(** Deleting a speaker removes the record and reloads the list shown,
    but leaves the service alone: the recognizer that was created and the
    names it maps indexes to stay as they were until recognition is
    started again. With a database that cannot be opened, the error is
    shown and passed to [onError] and the list is kept. *)
Theorem deleteSpeaker_keeps_recognizer (speakerId : string) (a : App) :
  let a' := final (deleteSpeaker speakerId a) in
  eagleService a' = eagleService a
  /\ isRecognizing (recognitionState a') = isRecognizing (recognitionState a)
  /\ (Storage.available (speakerStorage a) = true ->
      Storage.records (speakerStorage a')
        = delete speakerId (Storage.records (speakerStorage a))
      /\ enrolledProfiles a' = listed (speakerStorage a')
      /\ recognitionState a' = recognitionState a
      /\ events a' = events a)
  /\ (Storage.available (speakerStorage a) = false ->
      speakerStorage a' = speakerStorage a
      /\ enrolledProfiles a' = enrolledProfiles a
      /\ error (recognitionState a') = Some "Failed to open IndexedDB"
      /\ events a'
         = events a
           ++ (if onError props then [OnError "Failed to open IndexedDB"]
               else [])).
Proof.
  cbv zeta. unfold final.
  destruct (deleteSpeaker speakerId a) as [res a'] eqn:Hrun. cbn [snd].
  unfold Recognition.deleteSpeaker, storage in Hrun.
  unfold try_catch at 1 in Hrun. unfold bind at 1 in Hrun.
  unfold zoom at 1 in Hrun.
  destruct (Storage.available (speakerStorage a)) eqn:Hav.
  - destruct (StoreFacts.operations_available _ Hav) as (Hdel & _).
    rewrite Hdel in Hrun. unfold bind at 1 in Hrun.
    rewrite loadEnrolledProfiles_available in Hrun by exact Hav.
    run_monad_in Hrun. injection Hrun as <- <-. project.
    cbn [Storage.records Storage.set_records].
    repeat split; intros; try discriminate; reflexivity.
  - unfold Storage.deleteSpeakerProfile, Storage.init in Hrun.
    unfold setRecognitionState in Hrun.
    run_monad_in Hrun. rewrite Hav in Hrun. cbn [fst snd] in Hrun.
    destruct (onError props); injection Hrun as <- <-; project;
      rewrite ?app_nil_r; repeat split; intros; try discriminate;
      repeat split.
Qed.

End WithEngine.
End ListenerFacts.

(* ===================================================================== *)
(** * More facts: the notifications and the count of the page              *)
(* ===================================================================== *)

Module PageFacts.
Import JS Control Types Page.

(** Whatever the list was, after [addNotification] it holds at most five
    notifications: the new one first, then the first four of the old
    ones in their order. *)
Theorem addNotification_keeps_five (clock : Z) (message : string)
    (type : NotificationType) (prev : list Notification) :
  let notifications := addNotification clock message type prev in
  (length notifications <= 5)%nat
  /\ length notifications = S (Nat.min 4 (length prev))
  /\ notifications !! 0%nat
     = Some {| id := pretty clock; message := message; type := type;
               timestamp := clock |}
  /\ (forall k, (k < 4)%nat -> notifications !! S k = prev !! k)
  /\ (forall k, (4 <= k)%nat -> notifications !! S k = None).
Proof.
  cbv zeta. unfold addNotification. cbn [length lookup list_lookup].
  rewrite length_take. repeat split.
  - lia.
  - intros k Hk. apply lookup_take_lt. exact Hk.
  - intros k Hk. apply lookup_take_ge. exact Hk.
Qed.

(** [removeNotification] keeps, in their order, exactly the notifications
    whose id differs from the given one. The id is the clock's reading,
    so the timer armed by [addNotification] removes its notification
    together with every other one added at the same reading, and leaves
    alone the ones added at another reading. *)
Theorem removeNotification_by_clock (clock other : Z)
    (message message' : string) (type type' : NotificationType)
    (prev : list Notification) :
  (forall key n, n ∈ removeNotification key prev <-> n ∈ prev /\ id n <> key)
  /\ (forall key, (length (removeNotification key prev) <= length prev)%nat)
  /\ removeNotification (pretty clock)
       (addNotification clock message' type'
          (addNotification clock message type prev))
     = removeNotification (pretty clock) (take 3 prev)
  /\ (other <> clock ->
      removeNotification (pretty clock)
        (addNotification other message' type'
           (addNotification clock message type prev))
      = {| id := pretty other; message := message'; type := type';
           timestamp := other |}
        :: removeNotification (pretty clock) (take 3 prev)).
Proof.
  split; [|split; [|split]].
  - intros key n. unfold removeNotification.
    rewrite list_elem_of_filter. tauto.
  - intros key. apply length_filter.
  - unfold removeNotification, addNotification.
    cbn [take]. rewrite take_take. cbn [Nat.min].
    rewrite !filter_cons. cbn [id].
    destruct (decide (pretty clock <> pretty clock)) as [Hne|_];
      [congruence | reflexivity].
  - intros Hother. unfold removeNotification, addNotification.
    cbn [take]. rewrite take_take. cbn [Nat.min].
    rewrite !filter_cons. cbn [id].
    destruct (decide (pretty other <> pretty clock)) as [_|Heq].
    + destruct (decide (pretty clock <> pretty clock)) as [Hne|_];
        [congruence | reflexivity].
    + exfalso. apply Heq. intros Hpretty.
      apply Hother. apply (inj pretty). exact Hpretty.
Qed.

(** The count shown is the number of stored records when the database
    opens, and is left as it was when it does not. Saving a profile
    under a new id makes the next count one more; saving under an id
    that is stored already leaves the count. *)
Theorem loadEnrolledCount_after_save (profile : SpeakerProfile)
    (db : Storage.DB) (enrolledCount : nat) :
  (Storage.available db = true ->
   loadEnrolledCount db enrolledCount = size (Storage.records db))
  /\ (Storage.available db = false ->
      loadEnrolledCount db enrolledCount = enrolledCount)
  /\ (outcome (Storage.saveSpeakerProfile profile db) = Ok tt ->
      loadEnrolledCount (final (Storage.saveSpeakerProfile profile db))
        enrolledCount
      = match Storage.records db !! Types.id profile with
        | None => S (size (Storage.records db))
        | Some _ => size (Storage.records db)
        end).
Proof.
  assert (Hcount : forall d, Storage.available d = true ->
            loadEnrolledCount d enrolledCount = size (Storage.records d)).
  { intros d Hav. unfold loadEnrolledCount.
    destruct (StoreFacts.operations_available d Hav) as (_ & _ & _ & Hall & _).
    rewrite Hall. unfold outcome. cbn [fst].
    rewrite length_fmap. apply length_map_to_list. }
  split; [apply Hcount|]. split.
  - intros Hav. unfold loadEnrolledCount, Storage.getAllSpeakerProfiles,
      Storage.init, bind, gets, ret, throw, outcome. cbn [fst snd].
    rewrite Hav. reflexivity.
  - intros Hok.
    destruct (StorageFacts.saveSpeakerProfile_Ok_inv profile db Hok)
      as (_ & Hav' & _).
    rewrite (Hcount _ Hav').
    rewrite (StorageFacts.saveSpeakerProfile_Ok_records profile db Hok).
    destruct (Storage.records db !! Types.id profile) as [r|] eqn:Hid.
    + rewrite <- (insert_delete_id (Storage.records db) (Types.id profile) r)
        at 2 by exact Hid.
      rewrite <- (insert_delete_eq (Storage.records db)).
      rewrite !map_size_insert_None by apply lookup_delete_eq.
      reflexivity.
    + apply map_size_insert_None. exact Hid.
Qed.

End PageFacts.

(* ===================================================================== *)
(** * More worked examples                                                 *)
(* ===================================================================== *)

Module MoreExamples.
Import JS Control Types Scenario.

Local Ltac evaluate :=
  vm_compute;
  first [ reflexivity | discriminate
        | let H := fresh in intros H; discriminate H ].

Local Ltac bytes :=
  repeat first [ apply Forall_nil_2
               | apply Forall_cons_2; [unfold is_uint8; lia|] ].

Local Ltac words :=
  repeat first [ apply Forall_nil_2
               | apply Forall_cons_2; [unfold is_int32; lia|] ].

(** ** The voiceprint *)

Lemma bytesToInt32Array_injective_witness :
  [1; 2; 3; 4; 200] = rev [200; 4; 3; 2; 1].
Proof.
  apply (CodecFacts.bytesToInt32Array_injective
           [1; 2; 3; 4; 200] (rev [200; 4; 3; 2; 1])).
  - bytes.
  - cbn [rev app]. bytes.
  - reflexivity.
  - evaluate.
Defined.

(** ** Capture *)

Lemma convert_sample_monotone_witness :
  Recorder.convert_sample (Recorder.Infinity true)
  <= Recorder.convert_sample (Recorder.Finite (1 # 2))
  /\ Recorder.convert_sample (Recorder.Finite (1 # 2))
     <= Recorder.convert_sample (Recorder.Finite (3 # 4))
  /\ Recorder.convert_sample (Recorder.Finite (3 # 4))
     <= Recorder.convert_sample (Recorder.Infinity false).
Proof.
  apply (CaptureFacts.convert_sample_monotone (1 # 2) (3 # 4)).
  unfold Qle. cbn. lia.
Defined.

Lemma normalizedLevel_bounds_witness :
  (0 <= Recorder.normalizedLevel [0; 128; 255; 255]%Z <= 1)%Q.
Proof.
  apply (CaptureFacts.normalizedLevel_bounds [0; 128; 255; 255]).
  - bytes.
  - discriminate.
Defined.

(** ** The service *)

Lemma uninitialized_service_refuses_witness :
  Eagle.enrollAudio progressing short_frame Eagle.new_EagleService
  = (Throw "Profiler not initialized. Call initializeProfiler() first.",
     Eagle.new_EagleService)
  /\ Eagle.recognizeAudio progressing short_frame Eagle.new_EagleService
     = (Throw "Recognizer not initialized. Call initializeRecognizer() first.",
        Eagle.new_EagleService).
Proof.
  destruct (ServiceFacts.uninitialized_service_refuses progressing
              short_frame Eagle.new_EagleService ltac:(reflexivity))
    as (Henroll & _ & Hrecognize).
  split; [exact Henroll | exact Hrecognize].
Defined.

Lemma frames_accumulate_in_order_witness :
  let s := Enrollment.eagleService (enrolling progressing) in
  Eagle.perform_all progressing
    (Eagle.OpEnrollAudio <$> [short_frame; short_frame]) s
  = Eagle.set_audioBuffer
      (Eagle.audioBuffer s ++ concat [short_frame; short_frame]) s.
Proof.
  cbv zeta.
  exact (proj1 (ServiceFacts.frames_accumulate_in_order progressing
                  [short_frame; short_frame]
                  (Enrollment.eagleService (enrolling progressing))
                  ltac:(evaluate) ltac:(evaluate))).
Defined.

(** ** The store *)

Lemma duplicate_name_rejected_witness :
  Storage.saveSpeakerProfile alice_again two_profiles_db
  = (Throw "Failed to save speaker profile", two_profiles_db).
Proof.
  apply (StoreFacts.duplicate_name_rejected alice_again two_profiles_db
           "speaker_1_a" (Storage.profileToStore alice)).
  - evaluate.
  - evaluate.
  - evaluate.
  - evaluate.
Defined.

Lemma store_keeps_ids_and_names_witness :
  let saved := final (Storage.saveSpeakerProfile carol two_profiles_db) in
  let refused :=
    final (Storage.saveSpeakerProfile alice_again two_profiles_db) in
  let deleted :=
    final (Storage.deleteSpeakerProfile "speaker_1_a" two_profiles_db) in
  let cleared := final (Storage.clearAllProfiles two_profiles_db) in
  size (Storage.records two_profiles_db) = 2%nat
  /\ size (Storage.records saved) = 3%nat
  /\ Storage.keyed_by_id (Storage.records saved)
  /\ Storage.unique_names (Storage.records saved)
  /\ Storage.keyed_by_id (Storage.records refused)
  /\ Storage.unique_names (Storage.records refused)
  /\ size (Storage.records deleted) = 1%nat
  /\ Storage.keyed_by_id (Storage.records deleted)
  /\ Storage.unique_names (Storage.records deleted)
  /\ Storage.keyed_by_id (Storage.records cleared)
  /\ Storage.unique_names (Storage.records cleared).
Proof.
  cbv zeta.
  assert (Hkeys : Storage.keyed_by_id (Storage.records two_profiles_db)).
  { intros k r Hk. apply elem_of_map_to_list in Hk. revert Hk.
    vm_compute (map_to_list _). intros Hk.
    repeat (apply elem_of_cons in Hk as [[= -> ->]|Hk]; [reflexivity|]).
    apply elem_of_nil in Hk. destruct Hk. }
  assert (Hnames : Storage.unique_names (Storage.records two_profiles_db)).
  { intros k1 k2 r1 r2 H1 H2.
    apply elem_of_map_to_list in H1, H2. revert H1 H2.
    vm_compute (map_to_list _). intros H1 H2.
    repeat (apply elem_of_cons in H1 as [[= -> ->]|H1];
            [repeat (apply elem_of_cons in H2 as [[= -> ->]|H2];
                     [first [reflexivity | intros [=]]|]);
             apply elem_of_nil in H2; destruct H2|]).
    apply elem_of_nil in H1. destruct H1. }
  destruct (StoreFacts.store_keeps_ids_and_names carol "speaker_1_a"
              two_profiles_db Hkeys Hnames)
    as ((Hsaved1 & Hsaved2) & (Hdeleted1 & Hdeleted2) & (Hcleared1 & Hcleared2)).
  destruct (StoreFacts.store_keeps_ids_and_names alice_again "speaker_1_a"
              two_profiles_db Hkeys Hnames)
    as ((Hrefused1 & Hrefused2) & _).
  split; [vm_compute; reflexivity|]. split; [vm_compute; reflexivity|].
  split; [exact Hsaved1|]. split; [exact Hsaved2|].
  split; [exact Hrefused1|]. split; [exact Hrefused2|].
  split; [vm_compute; reflexivity|].
  split; [exact Hdeleted1|]. split; [exact Hdeleted2|].
  split; [exact Hcleared1 | exact Hcleared2].
Defined.

Lemma save_leaves_other_records_witness :
  outcome (Storage.getSpeakerProfile "speaker_1_a"
             (final (Storage.saveSpeakerProfile carol two_profiles_db)))
  = outcome (Storage.getSpeakerProfile "speaker_1_a" two_profiles_db).
Proof.
  apply (StoreFacts.save_leaves_other_records carol two_profiles_db
           "speaker_1_a").
  - evaluate.
  - evaluate.
Defined.

Lemma delete_removes_profile_witness :
  outcome (Storage.getSpeakerProfile "speaker_2_b"
             (final (Storage.deleteSpeakerProfile "speaker_2_b"
                       two_profiles_db)))
  = Ok None
  /\ outcome (Storage.getSpeakerByName "Carol"
                (final (Storage.deleteSpeakerProfile "speaker_3_c"
                          (final (Storage.saveSpeakerProfile carol
                                    two_profiles_db)))))
     = Ok None.
Proof.
  destruct (StoreFacts.delete_removes_profile carol "speaker_2_b"
              two_profiles_db ltac:(evaluate))
    as (_ & Hgone & _ & _ & Hsaved).
  split; [exact Hgone|].
  exact (proj2 (Hsaved ltac:(evaluate))).
Defined.

Lemma unavailable_database_fails_witness :
  Storage.saveSpeakerProfile alice closed_db
  = (Throw "Failed to open IndexedDB", closed_db)
  /\ Storage.getAllSpeakerProfiles closed_db
     = (Throw "Failed to open IndexedDB", closed_db).
Proof.
  destruct (StoreFacts.unavailable_database_fails alice "speaker_1_a"
              "Alice" closed_db ltac:(reflexivity))
    as (Hsave & _ & Hall & _).
  split; [exact Hsave | exact Hall].
Defined.

Lemma stored_profiles_listed_witness :
  exists profiles,
    outcome (Storage.getAllSpeakerProfiles
               (final (Storage.saveSpeakerProfile alice empty_db)))
    = Ok profiles
    /\ alice ∈ profiles
    /\ length profiles = 1%nat.
Proof.
  assert (Hint : Forall is_int32 (voiceprint alice)) by words.
  destruct (StoreFacts.stored_profiles_listed alice "speaker_1_a" "Alice"
              empty_db Hint ltac:(evaluate))
    as ((profiles & Hall & Hin & Hlen) & _).
  exists profiles. split; [exact Hall|]. split; [exact Hin|].
  rewrite Hlen. evaluate.
Defined.

(** ** From the profiler to the recognizer *)

Lemma exported_voiceprint_reaches_recognizer_witness :
  exists (profiles : list SpeakerProfile) (k : nat)
         (eagleProfiles : list (list Z)),
    outcome (Storage.getAllSpeakerProfiles
               (final (Storage.saveSpeakerProfile enrolled_alice empty_db)))
    = Ok profiles
    /\ profiles !! k = Some enrolled_alice
    /\ Eagle.calls
         (final (Eagle.initializeRecognizer completing profiles
                   Eagle.new_EagleService))
       = [Eagle.CallCreateRecognizer eagleProfiles]
    /\ eagleProfiles !! k = Some [1; 2; 3; 4; 200; 0; 0; 0].
Proof.
  assert (Hbytes : Forall is_uint8 [1; 2; 3; 4; 200]) by bytes.
  destruct (PipelineFacts.exported_voiceprint_reaches_recognizer completing
              (Enrollment.eagleService (enrolling completing))
              Eagle.new_EagleService 0%nat [1; 2; 3; 4; 200] enrolled_alice
              empty_db ltac:(evaluate) ltac:(evaluate) ltac:(evaluate)
              Hbytes ltac:(evaluate) ltac:(evaluate))
    as (profiles & k & eagleProfiles & Hall & Hk & Hcalls & Hbytes').
  exists profiles, k, eagleProfiles.
  split; [exact Hall|]. split; [exact Hk|]. split; [exact Hcalls|].
  exact Hbytes'.
Defined.

(** ** Starting *)

(** The form after a failed enrollment shows an error and its buffer is
    full; the name is typed again, followed by a no-break space. *)
Lemma startEnrollment_opens_session_witness :
  let a' := final (Enrollment.startEnrollment enroll_throwing both_callbacks
                     typed_again) in
  Enrollment.error (Enrollment.enrollmentState typed_again)
  = Some "Enrollment failed: Error: Invalid argument"
  /\ Z.of_nat (length (Eagle.audioBuffer (Enrollment.eagleService typed_again)))
     = 16000
  /\ Enrollment.trim (Enrollment.speakerName typed_again) = "Alice"
  /\ Enrollment.enrollmentState a'
     = {| Enrollment.isEnrolling := true; Enrollment.isRecording := true;
          Enrollment.progress := 0; Enrollment.error := None;
          Enrollment.success := false |}
  /\ Eagle.audioBuffer (Enrollment.eagleService a') = []
  /\ Eagle.calls (Enrollment.eagleService a')
     = Eagle.calls (Enrollment.eagleService typed_again)
       ++ [Eagle.CallCreateProfiler]
  /\ Enrollment.events a'
     = Enrollment.events typed_again ++ [Enrollment.StartRecording].
Proof.
  cbv zeta.
  destruct (SessionFacts.startEnrollment_opens_session enroll_throwing
              both_callbacks typed_again ltac:(evaluate) ltac:(evaluate)
              ltac:(evaluate) ltac:(evaluate))
    as (Hcalls & _ & Hstate & Hbuffer & _ & _ & Hevents & _).
  split; [vm_compute; reflexivity|]. split; [vm_compute; reflexivity|].
  split; [vm_compute; reflexivity|].
  split; [exact Hstate|]. split; [exact Hbuffer|].
  split; [exact Hcalls | exact Hevents].
Defined.

(** White space that is not ASCII. A name made of a no-break space is
    blank, whatever the microphone says; a name typed with a trailing
    no-break space is looked up without it, so it is refused when the
    bare name is stored and accepted when only the padded name is. *)
Example startEnrollment_trims_no_break_space :
  let typed name db mic :=
    final (Enrollment.startEnrollment progressing both_callbacks
             (Enrollment.set_speakerName name
                (Enrollment.mount db 1700000000000 "k3j9x0q2a" mic))) in
  String.length nbsp = 2%nat
  /\ Enrollment.trim nbsp = ""
  /\ Enrollment.trim ("Alice" +:+ nbsp) = "Alice"
  /\ Enrollment.trim (nbsp +:+ " Alice Smith" +:+ nbsp +:+ " ")
     = "Alice Smith"
  /\ Enrollment.error
       (Enrollment.enrollmentState (typed nbsp two_profiles_db false))
     = Some "Please enter a speaker name"
  /\ Enrollment.error
       (Enrollment.enrollmentState
          (typed ("Alice" +:+ nbsp) two_profiles_db true))
     = Some "A speaker with this name already exists"
  /\ Eagle.calls
       (Enrollment.eagleService
          (typed ("Alice" +:+ nbsp) two_profiles_db true)) = []
  /\ Enrollment.isEnrolling
       (Enrollment.enrollmentState
          (typed ("Alice" +:+ nbsp) padded_name_db true)) = true
  /\ Eagle.calls
       (Enrollment.eagleService
          (typed ("Alice" +:+ nbsp) padded_name_db true))
     = [Eagle.CallCreateProfiler].
Proof. vm_compute. repeat split. Qed.

Lemma startRecognition_begins_witness :
  let a' := final (Recognition.startRecognition progressing
                     both_recognition_callbacks
                     (Recognition.mount two_profiles_db true)) in
  Recognition.isRecognizing (Recognition.recognitionState a') = true
  /\ Eagle.getSpeakerName 0 (Recognition.eagleService a') = "Alice"
  /\ Eagle.getSpeakerName 1 (Recognition.eagleService a') = "Bob".
Proof.
  cbv zeta.
  destruct (ListenerFacts.startRecognition_begins progressing
              both_recognition_callbacks
              (Recognition.mount two_profiles_db true)
              ltac:(evaluate) ltac:(evaluate) ltac:(evaluate))
    as (_ & _ & Hnames & _ & Hstate & _).
  split; [rewrite Hstate; reflexivity|].
  unfold Eagle.getSpeakerName. rewrite Hnames. split; evaluate.
Defined.

End MoreExamples.
